(** * Utilities Email Tracker: bill extraction and aggregation

    A shallow embedding of the bill-extraction pipeline of the
    [utilities_email_tracker] integration:

    - [parsers/duke_energy.py], [parsers/psnc_energy.py],
      [parsers/raleigh_water.py], [parsers/generic.py]: the provider
      extractors;
    - [parsers/__init__.py]: the dispatcher [extract_bills];
    - [coordinator.py]: [_limit_bills], [_build_summary], [_min_iso_date],
      [_parse_from], [_async_update_data];
    - [sensor.py]: the state and the attributes of the entity.

    Conventions of the embedding.

    - A Python [str] is a [string]; a character is the code point it
      denotes, restricted to code points below 256.  The character tables
      ([isspace], [lower], the classes of [re]) are those of Python on that
      range.
    - A Python [float] is a [spec_float] of binary64 ([prec = 53],
      [emax = 1024]), with round-to-nearest-even arithmetic.
    - A dict with a fixed set of keys (an email, a bill, a summary) is a
      record; a missing key and a key bound to [None] are both [None],
      which is what [dict.get] makes of them.
    - Library functions whose whole behaviour is a table or depends on the
      interpreter version ([html.unescape], [quopri.decodestring],
      [email.utils.parseaddr], [datetime.strptime],
      [datetime.fromisoformat]) and the clock are fields of the class
      [Runtime]; every theorem holds for every runtime, and
      [Reference.runtime] is an executable one for plain text.
    - Regular expressions are kept as the pattern strings of the source and
      compiled by [Re.compile] to the abstract syntax a backtracking matcher
      runs on. *)

From Stdlib Require Import ZArith NArith Ascii String List Bool Lia SpecFloat.
From stdpp Require Import base option list gmap sets strings sorting.

Set Default Proof Using "Type".

(** * Models of the Python built-ins the source relies on *)

Module Py.

(** ** Characters *)

Definition code (c : ascii) : nat := nat_of_ascii c.
Definition chr (n : nat) : ascii := ascii_of_nat n.

Definition between (lo hi n : nat) : bool := Nat.leb lo n && Nat.leb n hi.

(** [str.isspace] on one character. *)
Definition isspace (c : ascii) : bool :=
  let n := code c in
  between 9 13 n || between 28 32 n || Nat.eqb n 133 || Nat.eqb n 160.

(** Unicode decimal digits ([\d] of [re]). *)
Definition isdecimal (c : ascii) : bool := between 48 57 (code c).

(** Word characters ([\w] of [re]): alphanumerics and the underscore. *)
Definition isword (c : ascii) : bool :=
  let n := code c in
  between 48 57 n || between 65 90 n || Nat.eqb n 95 || between 97 122 n
  || Nat.eqb n 170 || between 178 179 n || Nat.eqb n 181
  || between 185 186 n || between 188 190 n || between 192 214 n
  || between 216 246 n || between 248 255 n.

Definition isupper (c : ascii) : bool :=
  let n := code c in
  between 65 90 n || between 192 214 n || between 216 222 n.

Definition islower_pair (c : ascii) : bool :=
  let n := code c in
  between 97 122 n || between 224 246 n || between 248 254 n.

(** [str.lower] on one character. *)
Definition lower_char (c : ascii) : ascii :=
  if isupper c then chr (code c + 32) else c.

(** The upper-case partner of a lower-case letter, when it has one below
    256 (['µ'], ['ß'] and ['ÿ'] have none). *)
Definition upper_char (c : ascii) : ascii :=
  if islower_pair c then chr (code c - 32) else c.

(** Letters with a case ([str.title] looks at them). *)
Definition iscased (c : ascii) : bool :=
  let n := code c in
  isupper c || islower_pair c || Nat.eqb n 181 || Nat.eqb n 223
  || Nat.eqb n 255 || Nat.eqb n 170 || Nat.eqb n 186.

(** ** Strings *)

Definition chars (s : string) : list ascii := String.list_ascii_of_string s.
Definition str (l : list ascii) : string := String.string_of_list_ascii l.

Definition len (s : string) : nat := String.length s.

(** Truth value of a string: non-empty. *)
Definition truthy (s : string) : bool :=
  match s with EmptyString => false | String _ _ => true end.

(** [o or ""] for an optional string. *)
Definition or_empty (o : option string) : string := default "" o.

(** [s or None]. *)
Definition or_none (s : string) : option string :=
  if truthy s then Some s else None.

(** Truth value of an optional string: present and non-empty. *)
Definition otruthy (o : option string) : bool :=
  match o with Some s => truthy s | None => false end.

Definition lower (s : string) : string := str (map lower_char (chars s)).

Fixpoint lstrip_chars (l : list ascii) : list ascii :=
  match l with
  | c :: l' => if isspace c then lstrip_chars l' else l
  | [] => []
  end.

Definition strip_chars (l : list ascii) : list ascii :=
  rev (lstrip_chars (rev (lstrip_chars l))).

(** [str.strip()]. *)
Definition strip (s : string) : string := str (strip_chars (chars s)).

Fixpoint is_prefix (p l : list ascii) : bool :=
  match p, l with
  | [], _ => true
  | a :: p', b :: l' => Ascii.eqb a b && is_prefix p' l'
  | _ :: _, [] => false
  end.

(** [s.startswith(p)]. *)
Definition startswith (s p : string) : bool := is_prefix (chars p) (chars s).

Fixpoint contains_chars (p l : list ascii) : bool :=
  is_prefix p l ||
  match l with
  | [] => false
  | _ :: l' => contains_chars p l'
  end.

(** [p in s]. *)
Definition contains (p s : string) : bool := contains_chars (chars p) (chars s).

Fixpoint replace_aux (old new : list ascii) (skip : nat) (l : list ascii)
  : list ascii :=
  match l with
  | [] => []
  | c :: l' =>
    match skip with
    | S k => replace_aux old new k l'
    | O =>
      if is_prefix old l
      then new ++ replace_aux old new (length old - 1) l'
      else c :: replace_aux old new 0 l'
    end
  end.

(** [s.replace(old, new)]; with an empty [old], [new] goes before every
    character and at the end. *)
Definition replace (old new s : string) : string :=
  match chars old with
  | [] => str (flat_map (fun c => chars new ++ [c]) (chars s) ++ chars new)
  | o => str (replace_aux o (chars new) 0 (chars s))
  end.

(** [s[:n]] for a non-negative [n]. *)
Definition slice_to (n : nat) (s : string) : string := str (take n (chars s)).

Fixpoint split_aux (sep : list ascii) (skip : nat) (cur : list ascii)
  (l : list ascii) : list (list ascii) :=
  match l with
  | [] => [rev cur]
  | c :: l' =>
    match skip with
    | S k => split_aux sep k cur l'
    | O =>
      if is_prefix sep l
      then rev cur :: split_aux sep (length sep - 1) [] l'
      else split_aux sep 0 (c :: cur) l'
    end
  end.

(** [s.split(sep)] for a non-empty separator. *)
Definition split (sep s : string) : list string :=
  map str (split_aux (chars sep) 0 [] (chars s)).

(** The title-case form of one character: that of ['ß'] is the two
    characters ["Ss"]; those of ['µ'] and ['ÿ'] lie above code point 255,
    outside the strings of this embedding, and the character is kept. *)
Definition title_char (c : ascii) : list ascii :=
  if Nat.eqb (code c) 223 then [chr 83; chr 115] else [upper_char c].

Fixpoint title_aux (prev_cased : bool) (l : list ascii) : list ascii :=
  match l with
  | [] => []
  | c :: l' =>
    (if prev_cased then [lower_char c] else title_char c)
      ++ title_aux (iscased c) l'
  end.

(** [str.title()]. *)
Definition title (s : string) : string := str (title_aux false (chars s)).

(** The characters the source writes with escapes. *)
Definition LF : string := String (chr 10) EmptyString.
Definition CR : string := String (chr 13) EmptyString.
Definition NBSP : string := String (chr 160) EmptyString.

End Py.

(** * Regular expressions: the part of [re] the source uses *)

Module Re.

Inductive cset_item :=
| CsChar (c : ascii)
| CsRange (lo hi : ascii)
| CsSpace
| CsDigit
| CsWord.

Inductive regex :=
| Eps
| Lit (c : ascii)
| Dot
| CSet (negated : bool) (items : list cset_item)
| Cat (r1 r2 : regex)
| Alt (r1 r2 : regex)
| Rep (r : regex) (lo : nat) (hi : option nat)
| Grp (n : nat) (r : regex)
| WordB.

(** A compiled pattern: syntax, number of groups, [re.IGNORECASE]. *)
Record pattern := {
  re_ast : regex;
  re_groups : nat;
  re_ignorecase : bool
}.

(** ** Parsing a pattern string *)

Definition digit_val (c : ascii) : option nat :=
  if Py.isdecimal c then Some (Py.code c - 48) else None.

Fixpoint parse_nat (acc : nat) (s : list ascii) : nat * list ascii :=
  match s with
  | c :: s' =>
    match digit_val c with
    | Some d => parse_nat (10 * acc + d) s'
    | None => (acc, s)
    end
  | [] => (acc, s)
  end.

(** What an escape denotes: a class, the word boundary or a character. *)
Inductive escape := EClass (i : cset_item) | EBoundary | EChar (c : ascii).

Definition parse_escape (c : ascii) : escape :=
  if Ascii.eqb c "s" then EClass CsSpace
  else if Ascii.eqb c "d" then EClass CsDigit
  else if Ascii.eqb c "w" then EClass CsWord
  else if Ascii.eqb c "b" then EBoundary
  else if Ascii.eqb c "n" then EChar (Py.chr 10)
  else if Ascii.eqb c "r" then EChar (Py.chr 13)
  else if Ascii.eqb c "t" then EChar (Py.chr 9)
  else EChar c.

(** The items of a bracket expression, up to the closing bracket. *)
Fixpoint parse_items (fuel : nat) (s : list ascii)
  : option (list cset_item * list ascii) :=
  match fuel with
  | O => None
  | S fuel' =>
    match s with
    | [] => None
    | "]"%char :: s' => Some ([], s')
    | "\"%char :: c :: s' =>
      let item :=
        match parse_escape c with
        | EClass i => i
        | EBoundary => CsChar (Py.chr 8)
        | EChar x => CsChar x
        end in
      '(items, rest) ← parse_items fuel' s';
      Some (item :: items, rest)
    | lo :: "-"%char :: hi :: s' =>
      if Ascii.eqb hi "]"
      then Some ([CsChar lo; CsChar "-"], s')
      else '(items, rest) ← parse_items fuel' s';
           Some (CsRange lo hi :: items, rest)
    | c :: s' =>
      '(items, rest) ← parse_items fuel' s';
      Some (CsChar c :: items, rest)
    end
  end.

(** A quantifier after an atom, if there is one. *)
Definition parse_quant (r : regex) (s : list ascii) : regex * list ascii :=
  match s with
  | "*"%char :: s' => (Rep r 0 None, s')
  | "+"%char :: s' => (Rep r 1 None, s')
  | "?"%char :: s' => (Rep r 0 (Some 1), s')
  | "{"%char :: s' =>
    let '(lo, s1) := parse_nat 0 s' in
    match s1 with
    | "}"%char :: s2 => (Rep r lo (Some lo), s2)
    | ","%char :: "}"%char :: s2 => (Rep r lo None, s2)
    | ","%char :: s2 =>
      let '(hi, s3) := parse_nat 0 s2 in
      match s3 with
      | "}"%char :: s4 => (Rep r lo (Some hi), s4)
      | _ => (r, s)
      end
    | _ => (r, s)
    end
  | _ => (r, s)
  end.

(** Alternations, sequences and atoms; [gi] is the number the next
    capturing group gets. *)
Fixpoint parse_alt (fuel gi : nat) (s : list ascii)
  : option (regex * nat * list ascii) :=
  match fuel with
  | O => None
  | S fuel' =>
    '(a, gi1, s1) ← parse_seq fuel' gi s;
    match s1 with
    | "|"%char :: s2 =>
      '(b, gi2, s3) ← parse_alt fuel' gi1 s2;
      Some (Alt a b, gi2, s3)
    | _ => Some (a, gi1, s1)
    end
  end
with parse_seq (fuel gi : nat) (s : list ascii)
  : option (regex * nat * list ascii) :=
  match fuel with
  | O => None
  | S fuel' =>
    match s with
    | [] => Some (Eps, gi, s)
    | "|"%char :: _ => Some (Eps, gi, s)
    | ")"%char :: _ => Some (Eps, gi, s)
    | _ =>
      '(a, gi1, s1) ← parse_atom fuel' gi s;
      let '(q, s2) := parse_quant a s1 in
      '(rest, gi2, s3) ← parse_seq fuel' gi1 s2;
      Some (match rest with Eps => q | _ => Cat q rest end, gi2, s3)
    end
  end
with parse_atom (fuel gi : nat) (s : list ascii)
  : option (regex * nat * list ascii) :=
  match fuel with
  | O => None
  | S fuel' =>
    match s with
    | "("%char :: "?"%char :: ":"%char :: s1 =>
      '(r, gi1, s2) ← parse_alt fuel' gi s1;
      match s2 with
      | ")"%char :: s3 => Some (r, gi1, s3)
      | _ => None
      end
    | "("%char :: s1 =>
      '(r, gi1, s2) ← parse_alt fuel' (S gi) s1;
      match s2 with
      | ")"%char :: s3 => Some (Grp gi r, gi1, s3)
      | _ => None
      end
    | "["%char :: "^"%char :: s1 =>
      '(items, s2) ← parse_items (S (length s1)) s1;
      Some (CSet true items, gi, s2)
    | "["%char :: s1 =>
      '(items, s2) ← parse_items (S (length s1)) s1;
      Some (CSet false items, gi, s2)
    | "\"%char :: c :: s1 =>
      Some (match parse_escape c with
            | EClass i => CSet false [i]
            | EBoundary => WordB
            | EChar x => Lit x
            end, gi, s1)
    | "."%char :: s1 => Some (Dot, gi, s1)
    | c :: s1 =>
      if existsb (Ascii.eqb c) ["*"; "+"; "?"; "{"; "}"; "]"; "^"; "$"; "\"]%char
      then None
      else Some (Lit c, gi, s1)
    | [] => None
    end
  end.

Definition parse (p : string) : option (regex * nat) :=
  match parse_alt (3 * Py.len p + 3) 1 (Py.chars p) with
  | Some (r, gi, []) => Some (r, gi - 1)
  | _ => None
  end.

(** [re.compile(p)] and [re.compile(p, re.IGNORECASE)].  A pattern outside
    the supported syntax compiles to one that matches nothing. *)
Definition compile_with (ic : bool) (p : string) : pattern :=
  match parse p with
  | Some (r, n) => {| re_ast := r; re_groups := n; re_ignorecase := ic |}
  | None => {| re_ast := CSet false []; re_groups := 0; re_ignorecase := ic |}
  end.

Definition compile (p : string) : pattern := compile_with false p.
Definition compile_i (p : string) : pattern := compile_with true p.

(** ** Matching *)

Definition in_range (lo hi c : ascii) : bool :=
  Py.between (Py.code lo) (Py.code hi) (Py.code c).

Definition item_matches (ic : bool) (i : cset_item) (c : ascii) : bool :=
  match i with
  | CsChar x =>
    Ascii.eqb x c || (ic && Ascii.eqb (Py.lower_char x) (Py.lower_char c))
  | CsRange lo hi =>
    in_range lo hi c
    || (ic && (in_range lo hi (Py.lower_char c)
               || in_range lo hi (Py.upper_char c)))
  | CsSpace => Py.isspace c
  | CsDigit => Py.isdecimal c
  | CsWord => Py.isword c
  end.

Definition captures := list (nat * (nat * nat)).

(** The matcher's position in the subject: the character before it, the
    characters after it, its index, and the groups closed so far. *)
Record mstate := {
  ms_prev : option ascii;
  ms_rest : list ascii;
  ms_pos : nat;
  ms_caps : captures
}.

Definition advance (st : mstate) (c : ascii) (rest : list ascii) : mstate :=
  {| ms_prev := Some c; ms_rest := rest; ms_pos := S (ms_pos st);
     ms_caps := ms_caps st |}.

Definition set_cap (n start : nat) (st : mstate) : mstate :=
  {| ms_prev := ms_prev st; ms_rest := ms_rest st; ms_pos := ms_pos st;
     ms_caps := (n, (start, ms_pos st)) :: ms_caps st |}.

Definition word_before (st : mstate) : bool :=
  match ms_prev st with Some c => Py.isword c | None => false end.

Definition word_after (st : mstate) : bool :=
  match ms_rest st with c :: _ => Py.isword c | [] => false end.

Definition step (st : mstate) (ok : ascii → bool)
  (k : mstate → option mstate) : option mstate :=
  match ms_rest st with
  | c :: rest => if ok c then k (advance st c rest) else None
  | [] => None
  end.

Definition at_max (hi : option nat) (count : nat) : bool :=
  match hi with Some h => Nat.leb h count | None => false end.

(** Backtracking matcher in continuation-passing style: alternatives are
    tried left to right, repetitions are greedy. *)
Fixpoint rmatch (ic : bool) (r : regex) (st : mstate)
  (k : mstate → option mstate) {struct r} : option mstate :=
  match r with
  | Eps => k st
  | Lit c => step st (item_matches ic (CsChar c)) k
  | Dot => step st (fun c => negb (Ascii.eqb c (Py.chr 10))) k
  | CSet neg items =>
    step st (fun c => xorb neg (existsb (fun i => item_matches ic i c) items)) k
  | Cat a b => rmatch ic a st (fun st' => rmatch ic b st' k)
  | Alt a b =>
    match rmatch ic a st k with
    | Some res => Some res
    | None => rmatch ic b st k
    end
  | Rep a lo hi =>
    (fix loop (fuel count : nat) (st : mstate) {struct fuel}
       : option mstate :=
       let stop := if Nat.leb lo count then k st else None in
       match fuel with
       | O => stop
       | S fuel' =>
         if at_max hi count then stop
         else
           match rmatch ic a st
                   (fun st' =>
                      if Nat.ltb (ms_pos st) (ms_pos st')
                      then loop fuel' (S count) st'
                      else None) with
           | Some res => Some res
           | None => stop
           end
       end) (S (length (ms_rest st))) 0 st
  | Grp n a => rmatch ic a st (fun st' => k (set_cap n (ms_pos st) st'))
  | WordB => if xorb (word_before st) (word_after st) then k st else None
  end.

(** A match object: start, end, the groups that took part, the number of
    groups of the pattern, the subject. *)
Record match_obj := {
  m_start : nat;
  m_end : nat;
  m_caps : captures;
  m_ngroups : nat;
  m_subject : list ascii
}.

Fixpoint search_from (p : pattern) (subject : list ascii)
  (prev : option ascii) (rest : list ascii) (pos : nat)
  : option match_obj :=
  match rmatch (re_ignorecase p) (re_ast p)
          {| ms_prev := prev; ms_rest := rest; ms_pos := pos; ms_caps := [] |}
          Some with
  | Some st =>
    Some {| m_start := pos; m_end := ms_pos st; m_caps := ms_caps st;
            m_ngroups := re_groups p; m_subject := subject |}
  | None =>
    match rest with
    | [] => None
    | c :: rest' => search_from p subject (Some c) rest' (S pos)
    end
  end.

(** [pattern.search(text)]. *)
Definition search (p : pattern) (text : string) : option match_obj :=
  search_from p (Py.chars text) None (Py.chars text) 0.

(** [pattern.match(text)]: a match at the start only. *)
Definition match_ (p : pattern) (text : string) : option match_obj :=
  match rmatch (re_ignorecase p) (re_ast p)
          {| ms_prev := None; ms_rest := Py.chars text; ms_pos := 0;
             ms_caps := [] |} Some with
  | Some st =>
    Some {| m_start := 0; m_end := ms_pos st; m_caps := ms_caps st;
            m_ngroups := re_groups p; m_subject := Py.chars text |}
  | None => None
  end.

Fixpoint lookup_cap (n : nat) (cs : captures) : option (nat * nat) :=
  match cs with
  | [] => None
  | (i, span) :: cs' => if Nat.eqb i n then Some span else lookup_cap n cs'
  end.

Definition span_text (m : match_obj) (span : nat * nat) : string :=
  Py.str (take (snd span - fst span) (drop (fst span) (m_subject m))).

(** [m.group(n)]: [None] for a group that took no part in the match. *)
Definition group (m : match_obj) (n : nat) : option string :=
  match n with
  | O => Some (span_text m (m_start m, m_end m))
  | _ => span_text m <$> lookup_cap n (m_caps m)
  end.

(** [re.sub(p, repl, text)] for a replacement without group references and
    a pattern that matches no empty string. *)
Fixpoint sub_from (fuel : nat) (p : pattern) (repl : list ascii)
  (subject : list ascii) (prev : option ascii) (rest : list ascii)
  (pos : nat) : list ascii :=
  match fuel with
  | O => rest
  | S fuel' =>
    match search_from p subject prev rest pos with
    | None => rest
    | Some m =>
      let before := take (m_start m - pos) rest in
      let after := drop (m_end m - pos) rest in
      if Nat.ltb (m_start m) (m_end m)
      then before ++ repl
           ++ sub_from fuel' p repl subject
                (last (take (m_end m - pos) rest)) after (m_end m)
      else rest
    end
  end.

Definition sub (p : pattern) (repl text : string) : string :=
  let l := Py.chars text in
  Py.str (sub_from (S (length l)) p (Py.chars repl) l None l 0).

End Re.

(** * Floating-point numbers: [float], [float(str)], [round(x, n)] *)

Module PyFloat.

Definition prec : Z := 53.
Definition emax : Z := 1024.

Abbreviation float := spec_float.

Definition zero : float := S754_zero false.

(** [x + y]. *)
Definition add (x y : float) : float := SFadd prec emax x y.

(** Truth value of a float: anything but a zero. *)
Definition truthy (x : float) : bool :=
  match x with S754_zero _ => false | _ => true end.

(** The float nearest to [(-1)^neg * m * 10^e], for [m >= 0]. *)
Definition of_decimal (neg : bool) (m e : Z) : float :=
  if (m =? 0)%Z then S754_zero neg
  else if (0 <=? e)%Z
  then binary_normalize prec emax (cond_Zopp neg (m * 10 ^ e)) 0 neg
  else
    let '(q, e', l) := SFdiv_core_binary prec emax m 0 (10 ^ (- e)) 0 in
    binary_round_aux prec emax neg q e' l.

(** [n / d] rounded to the nearest integer, ties to even. *)
Definition div_half_even (n d : Z) : Z :=
  let q := (n / d)%Z in
  match (2 * (n mod d) ?= d)%Z with
  | Lt => q
  | Gt => (q + 1)%Z
  | Eq => if Z.even q then q else (q + 1)%Z
  end.

(** [round(x, ndigits)] for [ndigits >= 0]: the exact value of [x] is
    rounded to [ndigits] decimals, ties to even, and the decimal read back
    as a float. *)
Definition round (x : float) (ndigits : Z) : float :=
  match x with
  | S754_finite s m e =>
    let scaled := (Zpos m * 10 ^ ndigits)%Z in
    let n := if (0 <=? e)%Z then (scaled * 2 ^ e)%Z
             else div_half_even scaled (2 ^ (- e)) in
    of_decimal s n (- ndigits)
  | _ => x
  end.

(** ** [float(s)] *)

Definition parse_sign (l : list ascii) : bool * list ascii :=
  match l with
  | "-"%char :: l' => (true, l')
  | "+"%char :: l' => (false, l')
  | _ => (false, l)
  end.

(** A run of digits, a single underscore allowed between two digits:
    value, number of digits, rest. *)
Fixpoint digit_run (after_digit : bool) (acc : Z) (cnt : nat)
  (l : list ascii) : Z * nat * list ascii :=
  match l with
  | c :: l' =>
    match Re.digit_val c with
    | Some d => digit_run true (10 * acc + Z.of_nat d) (S cnt) l'
    | None =>
      if after_digit && Ascii.eqb c "_" then
        match l' with
        | c' :: _ =>
          if Py.isdecimal c' then digit_run false acc cnt l'
          else (acc, cnt, l)
        | [] => (acc, cnt, l)
        end
      else (acc, cnt, l)
    end
  | [] => (acc, cnt, l)
  end.

Definition parse_exponent (l : list ascii) : option Z :=
  match l with
  | [] => Some 0%Z
  | c :: l' =>
    if Ascii.eqb c "e" || Ascii.eqb c "E" then
      let '(neg, l1) := parse_sign l' in
      match digit_run false 0 0 l1 with
      | (_, O, _) => None
      | (v, S _, []) => Some (cond_Zopp neg v)
      | (_, S _, _ :: _) => None
      end
    else None
  end.

Definition parse_number (neg : bool) (l : list ascii) : option float :=
  let '(ip, ni, l1) := digit_run false 0 0 l in
  let '(fp, nf, l2) :=
    match l1 with
    | "."%char :: l1' => digit_run false 0 0 l1'
    | _ => (0%Z, O, l1)
    end in
  match ni + nf with
  | O => None
  | S _ =>
    e ← parse_exponent l2;
    Some (of_decimal neg (ip * 10 ^ Z.of_nat nf + fp) (e - Z.of_nat nf))
  end.

(** The whitespace [float] skips at either end: tab to carriage return
    and the blank, and of the code points above 127 those [str.isspace]
    holds of; the separators U+001C to U+001F are not skipped. *)
Definition isspace (c : ascii) : bool :=
  let n := Py.code c in
  Py.between 9 13 n || Nat.eqb n 32 || Nat.eqb n 133 || Nat.eqb n 160.

Fixpoint lstrip (l : list ascii) : list ascii :=
  match l with
  | c :: l' => if isspace c then lstrip l' else l
  | [] => []
  end.

Definition strip (l : list ascii) : list ascii :=
  rev (lstrip (rev (lstrip l))).

(** [float(s)]; [None] stands for [ValueError]. *)
Definition of_str (s : string) : option float :=
  let '(neg, l) := parse_sign (strip (Py.chars s)) in
  let word := Py.lower (Py.str l) in
  if String.eqb word "inf" || String.eqb word "infinity"
  then Some (S754_infinity neg)
  else if String.eqb word "nan" then Some S754_nan
  else parse_number neg l.

End PyFloat.

(** * Calendar dates: [datetime.date] *)

Module PyDate.

Record date := { year : Z; month : Z; day : Z }.

Definition is_leap (y : Z) : bool :=
  ((y mod 4 =? 0) && (negb (y mod 100 =? 0) || (y mod 400 =? 0)))%Z.

Definition days_in_month (y m : Z) : Z :=
  if (m =? 2)%Z then (if is_leap y then 29 else 28)%Z
  else if ((m =? 4) || (m =? 6) || (m =? 9) || (m =? 11))%Z then 30%Z
  else 31%Z.

Definition zbetween (lo hi n : Z) : bool := ((lo <=? n) && (n <=? hi))%Z.

(** The dates [date(y, m, d)] accepts. *)
Definition valid (d : date) : bool :=
  zbetween 1 9999 (year d) && zbetween 1 12 (month d)
  && zbetween 1 (days_in_month (year d) (month d)) (day d).

Definition mk (y m d : Z) : option date :=
  let x := {| year := y; month := m; day := d |} in
  if valid x then Some x else None.

(** [d1 < d2]. *)
Definition ltb (d1 d2 : date) : bool :=
  ((year d1 <? year d2)
   || ((year d1 =? year d2)
       && ((month d1 <? month d2)
           || ((month d1 =? month d2) && (day d1 <? day d2)))))%Z.

Definition digit (n : Z) : ascii := Py.chr (48 + Z.to_nat (n mod 10)).

Definition pad2 (n : Z) : string :=
  String (digit (n / 10)) (String (digit n) EmptyString).

Definition pad4 (n : Z) : string :=
  String (digit (n / 1000)) (String (digit (n / 100)) (pad2 n)).

(** [d.isoformat()]. *)
Definition isoformat (d : date) : string :=
  pad4 (year d) +:+ "-" +:+ pad2 (month d) +:+ "-" +:+ pad2 (day d).

End PyDate.

(** * The runtime: library functions kept abstract, and the clock *)

Class Runtime := {
  (** [html.unescape(text)]. *)
  html_unescape : string → string;
  (** [quopri.decodestring(text)] followed by
      [decoded.decode("utf-8", "ignore")]; [None] when [decodestring]
      raises. *)
  quopri_decodestring : string → option string;
  (** [email.utils.parseaddr(text)]. *)
  parseaddr : string → string * string;
  (** [datetime.strptime(text, fmt).date()]; [None] for [ValueError]. *)
  strptime : string → string → option PyDate.date;
  (** [datetime.fromisoformat(text).date()]; [None] for [ValueError]. *)
  fromisoformat : string → option PyDate.date;
  (** [datetime.utcnow().date()]. *)
  utcnow_date : PyDate.date;
  (** [datetime.now().date()]. *)
  now_date : PyDate.date
}.

(** An executable runtime.  It follows CPython on text that is plain ASCII:
    [strptime] with the directives [%B %b %d %m %Y %y] in the C locale,
    [fromisoformat] on date-only strings [YYYY-MM-DD], quoted-printable
    decoding as [binascii.a2b_qp] does it; of the character references only
    a few named ones are replaced; [parseaddr] reads [name <address>] and
    bare addresses. *)
Module Reference.

(** *** [datetime.strptime] *)

Definition month_names : list string :=
  ["january"; "february"; "march"; "april"; "may"; "june"; "july";
   "august"; "september"; "october"; "november"; "december"].

Definition month_abbrs : list string :=
  ["jan"; "feb"; "mar"; "apr"; "may"; "jun"; "jul"; "aug"; "sep"; "oct";
   "nov"; "dec"].

(** The regular expression of one directive, as [_strptime.TimeRE] has
    it, with a numbered group in place of the named one. *)
Definition directive_re (d : ascii) : option string :=
  if Ascii.eqb d "d" then Some "(3[0-1]|[1-2]\d|0[1-9]|[1-9]| [1-9])"
  else if Ascii.eqb d "m" then Some "(1[0-2]|0[1-9]|[1-9])"
  else if Ascii.eqb d "y" then Some "(\d\d)"
  else if Ascii.eqb d "Y" then Some "(\d\d\d\d)"
  else if Ascii.eqb d "B" then
    Some ("(september|february|november|december|january|october|august"
          +:+ "|march|april|june|july|may)")
  else if Ascii.eqb d "b" then
    Some "(jan|feb|mar|apr|may|jun|jul|aug|sep|oct|nov|dec)"
  else None.

Definition regex_special (c : ascii) : bool :=
  existsb (Ascii.eqb c)
    ["\"; "."; "^"; "$"; "*"; "+"; "?"; "("; ")"; "{"; "}"; "["; "]"; "|"]%char.

(** [TimeRE.pattern(format)]: the pattern and its directives in order. *)
Fixpoint format_pattern (in_space : bool) (l : list ascii)
  : option (string * list ascii) :=
  match l with
  | [] => Some (EmptyString, [])
  | "%"%char :: d :: l' =>
    re ← directive_re d;
    '(p, ds) ← format_pattern false l';
    Some (re +:+ p, d :: ds)
  | c :: l' =>
    '(p, ds) ← format_pattern (Py.isspace c) l';
    Some (if Py.isspace c then (if in_space then p else "\s+" +:+ p)
          else if regex_special c then String "\" (String c p)
          else String c p, ds)
  end.

Definition int_of (s : string) : Z :=
  fst (fst (PyFloat.digit_run false 0 0 (Py.strip_chars (Py.chars s)))).

Fixpoint index_of (s : string) (names : list string) (i : Z) : Z :=
  match names with
  | [] => 0
  | n :: names' => if String.eqb s n then i else index_of s names' (i + 1)
  end.

(** The fields found so far: year, month, day (defaults 1900, 1, 1). *)
Definition set_field (d : ascii) (text : string) (ymd : Z * Z * Z)
  : Z * Z * Z :=
  let '(y, m, dd) := ymd in
  if Ascii.eqb d "d" then (y, m, int_of text)
  else if Ascii.eqb d "m" then (y, int_of text, dd)
  else if Ascii.eqb d "Y" then (int_of text, m, dd)
  else if Ascii.eqb d "y" then
    let v := int_of text in
    ((if v <=? 68 then 2000 + v else 1900 + v)%Z, m, dd)
  else if Ascii.eqb d "B" then (y, index_of (Py.lower text) month_names 1, dd)
  else if Ascii.eqb d "b" then (y, index_of (Py.lower text) month_abbrs 1, dd)
  else ymd.

Fixpoint read_fields (m : Re.match_obj) (ds : list ascii) (i : nat)
  (ymd : Z * Z * Z) : Z * Z * Z :=
  match ds with
  | [] => ymd
  | d :: ds' =>
    read_fields m ds' (S i) (set_field d (default "" (Re.group m i)) ymd)
  end.

Definition strptime (text fmt : string) : option PyDate.date :=
  '(p, ds) ← format_pattern false (Py.chars fmt);
  m ← Re.match_ (Re.compile_i p) text;
  if Nat.eqb (Re.m_end m) (Py.len text)
  then let '(y, mo, d) := read_fields m ds 1 (1900, 1, 1)%Z in PyDate.mk y mo d
  else None.

(** *** [datetime.fromisoformat] on [YYYY-MM-DD] *)

Definition fromisoformat (text : string) : option PyDate.date :=
  m ← Re.match_ (Re.compile "([0-9][0-9][0-9][0-9])-([0-9][0-9])-([0-9][0-9])") text;
  if Nat.eqb (Re.m_end m) (Py.len text)
  then PyDate.mk (int_of (default "" (Re.group m 1)))
                 (int_of (default "" (Re.group m 2)))
                 (int_of (default "" (Re.group m 3)))
  else None.

(** *** [quopri.decodestring] and the UTF-8 decoding of its result *)

Definition hex_val (c : ascii) : option nat :=
  let n := Py.code c in
  if Py.between 48 57 n then Some (n - 48)
  else if Py.between 65 70 n then Some (n - 55)
  else if Py.between 97 102 n then Some (n - 87)
  else None.

Fixpoint skip_line (l : list ascii) : list ascii :=
  match l with
  | [] => []
  | c :: l' => if Ascii.eqb c (Py.chr 10) then l' else skip_line l'
  end.

(** [binascii.a2b_qp(data, header=False)]. *)
Fixpoint a2b_qp (fuel : nat) (l : list ascii) : list ascii :=
  match fuel with
  | O => []
  | S fuel' =>
    match l with
    | [] => []
    | "="%char :: [] => []
    | "="%char :: ((c :: l2) as l1) =>
      if Ascii.eqb c (Py.chr 10) || Ascii.eqb c (Py.chr 13)
      then a2b_qp fuel' (skip_line l1)
      else if Ascii.eqb c "=" then "="%char :: a2b_qp fuel' l2
      else
        match hex_val c, l2 with
        | Some h, c2 :: l3 =>
          match hex_val c2 with
          | Some h2 => Py.chr (16 * h + h2) :: a2b_qp fuel' l3
          | None => "="%char :: a2b_qp fuel' l1
          end
        | _, _ => "="%char :: a2b_qp fuel' l1
        end
    | c :: l' => c :: a2b_qp fuel' l'
    end
  end.

(** [bytes.decode("utf-8", "ignore")], for ASCII and the two-byte
    sequences of the code points below 256; other bytes are dropped. *)
Fixpoint utf8_decode (l : list ascii) : list ascii :=
  match l with
  | [] => []
  | c :: l' =>
    let n := Py.code c in
    if Nat.ltb n 128 then c :: utf8_decode l'
    else
      match l' with
      | c2 :: l2 =>
        if Py.between 194 195 n && Py.between 128 191 (Py.code c2)
        then Py.chr (64 * (n - 192) + (Py.code c2 - 128)) :: utf8_decode l2
        else utf8_decode l'
      | [] => []
      end
  end.

(** [a2b_qp] refuses a [str] with a character that is not ASCII. *)
Definition quopri_decodestring (text : string) : option string :=
  let l := Py.chars text in
  if forallb (fun c => Nat.ltb (Py.code c) 128) l
  then Some (Py.str (utf8_decode (a2b_qp (S (length l)) l)))
  else None.

(** *** [html.unescape], a few named references only *)

Definition html_unescape (text : string) : string :=
  Py.replace "&amp;" "&"
    (Py.replace "&nbsp;" Py.NBSP
       (Py.replace "&quot;" (String (Py.chr 34) EmptyString)
          (Py.replace "&gt;" ">" (Py.replace "&lt;" "<" text)))).

(** *** [email.utils.parseaddr], for [name <address>] and bare addresses *)

Definition parseaddr (text : string) : string * string :=
  match Re.search (Re.compile "([^<>]*)<([^<>]*)>") text with
  | Some m =>
    (Py.strip (default "" (Re.group m 1)), Py.strip (default "" (Re.group m 2)))
  | None => (EmptyString, Py.strip text)
  end.

Definition runtime (utc_today local_today : PyDate.date) : Runtime :=
  Build_Runtime html_unescape quopri_decodestring parseaddr strptime
    fromisoformat utc_today local_today.

End Reference.

(** * [const.py] *)

Module Const.
Definition DEFAULT_MAX_MESSAGES : Z := 100.
Definition DEFAULT_SNIPPET_LENGTH : nat := 240.
End Const.

(** * The email and bill dictionaries *)

(** The value under ["id"]: nothing, a message id or a mailbox uid. *)
Inductive ident :=
| IdNone
| IdStr (s : string)
| IdInt (n : Z).

(** Truth value of an identifier, as [if identifier] tests it. *)
Definition ident_truthy (i : ident) : bool :=
  match i with
  | IdNone => false
  | IdStr s => Py.truthy s
  | IdInt n => negb (n =? 0)%Z
  end.

Global Instance ident_eq_dec : EqDecision ident.
Proof. solve_decision. Defined.

Global Instance ident_countable : Countable ident.
Proof.
  refine (inj_countable'
    (fun i => match i with
              | IdNone => inl ()
              | IdStr s => inr (inl s)
              | IdInt n => inr (inr n)
              end)
    (fun x => match x with
              | inl () => IdNone
              | inr (inl s) => IdStr s
              | inr (inr n) => IdInt n
              end) _).
  by intros [].
Defined.

(** The dictionary [_fetch_emails] builds for one message. *)
Module Email.
Record t := {
  uid : option Z;
  message_id : option string;
  from_ : option string;
  from_address : option string;
  subject : option string;
  body : option string;
  date : option string
}.

(** [email.get("message_id") or email.get("uid")]. *)
Definition message_id_or_uid (email : t) : ident :=
  match message_id email with
  | Some s => if Py.truthy s then IdStr s else
                match uid email with Some n => IdInt n | None => IdNone end
  | None => match uid email with Some n => IdInt n | None => IdNone end
  end.
End Email.

(** The dictionary an extractor returns.  [provider] is [None] only for a
    dictionary without that key; the optional keys ["from"],
    ["service_address"], ["customer_name"] are [None] when not set. *)
Module Bill.
Record t := {
  id : ident;
  provider : option string;
  subject : string;
  received : option string;
  amount_due : option string;
  amount_due_value : option PyFloat.float;
  due_date : option string;
  due_date_iso : option string;
  status : string;
  snippet : string;
  from_address : option string;
  account_number : option string;
  billing_date : option string;
  billing_date_iso : option string;
  service_address : option string;
  customer_name : option string;
  from_ : option string
}.
End Bill.

(** [x if x else None] for the keys that are set only when truthy. *)
Definition if_truthy (o : option string) : option string :=
  if Py.otruthy o then o else None.

(** * [parsers/duke_energy.py] *)

Module DukeEnergy.
Section Parser.
Context `{Runtime}.

Definition ACCOUNT_RE := Re.compile_i "Account\s+Number:\s*([0-9\-]+)".
Definition BILLING_DATE_RE :=
  Re.compile_i "Billing\s+Date:\s*([A-Za-z0-9.,\-/ ]+)".
Definition DUE_DATE_RE := Re.compile_i "Due\s+Date:\s*([A-Za-z0-9.,\-/ ]+)".
Definition AMOUNT_DUE_RE :=
  Re.compile_i "Amount\s+Due:\s*\$?([0-9,]+(?:\.[0-9]{2})?)".
Definition MONTH_NAME_PATTERN : string :=
  "(?:Jan(?:uary)?|Feb(?:ruary)?|Mar(?:ch)?|Apr(?:il)?|"
  +:+ "May|Jun(?:e)?|Jul(?:y)?|Aug(?:ust)?|Sep(?:t(?:ember)?)?|"
  +:+ "Oct(?:ober)?|Nov(?:ember)?|Dec(?:ember)?)".
Definition DATE_FINDER_RE :=
  Re.compile_i
    ("(" +:+ MONTH_NAME_PATTERN
     +:+ "\.?\s+\d{1,2},?\s+\d{4}|\d{1,2}[/-]\d{1,2}[/-]\d{2,4})").

Definition _normalize (value : string) : string :=
  if negb (Py.truthy value) then ""
  else
    let text := value in
    let text :=
      match quopri_decodestring text with
      | Some decoded => decoded
      | None => text
      end in
    let text := html_unescape text in
    let text :=
      Re.sub (Re.compile_i
                "</?(tr|p|div|li|table|tbody|thead|section|article)[^>]*>")
        Py.LF text in
    let text := Re.sub (Re.compile_i "</?(td|th)[^>]*>") Py.LF text in
    let text := Re.sub (Re.compile_i "<br\s*/?>") Py.LF text in
    let text := Re.sub (Re.compile "<[^>]+>") " " text in
    let text := Py.replace Py.NBSP " " text in
    let text := Py.replace Py.CR " " text in
    let text := Py.replace Py.LF " " text in
    let text := Re.sub (Re.compile "\s+") " " text in
    Py.strip text.

(** Every pattern it is called with has a first group on each of its
    branches, so [match.group(1)] is a string. *)
Definition _search_group (pattern : Re.pattern) (text : string)
  : option string :=
  match Re.search pattern text with
  | Some m =>
    let value := Py.strip (default "" (Re.group m 1)) in
    Py.or_none value
  | None => None
  end.

Definition _parse_amount (value : option string)
  : option string * option PyFloat.float :=
  match value with
  | None => (None, None)
  | Some value =>
    if negb (Py.truthy value) then (None, None)
    else
      let normalized := Py.replace "," "" value in
      let amount := PyFloat.of_str normalized in
      let display := value in
      let display :=
        if negb (Py.startswith display "$") then "$" +:+ display
        else display in
      (Some display, amount)
  end.

Definition date_formats : list string :=
  ["%B %d, %Y"; "%b %d, %Y"; "%B %d %Y"; "%b %d %Y";
   "%m/%d/%Y"; "%m/%d/%y"; "%m-%d-%Y"; "%m-%d-%y"].

(** The loop over the formats: the first one [strptime] accepts. *)
Fixpoint first_format (cleaned : string) (fmts : list string)
  : option string :=
  match fmts with
  | [] => None
  | fmt :: fmts' =>
    match strptime cleaned fmt with
    | Some d => Some (PyDate.isoformat d)
    | None => first_format cleaned fmts'
    end
  end.

Definition _parse_date_iso (value : option string) : option string :=
  match value with
  | None => None
  | Some value =>
    if negb (Py.truthy value) then None
    else
      let cleaned :=
        Py.replace "." ""
          (Py.replace Py.NBSP " "
             (Py.replace Py.CR " " (Py.replace Py.LF " " value))) in
      let cleaned := Py.strip (Re.sub (Re.compile "\s+") " " cleaned) in
      first_format cleaned date_formats
  end.

Definition _extract_first_date (value : option string) : option string :=
  match value with
  | None => None
  | Some value =>
    if negb (Py.truthy value) then None
    else
      match Re.search DATE_FINDER_RE value with
      | Some m => Some (Py.strip (default "" (Re.group m 1)))
      | None =>
        let cleaned := Py.strip value in
        Py.or_none cleaned
      end
  end.

Definition _derive_status (due_iso : option string) : string :=
  match due_iso with
  | None => "due"
  | Some due_iso =>
    if negb (Py.truthy due_iso) then "due"
    else
      match fromisoformat due_iso with
      | None => "due"
      | Some due_date =>
        let today := utcnow_date in
        if PyDate.ltb due_date today then "overdue" else "due"
      end
  end.

Definition parse_duke_energy (email : Email.t) : option Bill.t :=
  let subject := Py.strip (Py.or_empty (Email.subject email)) in
  let body := Py.or_empty (Email.body email) in
  let normalized := _normalize body in
  let combined := Py.lower (subject +:+ " " +:+ normalized) in
  if negb (Py.contains "duke energy" combined) then None
  else
    let account_number := _search_group ACCOUNT_RE normalized in
    let '(amount_display, amount_value) :=
      _parse_amount (_search_group AMOUNT_DUE_RE normalized) in
    let billing_display :=
      _extract_first_date (_search_group BILLING_DATE_RE normalized) in
    let billing_iso := _parse_date_iso billing_display in
    let due_display :=
      _extract_first_date (_search_group DUE_DATE_RE normalized) in
    let due_iso := _parse_date_iso due_display in
    if negb (Py.otruthy account_number || Py.otruthy amount_display
             || Py.otruthy due_display || Py.otruthy billing_display)
    then None
    else
      let status := _derive_status due_iso in
      let snippet_source :=
        Py.slice_to Const.DEFAULT_SNIPPET_LENGTH normalized in
      Some {|
        Bill.id := Email.message_id_or_uid email;
        Bill.provider := Some "Duke Energy";
        Bill.subject := subject;
        Bill.received := Email.date email;
        Bill.amount_due := amount_display;
        Bill.amount_due_value := amount_value;
        Bill.due_date := due_display;
        Bill.due_date_iso := due_iso;
        Bill.status := status;
        Bill.snippet := snippet_source;
        Bill.from_address := Email.from_address email;
        Bill.account_number := account_number;
        Bill.billing_date := billing_display;
        Bill.billing_date_iso := billing_iso;
        Bill.service_address := None;
        Bill.customer_name := None;
        Bill.from_ := if_truthy (Email.from_ email)
      |}.

End Parser.
End DukeEnergy.

(** * [parsers/psnc_energy.py] *)

Module PsncEnergy.
Section Parser.
Context `{Runtime}.

Definition ACCOUNT_RE :=
  Re.compile_i "Account\s+Ending\s+In:\s*([A-Za-z0-9*]+)".
Definition AMOUNT_DRAFT_RE :=
  Re.compile_i "Amount\s+to\s+Be\s+Drafted:\s*\$?([0-9,]+(?:\.[0-9]{2})?)".
Definition BANK_DRAFT_DATE_RE :=
  Re.compile_i "Date\s+of\s+Bank\s+Draft:\s*([A-Za-z0-9.,\-/ ]+)".
Definition SERVICE_ADDRESS_RE :=
  Re.compile_i "Service\s+Address:\s*([A-Za-z0-9.,#*\- ]+)".

Definition IDENTIFIERS : list string :=
  ["psnc energy"; "messages.psncenergy.com"; "dominion energy";
   "enbridge gas"; "dominionenergync.com"].

Definition _normalize (value : string) : string :=
  if negb (Py.truthy value) then ""
  else
    let text := value in
    let text :=
      match quopri_decodestring text with
      | Some decoded => decoded
      | None => text
      end in
    let text := html_unescape text in
    let text := Py.replace Py.CR Py.LF text in
    let text := Re.sub (Re.compile_i "<br\s*/?>") Py.LF text in
    let text := Re.sub (Re.compile "<[^>]+>") " " text in
    let text := Re.sub (Re.compile "[ \t]+\n") Py.LF text in
    let text := Py.replace Py.NBSP " " text in
    let text := Re.sub (Re.compile "\n+") Py.LF text in
    let text := Re.sub (Re.compile "[ \t]+") " " text in
    Py.strip text.

Definition _search_group (pattern : Re.pattern) (text : string)
  : option string :=
  match Re.search pattern text with
  | Some m =>
    let value := Py.strip (default "" (Re.group m 1)) in
    Py.or_none value
  | None => None
  end.

Definition _parse_amount (value : option string)
  : option string * option PyFloat.float :=
  match value with
  | None => (None, None)
  | Some value =>
    if negb (Py.truthy value) then (None, None)
    else
      let normalized := Py.replace "," "" value in
      let amount := PyFloat.of_str normalized in
      let display := value in
      let display :=
        if negb (Py.startswith display "$") then "$" +:+ display
        else display in
      (Some display, amount)
  end.

Definition _extract_first_date (value : option string) : option string :=
  match value with
  | None => None
  | Some value =>
    if negb (Py.truthy value) then None
    else
      let date_match :=
        Re.search
          (Re.compile_i
             ("((?:Jan|Feb|Mar|Apr|May|Jun|Jul|Aug|Sep|Oct|Nov|Dec)[a-z]*\.?\s+\d{1,2},?\s+\d{4}"
              +:+ "|\d{1,2}[/-]\d{1,2}[/-]\d{2,4})"))
          value in
      match date_match with
      | Some m => Some (Py.strip (default "" (Re.group m 1)))
      | None =>
        let cleaned := Py.strip value in
        Py.or_none cleaned
      end
  end.

Definition date_formats : list string :=
  ["%B %d, %Y"; "%b %d, %Y"; "%B %d %Y"; "%b %d %Y";
   "%m/%d/%Y"; "%m/%d/%y"; "%m-%d-%Y"; "%m-%d-%y"].

Fixpoint first_format (cleaned : string) (fmts : list string)
  : option string :=
  match fmts with
  | [] => None
  | fmt :: fmts' =>
    match strptime cleaned fmt with
    | Some d => Some (PyDate.isoformat d)
    | None => first_format cleaned fmts'
    end
  end.

Definition _parse_date_iso (value : option string) : option string :=
  match value with
  | None => None
  | Some value =>
    if negb (Py.truthy value) then None
    else
      let cleaned :=
        Py.replace "." ""
          (Py.replace Py.NBSP " "
             (Py.replace Py.CR " " (Py.replace Py.LF " " value))) in
      let cleaned := Py.strip (Re.sub (Re.compile "\s+") " " cleaned) in
      first_format cleaned date_formats
  end.

Definition _derive_status (due_iso : option string) : string :=
  match due_iso with
  | None => "due"
  | Some due_iso =>
    if negb (Py.truthy due_iso) then "due"
    else
      match fromisoformat due_iso with
      | None => "due"
      | Some due_date =>
        let today := utcnow_date in
        if PyDate.ltb due_date today then "overdue" else "due"
      end
  end.

Definition _normalize_account (value : option string) : option string :=
  match value with
  | None => None
  | Some value =>
    if negb (Py.truthy value) then None
    else
      let cleaned := Py.replace " " "" value in
      let cleaned := Re.sub (Re.compile "[^0-9*]") "" cleaned in
      Py.or_none cleaned
  end.

Definition parse_psnc_energy (email : Email.t) : option Bill.t :=
  let subject := Py.strip (Py.or_empty (Email.subject email)) in
  let body := Py.or_empty (Email.body email) in
  let normalized := _normalize body in
  let combined := Py.lower (subject +:+ " " +:+ normalized) in
  if negb (existsb (fun identifier => Py.contains identifier combined)
             IDENTIFIERS)
  then None
  else
    let account_raw := _search_group ACCOUNT_RE normalized in
    let account_number := _normalize_account account_raw in
    let '(amount_display, amount_value) :=
      _parse_amount (_search_group AMOUNT_DRAFT_RE normalized) in
    let draft_display := _search_group BANK_DRAFT_DATE_RE normalized in
    let draft_display := _extract_first_date draft_display in
    let draft_iso := _parse_date_iso draft_display in
    let service_address := _search_group SERVICE_ADDRESS_RE normalized in
    if negb (Py.otruthy account_number || Py.otruthy amount_display
             || Py.otruthy draft_display)
    then None
    else
      let status := _derive_status draft_iso in
      Some {|
        Bill.id := Email.message_id_or_uid email;
        Bill.provider := Some "PSNC Energy";
        Bill.subject := subject;
        Bill.received := Email.date email;
        Bill.amount_due := amount_display;
        Bill.amount_due_value := amount_value;
        Bill.due_date := draft_display;
        Bill.due_date_iso := draft_iso;
        Bill.status := status;
        Bill.snippet := Py.slice_to Const.DEFAULT_SNIPPET_LENGTH normalized;
        Bill.from_address := Email.from_address email;
        Bill.account_number := account_number;
        Bill.billing_date := None;
        Bill.billing_date_iso := None;
        Bill.service_address := if_truthy service_address;
        Bill.customer_name := None;
        Bill.from_ := if_truthy (Email.from_ email)
      |}.

End Parser.
End PsncEnergy.

(** * [parsers/raleigh_water.py] *)

Module RaleighWater.
Section Parser.
Context `{Runtime}.

Definition ACCOUNT_RE := Re.compile_i "Account:\s*([0-9\-]+)".
Definition AMOUNT_DUE_RE :=
  Re.compile_i "Amount\s+Due:\s*\$?([0-9,]+(?:\.[0-9]{2})?)".
Definition DUE_DATE_RE := Re.compile_i "Due\s+Date:\s*([A-Za-z0-9.,\-/ ]+)".
Definition CUSTOMER_RE := Re.compile_i "Customer\s+Name:\s*([A-Za-z ,.'-]+)".
Definition SERVICE_ADDRESS_RE :=
  Re.compile_i "Service\s+Address:\s*([A-Za-z0-9.,#' \-]+)".
Definition FORWARDED_SENDER_RE :=
  Re.compile_i "From:\s*(?:<)?([^\s>]+@raleighnc\.gov)(?:>)?".

Definition _normalize (value : string) : string :=
  if negb (Py.truthy value) then ""
  else
    let text := value in
    let text :=
      match quopri_decodestring text with
      | Some decoded => decoded
      | None => text
      end in
    let text := html_unescape text in
    let text :=
      Re.sub (Re.compile_i
                "</?(tr|p|div|li|table|tbody|thead|section|article)[^>]*>")
        Py.LF text in
    let text := Re.sub (Re.compile_i "</?(td|th)[^>]*>") Py.LF text in
    let text := Re.sub (Re.compile_i "<br\s*/?>") Py.LF text in
    let text := Re.sub (Re.compile "<[^>]+>") " " text in
    let text := Py.replace Py.NBSP " " text in
    let text := Py.replace Py.CR " " text in
    let text := Py.replace Py.LF " " text in
    let text := Re.sub (Re.compile "\s+") " " text in
    Py.strip text.

Definition _search_group (pattern : Re.pattern) (text : string)
  : option string :=
  match Re.search pattern text with
  | Some m =>
    let value := Py.strip (default "" (Re.group m 1)) in
    Py.or_none value
  | None => None
  end.

Definition _parse_amount (value : option string)
  : option string * option PyFloat.float :=
  match value with
  | None => (None, None)
  | Some value =>
    if negb (Py.truthy value) then (None, None)
    else
      let normalized := Py.replace "," "" value in
      let amount := PyFloat.of_str normalized in
      let display := value in
      let display :=
        if negb (Py.startswith display "$") then "$" +:+ display
        else display in
      (Some display, amount)
  end.

Definition date_formats : list string :=
  ["%B %d, %Y"; "%b %d, %Y"; "%B %d %Y"; "%b %d %Y";
   "%m/%d/%Y"; "%m/%d/%y"; "%m-%d-%Y"; "%m-%d-%y"].

Fixpoint first_format (cleaned : string) (fmts : list string)
  : option string :=
  match fmts with
  | [] => None
  | fmt :: fmts' =>
    match strptime cleaned fmt with
    | Some d => Some (PyDate.isoformat d)
    | None => first_format cleaned fmts'
    end
  end.

Definition _parse_date_iso (value : option string) : option string :=
  match value with
  | None => None
  | Some value =>
    if negb (Py.truthy value) then None
    else
      let cleaned :=
        Py.replace "." ""
          (Py.replace Py.NBSP " "
             (Py.replace Py.CR " " (Py.replace Py.LF " " value))) in
      let cleaned := Py.strip (Re.sub (Re.compile "\s+") " " cleaned) in
      first_format cleaned date_formats
  end.

Definition _extract_first_date (value : option string) : option string :=
  match value with
  | None => None
  | Some value =>
    if negb (Py.truthy value) then None
    else
      let date_match :=
        Re.search
          (Re.compile_i
             ("(?:\b(?:Jan(?:uary)?|Feb(?:ruary)?|Mar(?:ch)?|Apr(?:il)?|"
              +:+ "May|Jun(?:e)?|Jul(?:y)?|Aug(?:ust)?|Sep(?:t(?:ember)?)?|"
              +:+ "Oct(?:ober)?|Nov(?:ember)?|Dec(?:ember)?)\.?\s+\d{1,2},?\s+\d{4})"
              +:+ "|(?:\d{1,2}[/-]\d{1,2}[/-]\d{2,4})"))
          value in
      match date_match with
      | Some m => Some (Py.strip (default "" (Re.group m 0)))
      | None => Py.or_none (Py.strip value)
      end
  end.

Definition _derive_status (due_iso : option string) : string :=
  match due_iso with
  | None => "due"
  | Some due_iso =>
    if negb (Py.truthy due_iso) then "due"
    else
      match fromisoformat due_iso with
      | None => "due"
      | Some due_date =>
        let today := utcnow_date in
        if PyDate.ltb due_date today then "overdue" else "due"
      end
  end.

Definition _extract_forwarded_sender (text : string) : option string :=
  match Re.search FORWARDED_SENDER_RE text with
  | Some m => Some (Py.strip (default "" (Re.group m 1)))
  | None => None
  end.

Definition parse_raleigh_water (email : Email.t) : option Bill.t :=
  let subject := Py.strip (Py.or_empty (Email.subject email)) in
  let body := Py.or_empty (Email.body email) in
  let normalized := _normalize body in
  let combined := Py.lower (subject +:+ " " +:+ normalized) in
  if negb (Py.contains "raleigh" combined)
     || negb (Py.contains "utility bill" combined)
  then None
  else
    let account_number := _search_group ACCOUNT_RE normalized in
    let '(amount_display, amount_value) :=
      _parse_amount (_search_group AMOUNT_DUE_RE normalized) in
    let due_display :=
      _extract_first_date (_search_group DUE_DATE_RE normalized) in
    let due_iso := _parse_date_iso due_display in
    let customer_name := _search_group CUSTOMER_RE normalized in
    let service_address := _search_group SERVICE_ADDRESS_RE normalized in
    if negb (Py.otruthy account_number || Py.otruthy amount_display
             || Py.otruthy due_display)
    then None
    else
      let status := _derive_status due_iso in
      let forwarded_address := _extract_forwarded_sender normalized in
      let from_address :=
        if Py.otruthy forwarded_address then forwarded_address
        else Email.from_address email in
      let from_display := Email.from_ email in
      let from_display :=
        if Py.otruthy forwarded_address then Some "Raleigh Water"
        else from_display in
      Some {|
        Bill.id := Email.message_id_or_uid email;
        Bill.provider := Some "City of Raleigh Water";
        Bill.subject := subject;
        Bill.received := Email.date email;
        Bill.amount_due := amount_display;
        Bill.amount_due_value := amount_value;
        Bill.due_date := due_display;
        Bill.due_date_iso := due_iso;
        Bill.status := status;
        Bill.snippet := Py.slice_to Const.DEFAULT_SNIPPET_LENGTH normalized;
        Bill.from_address := if_truthy from_address;
        Bill.account_number := account_number;
        Bill.billing_date := None;
        Bill.billing_date_iso := None;
        Bill.service_address := if_truthy service_address;
        Bill.customer_name := if_truthy customer_name;
        Bill.from_ := if_truthy from_display
      |}.

End Parser.
End RaleighWater.

(** * [parsers/generic.py] *)

Module Generic.
Section Parser.
Context `{Runtime}.

Definition DATE_WORD_REGEX :=
  Re.compile_i
    ("\b(January|February|March|April|May|June|July|August|September|October|November|December|"
     +:+ "Jan|Feb|Mar|Apr|Jun|Jul|Aug|Sept|Oct|Nov|Dec)\s+\d{1,2}(?:,\s*\d{2,4})?").
Definition DATE_NUMERIC_REGEX :=
  Re.compile "\b\d{1,2}[/-]\d{1,2}[/-]\d{2,4}\b".

Definition AMOUNT_HINT_REGEX :=
  Re.compile_i
    ("(amount(?:\s+due|\s+owed|\s+payable)?|total(?:\s+due)?|balance(?:\s+due)?|payment)"
     +:+ "[^\n\r]{0,32}\$?\s*([0-9]{1,3}(?:,[0-9]{3})*(?:\.[0-9]{2})?|[0-9]+(?:\.[0-9]{2})?)").
Definition AMOUNT_LOOSE_REGEX :=
  Re.compile "\$\s*([0-9]{1,3}(?:,[0-9]{3})*(?:\.[0-9]{2})?|[0-9]+(?:\.[0-9]{2})?)".

(** The dictionary's items, in insertion order. *)
Definition STATUS_HINTS : list (string * string) :=
  [("past due", "overdue"); ("overdue", "overdue"); ("late fee", "overdue");
   ("paid", "paid"); ("payment received", "paid")].

Definition UTILITY_KEYWORDS : list string :=
  ["bill"; "statement"; "payment"; "due"; "utility"; "electric"; "gas";
   "water"; "sewer"; "trash"; "invoice"].

Definition _derive_provider (email : Email.t) : string :=
  let from_display := Py.strip (Py.or_empty (Email.from_ email)) in
  let from_address := Py.strip (Py.or_empty (Email.from_address email)) in
  let '(from_display, from_address) :=
    if negb (Py.truthy from_display) && Py.truthy from_address then
      let parsed := parseaddr from_address in
      if Py.truthy (fst parsed) then (fst parsed, from_address)
      else (from_display, snd parsed)
    else (from_display, from_address) in
  let '(from_display, from_address) :=
    if negb (Py.truthy from_address) && Py.truthy from_display then
      let parsed := parseaddr from_display in
      let from_address :=
        if Py.truthy (snd parsed) then snd parsed else from_address in
      let from_display :=
        if Py.truthy (fst parsed) then fst parsed else from_display in
      (from_display, from_address)
    else (from_display, from_address) in
  if Py.truthy from_display then from_display
  else if Py.truthy from_address then
    let domain := List.last (Py.split "@" from_address) "" in
    let provider := List.hd "" (Py.split "." domain) in
    Py.title (Py.replace "_" " " (Py.replace "-" " " provider))
  else "Unknown".

Definition _extract_amount (body : string)
  : option string * option PyFloat.float :=
  let m := Re.search AMOUNT_HINT_REGEX body in
  let m := match m with None => Re.search AMOUNT_LOOSE_REGEX body | _ => m end in
  match m with
  | None => (None, None)
  | Some m =>
    let amount_str :=
      if Nat.leb 2 (Re.m_ngroups m) then Re.group m 2 else Re.group m 1 in
    match amount_str with
    | None => (None, None)
    | Some amount_str =>
      let normalized := Py.strip (Py.replace "," "" amount_str) in
      let value := PyFloat.of_str normalized in
      let display := Py.strip amount_str in
      let display :=
        if negb (Py.startswith display "$") then "$" +:+ display
        else display in
      (Some display, value)
    end
  end.

Definition date_formats : list string :=
  ["%B %d, %Y"; "%b %d, %Y"; "%B %d %Y"; "%b %d %Y";
   "%m/%d/%Y"; "%m/%d/%y"; "%m-%d-%Y"; "%m-%d-%y"].

Fixpoint first_format (cleaned : string) (fmts : list string)
  : option string :=
  match fmts with
  | [] => None
  | fmt :: fmts' =>
    match strptime cleaned fmt with
    | Some parsed => Some (PyDate.isoformat parsed)
    | None => first_format cleaned fmts'
    end
  end.

Definition _parse_date_iso (date_str : string) : option string :=
  let cleaned :=
    Py.strip
      (Py.replace "  " " "
         (Py.replace Py.CR " " (Py.replace Py.LF " " date_str))) in
  first_format cleaned date_formats.

Definition _extract_due_date (text : string)
  : option string * option string :=
  let m := Re.search DATE_WORD_REGEX text in
  let m := match m with None => Re.search DATE_NUMERIC_REGEX text | _ => m end in
  match m with
  | None => (None, None)
  | Some m =>
    let date_str := default "" (Re.group m 0) in
    let iso_date := _parse_date_iso date_str in
    (Some date_str, iso_date)
  end.

(** The loop over [STATUS_HINTS.items()]: the status of the first phrase
    found in the text. *)
Fixpoint first_hint (text : string) (hints : list (string * string))
  : option string :=
  match hints with
  | [] => None
  | (phrase, status) :: hints' =>
    if Py.contains phrase text then Some status else first_hint text hints'
  end.

Definition _determine_status (text : string) (due_date_iso : option string)
  : string :=
  match first_hint text STATUS_HINTS with
  | Some status => status
  | None =>
    match due_date_iso with
    | Some iso =>
      if Py.truthy iso then
        match fromisoformat iso with
        | Some due_date =>
          if PyDate.ltb due_date now_date then "overdue" else "due"
        | None => "due"
        end
      else "due"
    | None => "due"
    end
  end.

Definition parse_generic_email (email : Email.t) : option Bill.t :=
  let subject := Py.strip (Py.or_empty (Email.subject email)) in
  let body := Py.strip (Py.or_empty (Email.body email)) in
  let combined_raw := subject +:+ Py.LF +:+ body in
  let combined_text := Py.lower combined_raw in
  if negb (Py.truthy subject) && negb (Py.truthy body) then None
  else if negb (existsb (fun keyword => Py.contains keyword combined_text)
                  UTILITY_KEYWORDS)
  then None
  else
    let provider := _derive_provider email in
    let '(amount_display, amount_value) := _extract_amount body in
    let '(due_date_display, due_date_iso) := _extract_due_date combined_raw in
    let status := _determine_status combined_text due_date_iso in
    let snippet :=
      Py.replace Py.CR " " (Py.slice_to Const.DEFAULT_SNIPPET_LENGTH body) in
    Some {|
      Bill.id := Email.message_id_or_uid email;
      Bill.provider := Some provider;
      Bill.subject := subject;
      Bill.received := Email.date email;
      Bill.amount_due := amount_display;
      Bill.amount_due_value := amount_value;
      Bill.due_date := due_date_display;
      Bill.due_date_iso := due_date_iso;
      Bill.status := status;
      Bill.snippet := snippet;
      Bill.from_address := Email.from_address email;
      Bill.account_number := None;
      Bill.billing_date := None;
      Bill.billing_date_iso := None;
      Bill.service_address := None;
      Bill.customer_name := None;
      Bill.from_ := None
    |}.

End Parser.
End Generic.

(** * [parsers/__init__.py]: the dispatcher *)

Module Parsers.

(** What a parser hands back: [None], one bill, a list of bills, or
    something else. *)
Inductive payload :=
| PNone
| PDict (bill : Bill.t)
| PList (bills : list Bill.t)
| POther (truth : bool).

(** A call either returns or raises an [Exception]. *)
Inductive result (A : Type) :=
| Ok (a : A)
| Raise (err : string).
Arguments Ok {A} a.
Arguments Raise {A} err.

Definition bind {A B} (r : result A) (f : A → result B) : result B :=
  match r with
  | Ok a => f a
  | Raise err => Raise err
  end.

(** [try: body  except Exception as err: handler(err)]. *)
Definition try_except {A} (body : result A) (handler : string → result A)
  : result A :=
  match body with
  | Ok a => Ok a
  | Raise err => handler err
  end.

Notation "x ←! r ; k" := (bind r (fun x => k))
  (at level 20, r at level 100, k at level 200, right associativity,
   only parsing).

Definition parser := Email.t → result payload.

(** Truth value of a payload. *)
Definition payload_truthy (p : payload) : bool :=
  match p with
  | PNone => false
  | PDict _ => true
  | PList l => match l with [] => false | _ :: _ => true end
  | POther truth => truth
  end.

(** The body of the inner loop: one parser on one email.  [None] in the
    [try] stands for the [continue] of the handler. *)
Definition run_parser (bills : list Bill.t) (entry : string * parser)
  (email : Email.t) : result (list Bill.t) :=
  let '(parser_name, parser) := entry in
  parsed ←! try_except (parsed ←! parser email; Ok (Some parsed))
                       (fun err => Ok None);
  match parsed with
  | None => Ok bills
  | Some parsed =>
    if negb (payload_truthy parsed) then Ok bills
    else
      let parsed :=
        match parsed with PDict bill => PList [bill] | _ => parsed end in
      match parsed with
      | PList l => Ok (bills ++ l)
      | _ => Ok bills
      end
  end.

Fixpoint for_parsers (bills : list Bill.t) (parsers : list (string * parser))
  (email : Email.t) : result (list Bill.t) :=
  match parsers with
  | [] => Ok bills
  | entry :: parsers' =>
    bills' ←! run_parser bills entry email;
    for_parsers bills' parsers' email
  end.

Fixpoint for_emails (bills : list Bill.t) (parsers : list (string * parser))
  (emails : list Email.t) : result (list Bill.t) :=
  match emails with
  | [] => Ok bills
  | email :: emails' =>
    bills' ←! for_parsers bills parsers email;
    for_emails bills' parsers emails'
  end.

(** [extract_bills] for any registry. *)
Definition extract_bills_with (parsers : list (string * parser))
  (emails : list Email.t) : result (list Bill.t) :=
  for_emails [] parsers emails.

Section Registry.
Context `{Runtime}.

(** An extractor of this repository as a registry entry: it returns its
    bill or [None]. *)
Definition returning (f : Email.t → option Bill.t) : parser :=
  fun email =>
    Ok (match f email with Some bill => PDict bill | None => PNone end).

Definition PARSERS : list (string * parser) :=
  [("duke_energy", returning DukeEnergy.parse_duke_energy);
   ("psnc_energy", returning PsncEnergy.parse_psnc_energy)].

Definition extract_bills (emails : list Email.t) : result (list Bill.t) :=
  extract_bills_with PARSERS emails.

End Registry.
End Parsers.

(** * [list.sort(key=..., reverse=True)] and slices *)

Module PyList.

(** Insertion behind the elements with a larger key and before those with
    an equal or smaller one. *)
Fixpoint insert_desc {A} (key : A → string) (x : A) (l : list A) : list A :=
  match l with
  | [] => [x]
  | y :: l' =>
    if String.ltb (key x) (key y) then y :: insert_desc key x l'
    else x :: l
  end.

(** The list sorted by decreasing key, elements of equal key in their
    original order: what the stable [sort] with [reverse=True] leaves. *)
Fixpoint sort_reverse {A} (key : A → string) (l : list A) : list A :=
  match l with
  | [] => []
  | x :: l' => insert_desc key x (sort_reverse key l')
  end.

(** [l[:n]] for any integer [n]. *)
Definition slice_to {A} (n : Z) (l : list A) : list A :=
  if (0 <=? n)%Z then take (Z.to_nat n) l
  else take (Z.to_nat (Z.of_nat (length l) + n)) l.

End PyList.

(** * [coordinator.py]: the aggregation *)

Module Coordinator.

(** [self.options], as far as the aggregation reads it. *)
Record options := { max_messages : option Z }.

(** The summary dictionary. *)
Record summary := {
  by_provider : gmap string nat;
  total_amount_due : PyFloat.float;
  next_due_date : option string;
  overdue_count : nat
}.

(** One turn of the deduplication loop on [(seen, unique_bills)]. *)
Definition dedup_step (st : gset ident * list Bill.t) (bill : Bill.t)
  : gset ident * list Bill.t :=
  let '(seen, unique_bills) := st in
  let identifier := Bill.id bill in
  if ident_truthy identifier && bool_decide (identifier ∈ seen) then st
  else
    let seen :=
      if ident_truthy identifier then {[identifier]} ∪ seen else seen in
    (seen, unique_bills ++ [bill]).

(** [unique_bills] when the loop is over. *)
Definition deduplicate (bills : list Bill.t) : list Bill.t :=
  snd (fold_left dedup_step bills (∅, [])).

(** [item.get("received") or ""]. *)
Definition received_key (item : Bill.t) : string :=
  Py.or_empty (Bill.received item).

Definition _limit_bills (opts : options) (bills : list Bill.t)
  : list Bill.t :=
  match bills with
  | [] => []
  | _ :: _ =>
    let unique_bills := deduplicate bills in
    let unique_bills := PyList.sort_reverse received_key unique_bills in
    let max_messages :=
      default Const.DEFAULT_MAX_MESSAGES (max_messages opts) in
    if (Z.of_nat (length unique_bills) <=? max_messages)%Z then unique_bills
    else PyList.slice_to max_messages unique_bills
  end.

Section Summary.
Context `{Runtime}.

Definition _min_iso_date (existing : option string) (candidate : string)
  : string :=
  match existing with
  | None => candidate
  | Some existing =>
    if negb (Py.truthy existing) then candidate
    else
      match fromisoformat existing, fromisoformat candidate with
      | Some existing_date, Some candidate_date =>
        if PyDate.ltb candidate_date existing_date then candidate
        else existing
      | _, _ => existing
      end
  end.

(** The local variables of [_build_summary]. *)
Record acc := {
  a_by_provider : gmap string nat;
  a_total_amount : PyFloat.float;
  a_next_due : option string;
  a_overdue : nat
}.

(** One turn of the loop over the bills. *)
Definition summary_step (a : acc) (bill : Bill.t) : acc :=
  let provider := default "Unknown" (Bill.provider bill) in
  let by_provider :=
    <[provider := default 0 (a_by_provider a !! provider) + 1]>
      (a_by_provider a) in
  let total_amount :=
    match Bill.amount_due_value bill with
    | Some amount_value => PyFloat.add (a_total_amount a) amount_value
    | None => a_total_amount a
    end in
  let next_due :=
    match Bill.due_date_iso bill with
    | Some due_iso =>
      if Py.truthy due_iso then Some (_min_iso_date (a_next_due a) due_iso)
      else a_next_due a
    | None => a_next_due a
    end in
  let overdue :=
    if String.eqb (Bill.status bill) "overdue" then a_overdue a + 1
    else a_overdue a in
  {| a_by_provider := by_provider; a_total_amount := total_amount;
     a_next_due := next_due; a_overdue := overdue |}.

Definition _build_summary (bills : list Bill.t) : summary :=
  let a :=
    fold_left summary_step bills
      {| a_by_provider := ∅; a_total_amount := PyFloat.zero;
         a_next_due := None; a_overdue := 0 |} in
  {| by_provider := a_by_provider a;
     total_amount_due :=
       if PyFloat.truthy (a_total_amount a)
       then PyFloat.round (a_total_amount a) 2
       else PyFloat.zero;
     next_due_date := a_next_due a;
     overdue_count := a_overdue a |}.

End Summary.
End Coordinator.


(** * [coordinator.py]: the refresh and its helpers *)

Module CoordinatorUpdate.

(** An element of the list [mailparser] gives for the [From] header: a
    pair of display name and address, or anything else, of which only the
    text [str(item)] is read. *)
Inductive from_item :=
| FromPair (display address : option string)
| FromOther (text : string).

Section Helpers.
Context `{Runtime}.

(** [(x or "").strip() or None]. *)
Definition stripped_or_none (x : option string) : option string :=
  Py.or_none (Py.strip (Py.or_empty x)).

Definition _parse_from (from_list : list from_item)
  : option string * option string :=
  match from_list with
  | [] => (None, None)
  | item :: _ =>
    let '(display, address) :=
      match item with
      | FromPair display address => (display, address)
      | FromOther text =>
        let parsed := parseaddr text in (Some (fst parsed), Some (snd parsed))
      end in
    let display := stripped_or_none display in
    let address := stripped_or_none address in
    (display, address)
  end.

(** The dictionary a refresh returns. *)
Record data := {
  bills : list Bill.t;
  summary : Coordinator.summary;
  count : nat;
  last_update : string
}.

(** [_async_update_data]: [fetched] is what the executor job
    [_fetch_emails] came back with, [utcnow_iso] the reading
    [datetime.utcnow().isoformat()]; an exception of the body is raised
    again as [UpdateFailed] with its message behind a prefix. *)
Definition _async_update_data (opts : Coordinator.options)
  (fetched : Parsers.result (list Email.t)) (utcnow_iso : string)
  : Parsers.result data :=
  Parsers.try_except
    (Parsers.bind fetched (fun emails =>
     Parsers.bind (Parsers.extract_bills emails) (fun bills =>
     let limited_bills := Coordinator._limit_bills opts bills in
     let summary := Coordinator._build_summary limited_bills in
     Parsers.Ok {| bills := limited_bills; summary := summary;
                   count := length limited_bills;
                   last_update := utcnow_iso |})))
    (fun err => Parsers.Raise ("Unable to refresh utility bills: " +:+ err)).

End Helpers.
End CoordinatorUpdate.

(** * [sensor.py]: what the entity shows *)

Module Sensor.

(** The attributes dictionary; [summary] is [None] for the empty
    dictionary, [last_update] for a missing key. *)
Record attributes := {
  attr_bills : list Bill.t;
  attr_summary : option Coordinator.summary;
  attr_count : nat;
  attr_last_update : option string
}.

(** [coordinator.data] is [None] until a refresh has succeeded. *)
Definition native_value (coordinator_data : option CoordinatorUpdate.data)
  : Z :=
  match coordinator_data with
  | None => 0
  | Some data => Z.of_nat (CoordinatorUpdate.count data)
  end.

Definition extra_state_attributes
  (coordinator_data : option CoordinatorUpdate.data) : attributes :=
  match coordinator_data with
  | None =>
    {| attr_bills := []; attr_summary := None; attr_count := 0;
       attr_last_update := None |}
  | Some data =>
    {| attr_bills := CoordinatorUpdate.bills data;
       attr_summary := Some (CoordinatorUpdate.summary data);
       attr_count := CoordinatorUpdate.count data;
       attr_last_update := Some (CoordinatorUpdate.last_update data) |}
  end.

End Sensor.

(** * Vocabulary of the statements *)

Section Vocabulary.
Context `{Runtime}.

(** The status of the structured extractors, as a function of the ISO date
    alone. *)
Definition status_of_due (today : PyDate.date) (due_iso : option string)
  : string :=
  match due_iso with
  | None => "due"
  | Some iso =>
    match fromisoformat iso with
    | Some d => if PyDate.ltb d today then "overdue" else "due"
    | None => "due"
    end
  end.

(** What the status claims say of one bill: a due date strictly before
    [today] makes it overdue, no due date makes it due. *)
Definition status_follows_due_date (today : PyDate.date) (b : Bill.t)
  : Prop :=
  (∀ iso d, Bill.due_date_iso b = Some iso → fromisoformat iso = Some d →
            PyDate.ltb d today = true →
            Bill.status b = "overdue" ∧ Bill.status b ≠ "due")
  ∧ (Bill.due_date_iso b = None → Bill.status b = "due").

End Vocabulary.

(** At least one of account number, amount, due date, billing date. *)
Definition has_extracted_fact (b : Bill.t) : bool :=
  Py.otruthy (Bill.account_number b) || Py.otruthy (Bill.amount_due b)
  || Py.otruthy (Bill.due_date b) || Py.otruthy (Bill.billing_date b).

(** The text [parse_generic_email] looks for keywords and hints in. *)
Definition generic_combined_text (email : Email.t) : string :=
  Py.lower (Py.strip (Py.or_empty (Email.subject email)) +:+ Py.LF
            +:+ Py.strip (Py.or_empty (Email.body email))).

(** * Sample inputs *)

Module Samples.

Definition today : PyDate.date :=
  {| PyDate.year := 2025; PyDate.month := 4; PyDate.day := 1 |}.

(** The reference runtime on the first of April 2025, UTC and local. *)
Definition runtime : Runtime := Reference.runtime today today.

Definition email (uid : Z) (message_id : option string)
  (subject body : string) (date : option string) : Email.t :=
  {| Email.uid := Some uid; Email.message_id := message_id;
     Email.from_ := None; Email.from_address := None;
     Email.subject := Some subject; Email.body := Some body;
     Email.date := date |}.

Definition duke_email : Email.t :=
  email 7 (Some "<m1@example.org>") "Your Duke Energy bill"
    ("<p>Account Number: 123-456</p><td>Amount Due:</td><td>$85.50</td>"
     +:+ " Due Date: March 3, 2025 Thank you for your payment")
    (Some "2025-02-20T10:00:00").

Definition psnc_email : Email.t :=
  email 8 None "PSNC Energy bank draft notice"
    ("Account Ending In: ***1234 Amount to Be Drafted: $1,234.56 "
     +:+ "Date of Bank Draft: 04/15/2025 Service Address: 12 Main St")
    (Some "2025-03-20T10:00:00").

Definition raleigh_email : Email.t :=
  email 9 None "City of Raleigh utility bill"
    "Account: 12-3 Amount Due: $40 Due Date: 5/1/25" None.

(** A keyword and nothing else. *)
Definition keyword_email : Email.t := email 10 None "water" "" None.

(** A paid bill whose due date has passed. *)
Definition paid_email : Email.t :=
  email 11 None "Bill paid" "Due 01/02/2020" None.

(** A reminder without any date. *)
Definition past_due_email : Email.t :=
  email 12 None "Your bill is past due" "" None.

End Samples.

(** * Vocabulary of the dispatcher statements *)

(** A parser call with its exception turned into a [None] result. *)
Definition call_quietly (r : Parsers.result Parsers.payload)
  : Parsers.result Parsers.payload :=
  Parsers.try_except r (fun _ => Parsers.Ok Parsers.PNone).

(** The registry entry whose failing calls return [None] instead. *)
Definition quiet (entry : string * Parsers.parser) : string * Parsers.parser :=
  (fst entry, fun email => call_quietly (snd entry email)).

(** Two registry entries that differ only in that a call raises for one and
    returns [None] for the other. *)
Definition same_up_to_failures (e1 e2 : string * Parsers.parser) : Prop :=
  ∀ email, call_quietly (snd e1 email) = call_quietly (snd e2 email).

(** The bills a payload contributes. *)
Definition payload_bills (p : Parsers.payload) : list Bill.t :=
  match p with
  | Parsers.PDict bill => [bill]
  | Parsers.PList bills => bills
  | _ => []
  end.

(** The bills one parser contributes for one email. *)
Definition yield (entry : string * Parsers.parser) (email : Email.t)
  : list Bill.t :=
  match snd entry email with
  | Parsers.Ok p => payload_bills p
  | Parsers.Raise _ => []
  end.

Module DispatchSamples.

Definition failing : Parsers.parser := fun _ => Parsers.Raise "boom".
Definition silent : Parsers.parser := fun _ => Parsers.Ok Parsers.PNone.

Definition with_failure : list (string * Parsers.parser) :=
  [("broken", failing);
   ("duke_energy",
    @Parsers.returning (@DukeEnergy.parse_duke_energy Samples.runtime))].

Definition without_failure : list (string * Parsers.parser) :=
  [("broken", silent);
   ("duke_energy",
    @Parsers.returning (@DukeEnergy.parse_duke_energy Samples.runtime))].

End DispatchSamples.

(** * Vocabulary of the aggregation statements *)

(** The deduplication loop as a recursion on the bills still to come. *)
Fixpoint dedup_from (seen : gset ident) (bills : list Bill.t) : list Bill.t :=
  match bills with
  | [] => []
  | bill :: bills' =>
    if ident_truthy (Bill.id bill) && bool_decide (Bill.id bill ∈ seen)
    then dedup_from seen bills'
    else
      bill :: dedup_from
                (if ident_truthy (Bill.id bill)
                 then {[Bill.id bill]} ∪ seen else seen) bills'
  end.

(** Decreasing order of the sort key. *)
Definition key_ge {A} (key : A → string) (a b : A) : Prop :=
  String.leb (key b) (key a) = true.

(** [received[i] >= received[i+1]], a missing value read as the empty
    string. *)
Definition received_ge (a b : Bill.t) : Prop :=
  String.leb (Coordinator.received_key b) (Coordinator.received_key a) = true.

(** No two bills share an identifier that counts as one. *)
Definition deduplicated (bills : list Bill.t) : Prop :=
  NoDup (filter (fun i => ident_truthy i = true) (Bill.id <$> bills)).

(** The configured maximum, or its default. *)
Definition max_of (opts : Coordinator.options) : Z :=
  default Const.DEFAULT_MAX_MESSAGES (Coordinator.max_messages opts).

Module BillSamples.

Definition bill (id : ident) (provider : string) (received : option string)
  (amount : option PyFloat.float) (due_iso : option string)
  (status : string) : Bill.t :=
  {| Bill.id := id; Bill.provider := Some provider; Bill.subject := "";
     Bill.received := received; Bill.amount_due := None;
     Bill.amount_due_value := amount; Bill.due_date := None;
     Bill.due_date_iso := due_iso; Bill.status := status;
     Bill.snippet := ""; Bill.from_address := None;
     Bill.account_number := None; Bill.billing_date := None;
     Bill.billing_date_iso := None; Bill.service_address := None;
     Bill.customer_name := None; Bill.from_ := None |}.

(** 85.5 and 1234.56 as floats. *)
Definition f85_50 : PyFloat.float := S754_finite false 6016527627190272 (-46).
Definition f1234_56 : PyFloat.float := S754_finite false 5429652300748554 (-42).

Definition march : Bill.t :=
  bill (IdStr "<m1>") "Duke Energy" (Some "2025-03-01T08:00:00")
    (Some f85_50) (Some "2025-03-20") "overdue".
Definition march_again : Bill.t :=
  bill (IdStr "<m1>") "Duke Energy" (Some "2025-03-02T08:00:00")
    (Some f85_50) (Some "2025-03-20") "overdue".
Definition april : Bill.t :=
  bill (IdInt 8) "PSNC Energy" (Some "2025-04-01T08:00:00")
    (Some f1234_56) (Some "2025-04-15") "due".
Definition undated : Bill.t :=
  bill IdNone "PSNC Energy" None None None "due".
Definition tie : Bill.t :=
  bill (IdInt 9) "Duke Energy" (Some "2025-03-01T08:00:00")
    None (Some "2025-03-20") "due".
Definition unparsable : Bill.t :=
  bill (IdInt 10) "Duke Energy" None None (Some "TBD") "due".

(** Two bills whose identifier is the empty string, two whose identifier
    is zero. *)
Definition empty_id_1 : Bill.t :=
  bill (IdStr "") "Duke Energy" (Some "2025-03-01") None None "due".
Definition empty_id_2 : Bill.t :=
  bill (IdStr "") "PSNC Energy" (Some "2025-03-02") None None "due".
Definition zero_id_1 : Bill.t :=
  bill (IdInt 0) "Duke Energy" (Some "2025-03-01") None None "due".
Definition zero_id_2 : Bill.t :=
  bill (IdInt 0) "PSNC Energy" (Some "2025-03-02") None None "due".

Definition opts (n : Z) : Coordinator.options :=
  {| Coordinator.max_messages := Some n |}.

End BillSamples.

(** * Vocabulary of the summary statements *)

(** [bill.get("provider", "Unknown")]. *)
Definition provider_of (b : Bill.t) : string :=
  default "Unknown" (Bill.provider b).

(** The number of bills of a provider. *)
Definition count_provider (p : string) (bills : list Bill.t) : nat :=
  length (filter (fun b => provider_of b = p) bills).

(** The numeric amounts, in the order of the bills. *)
Definition amounts (bills : list Bill.t) : list PyFloat.float :=
  omap Bill.amount_due_value bills.

(** The sum of floats, added from the left starting at [0.0]. *)
Definition float_sum (l : list PyFloat.float) : PyFloat.float :=
  fold_left PyFloat.add l PyFloat.zero.

(** The ISO due dates of the bills that have one, in the order of the
    bills. *)
Definition due_dates (bills : list Bill.t) : list string :=
  omap (fun b => if_truthy (Bill.due_date_iso b)) bills.

(** [result] is the earliest of the dates [dues] that parse, and among
    those of that date the first of the list. *)
Definition earliest_first `{Runtime} (dues : list string)
  (result : option string) : Prop :=
  ∃ i c d,
    dues !! i = Some c ∧ result = Some c ∧ fromisoformat c = Some d
    ∧ ∀ j c' d',
        dues !! j = Some c' → fromisoformat c' = Some d' →
        PyDate.ltb d' d = false ∧ (j < i → PyDate.ltb d d' = true).

(** The loop of [_build_summary] on the due dates alone. *)
Definition fold_min `{Runtime} (existing : option string) (dues : list string)
  : option string :=
  fold_left (fun e c => Some (Coordinator._min_iso_date e c)) dues existing.

(** * Vocabulary of the amount statements *)

(** The display string of an amount: a ["$"] in front unless there is
    one. *)
Definition with_dollar (v : string) : string :=
  if Py.startswith v "$" then v else "$" +:+ v.

(** [x] is a positive normal float within half a unit in its last place of
    the fraction [num / den]: the float that [num / den] denotes. *)
Definition float_of_fraction (x : PyFloat.float) (num den : Z) : Prop :=
  match x with
  | S754_finite false m e =>
    Zpos (digits2_pos m) = PyFloat.prec ∧ (e < 0)%Z
    ∧ (2 * Z.abs (Zpos m * den - num * 2 ^ (- e)) ≤ den)%Z
  | _ => False
  end.


(** * Vocabulary of the further statements *)

(** A string without whitespace at either end. *)
Definition is_stripped (s : string) : Prop := Py.strip s = s.

(** Runs of characters of a class replaced by one replacement each: what
    [re.sub] does with a pattern [[...]+]. *)
Fixpoint collapse_runs (ok : ascii → bool) (repl : list ascii)
  (in_run : bool) (l : list ascii) : list ascii :=
  match l with
  | [] => []
  | c :: l' =>
    if ok c
    then (if in_run then collapse_runs ok repl true l'
          else repl ++ collapse_runs ok repl true l')
    else c :: collapse_runs ok repl false l'
  end.

(** The length of the leading run of characters of a class. *)
Fixpoint run_length (ok : ascii → bool) (l : list ascii) : nat :=
  match l with
  | c :: l' => if ok c then S (run_length ok l') else 0
  | [] => 0
  end.

(** The complement of a class. *)
Definition outside (ok : ascii → bool) (c : ascii) : bool := negb (ok c).

(** The membership test of a bracket expression. *)
Definition class_test (ic neg : bool) (items : list Re.cset_item) (c : ascii)
  : bool :=
  xorb neg (existsb (fun i => Re.item_matches ic i c) items).

(** No two adjacent characters both satisfy [ok]. *)
Definition no_adjacent (ok : ascii → bool) (l : list ascii) : Prop :=
  ∀ l1 c c' l2, l = l1 ++ c :: c' :: l2 → ¬ (ok c = true ∧ ok c' = true).

(** The only character of the class [ok] in the list is [r]. *)
Definition only_as (ok : ascii → bool) (r : ascii) (l : list ascii) : Prop :=
  Forall (fun c => ok c = true → c = r) l.

(** Every character of a class replaced by a replacement: what [re.sub]
    does with a pattern [[...]]. *)
Definition replace_class (ok : ascii → bool) (repl : list ascii)
  (l : list ascii) : list ascii :=
  flat_map (fun c => if ok c then repl else [c]) l.

(** The repetition loop of the matcher, as a function of its own. *)
Section RepLoop.
Context (ic : bool) (a : Re.regex) (lo : nat) (hi : option nat)
  (k : Re.mstate → option Re.mstate).

Fixpoint rep_loop (fuel count : nat) (st : Re.mstate) {struct fuel}
  : option Re.mstate :=
  let stop := if Nat.leb lo count then k st else None in
  match fuel with
  | O => stop
  | S fuel' =>
    if Re.at_max hi count then stop
    else
      match Re.rmatch ic a st
              (fun st' =>
                 if Nat.ltb (Re.ms_pos st) (Re.ms_pos st')
                 then rep_loop fuel' (S count) st'
                 else None) with
      | Some res => Some res
      | None => stop
      end
  end.

End RepLoop.

(** A date in the shape [YYYY-MM-DD]. *)
Definition iso_shaped (s : string) : Prop :=
  ∃ y1 y2 y3 y4 m1 m2 d1 d2 : ascii,
    Py.chars s = [y1; y2; y3; y4; "-"; m1; m2; "-"; d1; d2]%char
    ∧ Forall (fun c => Py.isdecimal c = true) [y1; y2; y3; y4; m1; m2; d1; d2].

(** The sum of the counts of a [by_provider] mapping. *)
Definition total_count (m : gmap string nat) : nat :=
  map_fold (fun _ n acc => n + acc) 0 m.


(** An optional string that, when present, is non-empty and has no
    whitespace at either end. *)
Definition clean (o : option string) : Prop :=
  match o with
  | None => True
  | Some v => Py.truthy v = true ∧ is_stripped v
  end.

(** What a bill takes over from its email as it is. *)
Definition carries_email (email : Email.t) (b : Bill.t) : Prop :=
  Bill.id b = Email.message_id_or_uid email
  ∧ Bill.received b = Email.date email
  ∧ Bill.subject b = Py.strip (Py.or_empty (Email.subject email)).

(** A derived value is there only when the displayed one is, and an ISO
    date has the shape [YYYY-MM-DD]. *)
Definition iso_of_display (display iso : option string) : Prop :=
  match iso with
  | Some v => iso_shaped v ∧ display ≠ None
  | None => True
  end.

(** The displayed amount starts with a dollar sign, and there is a numeric
    amount only beside a displayed one. *)
Definition amount_of_display (display : option string)
  (value : option PyFloat.float) : Prop :=
  match display with
  | Some v => Py.startswith v "$" = true
  | None => value = None
  end.

(** The shape of the records all four extractors build, apart from the
    status. *)
Definition well_formed_bill (b : Bill.t) : Prop :=
  Py.len (Bill.snippet b) ≤ Const.DEFAULT_SNIPPET_LENGTH
  ∧ amount_of_display (Bill.amount_due b) (Bill.amount_due_value b)
  ∧ iso_of_display (Bill.due_date b) (Bill.due_date_iso b)
  ∧ iso_of_display (Bill.billing_date b) (Bill.billing_date_iso b)
  ∧ Bill.provider b ≠ None
  ∧ Bill.id b ≠ IdStr "".

(** The bills the registered extractors give for one email, in the order
    of the registry. *)
Definition bills_of_email `{Runtime} (email : Email.t) : list Bill.t :=
  option_list (DukeEnergy.parse_duke_energy email)
  ++ option_list (PsncEnergy.parse_psnc_energy email).

(** An email without subject and body text. *)
Definition blank_email (email : Email.t) : Prop :=
  Py.strip (Py.or_empty (Email.subject email)) = ""
  ∧ Py.or_empty (Email.body email) = "".

(** An email that names both registered providers. *)
Definition both_providers_email : Email.t :=
  Samples.email 21 (Some "<m21@example.org>")
    "Duke Energy and PSNC Energy"
    "Account Number: 55-1 Account Ending In: ***9 Due Date: 4/2/2025"
    (Some "2025-03-21T09:00:00").

(** A blank or a tab: the class [[ \t]]. *)
Definition is_blank (c : ascii) : bool :=
  Ascii.eqb " " c || Ascii.eqb (Py.chr 9) c.

(** A digit or an asterisk: the class [[0-9*]]. *)
Definition account_char (c : ascii) : bool :=
  Py.isdecimal c || Ascii.eqb "*" c.
(** * Properties of the extractors *)

(** A rendered date is never the empty string. *)
Lemma isoformat_truthy (d : PyDate.date) : Py.truthy (PyDate.isoformat d) = true.
Proof. reflexivity. Qed.

Section ExtractorFacts.
Context `{Runtime}.

Lemma duke_first_format_truthy cleaned fmts iso :
  DukeEnergy.first_format cleaned fmts = Some iso → Py.truthy iso = true.
Proof.
  induction fmts as [|fmt fmts IH]; simpl; [done|].
  destruct (strptime cleaned fmt); [|done].
  intros [= <-]. apply isoformat_truthy.
Qed.

Lemma duke_parse_date_iso_truthy value iso :
  DukeEnergy._parse_date_iso value = Some iso → Py.truthy iso = true.
Proof.
  unfold DukeEnergy._parse_date_iso.
  destruct value as [value|]; [|done].
  destruct (negb (Py.truthy value)); [done|].
  apply duke_first_format_truthy.
Qed.

Lemma duke_derive_status value :
  DukeEnergy._derive_status (DukeEnergy._parse_date_iso value)
  = status_of_due utcnow_date (DukeEnergy._parse_date_iso value).
Proof.
  unfold DukeEnergy._derive_status, status_of_due.
  destruct (DukeEnergy._parse_date_iso value) as [iso|] eqn:E; [|done].
  by rewrite (duke_parse_date_iso_truthy _ _ E).
Qed.

End ExtractorFacts.

Section ExtractorTheorems.
Context `{Runtime}.

Lemma status_of_due_follows today b :
  Bill.status b = status_of_due today (Bill.due_date_iso b) →
  status_follows_due_date today b.
Proof.
  unfold status_of_due. intros Hs. split.
  - intros iso d Hiso Hd Hlt. rewrite Hs, Hiso, Hd, Hlt. by split.
  - intros Hnone. by rewrite Hs, Hnone.
Qed.

Lemma duke_bill email b :
  DukeEnergy.parse_duke_energy email = Some b →
  has_extracted_fact b = true
  ∧ Bill.provider b = Some "Duke Energy"
  ∧ Bill.status b = status_of_due utcnow_date (Bill.due_date_iso b).
Proof.
  unfold DukeEnergy.parse_duke_energy.
  destruct (negb (Py.contains _ _)); [done|].
  destruct (DukeEnergy._parse_amount _) as [amount_display amount_value].
  destruct (negb _) eqn:Hguard; [done|].
  intros [= <-]. unfold has_extracted_fact. cbn [Bill.account_number
    Bill.amount_due Bill.due_date Bill.billing_date Bill.provider Bill.status
    Bill.due_date_iso].
  split; [by apply negb_false_iff in Hguard|].
  split; [done|]. apply duke_derive_status.
Qed.

Lemma psnc_bill email b :
  PsncEnergy.parse_psnc_energy email = Some b →
  has_extracted_fact b = true
  ∧ Bill.provider b = Some "PSNC Energy"
  ∧ Bill.status b = status_of_due utcnow_date (Bill.due_date_iso b).
Proof.
  unfold PsncEnergy.parse_psnc_energy.
  destruct (negb (existsb _ _)); [done|].
  destruct (PsncEnergy._parse_amount _) as [amount_display amount_value].
  destruct (negb _) eqn:Hguard; [done|].
  intros [= <-]. unfold has_extracted_fact. cbn [Bill.account_number
    Bill.amount_due Bill.due_date Bill.billing_date Bill.provider Bill.status
    Bill.due_date_iso].
  split; [apply negb_false_iff in Hguard; by rewrite Hguard|].
  split; [done|]. apply (duke_derive_status (H := H)).
Qed.

Lemma raleigh_bill email b :
  RaleighWater.parse_raleigh_water email = Some b →
  has_extracted_fact b = true
  ∧ Bill.provider b = Some "City of Raleigh Water"
  ∧ Bill.status b = status_of_due utcnow_date (Bill.due_date_iso b).
Proof.
  unfold RaleighWater.parse_raleigh_water.
  destruct (negb (Py.contains _ _) || _); [done|].
  destruct (RaleighWater._parse_amount _) as [amount_display amount_value].
  destruct (negb _) eqn:Hguard; [done|].
  intros [= <-]. unfold has_extracted_fact. cbn [Bill.account_number
    Bill.amount_due Bill.due_date Bill.billing_date Bill.provider Bill.status
    Bill.due_date_iso].
  split; [apply negb_false_iff in Hguard; by rewrite Hguard|].
  split; [done|]. apply (duke_derive_status (H := H)).
Qed.

(** The three structured extractors refuse to emit a record without an
    extracted fact. *)
Lemma structured_extractors_require_a_fact email b :
  DukeEnergy.parse_duke_energy email = Some b
  ∨ PsncEnergy.parse_psnc_energy email = Some b
  ∨ RaleighWater.parse_raleigh_water email = Some b →
  has_extracted_fact b = true.
Proof.
  intros [Hd|[Hp|Hr]].
  - by apply duke_bill in Hd as [? _].
  - by apply psnc_bill in Hp as [? _].
  - by apply raleigh_bill in Hr as [? _].
Qed.

Lemma generic_due_date_iso_truthy text display iso :
  Generic._extract_due_date text = (display, Some iso) → Py.truthy iso = true.
Proof.
  unfold Generic._extract_due_date.
  destruct (match Re.search Generic.DATE_WORD_REGEX text with
            | Some _ => _ | None => _ end) as [m|]; [|done].
  intros [= _ Hiso]. revert Hiso. unfold Generic._parse_date_iso.
  apply (duke_first_format_truthy (H := H)).
Qed.

Lemma generic_bill email b :
  Generic.parse_generic_email email = Some b →
  Bill.status b
  = match Generic.first_hint (generic_combined_text email)
            Generic.STATUS_HINTS with
    | Some s => s
    | None => status_of_due now_date (Bill.due_date_iso b)
    end.
Proof.
  unfold Generic.parse_generic_email, generic_combined_text.
  destruct (negb (Py.truthy _) && _); [done|].
  destruct (negb (existsb _ _)); [done|].
  destruct (Generic._extract_amount _) as [amount_display amount_value].
  destruct (Generic._extract_due_date _) as [display due_iso] eqn:Hdue.
  intros [= <-]. cbn [Bill.status Bill.due_date_iso].
  unfold Generic._determine_status, status_of_due.
  destruct (Generic.first_hint _ _); [done|].
  destruct due_iso as [iso|]; [|done].
  by rewrite (generic_due_date_iso_truthy _ _ _ Hdue).
Qed.

End ExtractorTheorems.

(** ** The patterns and two scenarios *)

(** Every pattern of the source is within the supported syntax. *)
Lemma source_patterns_parse :
  Forall (fun p => Re.parse p ≠ None)
    ["Account\s+Number:\s*([0-9\-]+)";
     "Billing\s+Date:\s*([A-Za-z0-9.,\-/ ]+)";
     "Due\s+Date:\s*([A-Za-z0-9.,\-/ ]+)";
     "Amount\s+Due:\s*\$?([0-9,]+(?:\.[0-9]{2})?)";
     "(" +:+ DukeEnergy.MONTH_NAME_PATTERN
       +:+ "\.?\s+\d{1,2},?\s+\d{4}|\d{1,2}[/-]\d{1,2}[/-]\d{2,4})";
     "</?(tr|p|div|li|table|tbody|thead|section|article)[^>]*>";
     "</?(td|th)[^>]*>"; "<br\s*/?>"; "<[^>]+>"; "\s+";
     "Account\s+Ending\s+In:\s*([A-Za-z0-9*]+)";
     "Amount\s+to\s+Be\s+Drafted:\s*\$?([0-9,]+(?:\.[0-9]{2})?)";
     "Date\s+of\s+Bank\s+Draft:\s*([A-Za-z0-9.,\-/ ]+)";
     "Service\s+Address:\s*([A-Za-z0-9.,#*\- ]+)";
     "[ \t]+\n"; "\n+"; "[ \t]+"; "[^0-9*]";
     "Account:\s*([0-9\-]+)";
     "Customer\s+Name:\s*([A-Za-z ,.'-]+)";
     "Service\s+Address:\s*([A-Za-z0-9.,#' \-]+)";
     "From:\s*(?:<)?([^\s>]+@raleighnc\.gov)(?:>)?";
     "\b\d{1,2}[/-]\d{1,2}[/-]\d{2,4}\b";
     "\$\s*([0-9]{1,3}(?:,[0-9]{3})*(?:\.[0-9]{2})?|[0-9]+(?:\.[0-9]{2})?)"]
  ∧ Forall (fun p => Re.re_ast p ≠ Re.CSet false [])
      [DukeEnergy.ACCOUNT_RE; DukeEnergy.BILLING_DATE_RE;
       DukeEnergy.DUE_DATE_RE; DukeEnergy.AMOUNT_DUE_RE;
       DukeEnergy.DATE_FINDER_RE; PsncEnergy.ACCOUNT_RE;
       PsncEnergy.AMOUNT_DRAFT_RE; PsncEnergy.BANK_DRAFT_DATE_RE;
       PsncEnergy.SERVICE_ADDRESS_RE; RaleighWater.ACCOUNT_RE;
       RaleighWater.AMOUNT_DUE_RE; RaleighWater.DUE_DATE_RE;
       RaleighWater.CUSTOMER_RE; RaleighWater.SERVICE_ADDRESS_RE;
       RaleighWater.FORWARDED_SENDER_RE; Generic.DATE_WORD_REGEX;
       Generic.DATE_NUMERIC_REGEX; Generic.AMOUNT_HINT_REGEX;
       Generic.AMOUNT_LOOSE_REGEX].
Proof. split; repeat constructor; by vm_compute. Qed.

(** The Duke Energy email of the sample: account number, amount, ISO due
    date. *)
Example duke_energy_scenario :
  ∃ b, @DukeEnergy.parse_duke_energy Samples.runtime Samples.duke_email
       = Some b
       ∧ Bill.account_number b = Some "123-456"
       ∧ Bill.amount_due b = Some "$85.50"
       ∧ Bill.amount_due_value b = Some BillSamples.f85_50
       ∧ Bill.due_date b = Some "March 3, 2025"
       ∧ Bill.due_date_iso b = Some "2025-03-03"
       ∧ Bill.id b = IdStr "<m1@example.org>".
Proof. eexists. split; [by vm_compute|]. by repeat split. Qed.

(** A due date that is no date: the display string is kept, the ISO date
    is null and the status is "due". *)
Example duke_energy_unparsable_due_date :
  ∃ b, @DukeEnergy.parse_duke_energy Samples.runtime
         (Samples.email 14 None "Duke Energy" "Due Date: TBD" None) = Some b
       ∧ Bill.due_date b = Some "TBD" ∧ Bill.due_date_iso b = None
       ∧ Bill.status b = "due".
Proof. eexists. split; [by vm_compute|]. by repeat split. Qed.

(** ** C1: records without an extracted fact *)

(** C1 (the code departs from the claim): on an email whose subject is the
    bare keyword "water" and whose body is empty, [parse_generic_email]
    emits a record although account number, amount, due date and billing
    date are all null.  The three structured extractors do refuse such a
    record ([structured_extractors_require_a_fact]). *)
Theorem generic_emits_record_without_facts `{Runtime} :
  ∃ b, Generic.parse_generic_email Samples.keyword_email = Some b
       ∧ Bill.account_number b = None ∧ Bill.amount_due b = None
       ∧ Bill.due_date b = None ∧ Bill.billing_date b = None
       ∧ has_extracted_fact b = false.
Proof.
  eexists. split; [vm_compute; reflexivity|]. by repeat split.
Qed.

(** ** C2: status and due date *)

(** C2 as stated fails for [parse_generic_email]: a bill whose text says
    "paid" keeps the status "paid" with a due date in the past, and a bill
    whose text says "past due" is "overdue" without any due date. *)
Lemma generic_status_ignores_due_date :
  ¬ (∀ b, @Generic.parse_generic_email Samples.runtime Samples.paid_email
          = Some b →
          @status_follows_due_date Samples.runtime Samples.today b)
  ∧ ¬ (∀ b, @Generic.parse_generic_email Samples.runtime
              Samples.past_due_email = Some b →
            @status_follows_due_date Samples.runtime Samples.today b).
Proof.
  split; intros Hclaim.
  - destruct (@Generic.parse_generic_email Samples.runtime Samples.paid_email)
      as [b|] eqn:E; [|vm_compute in E; discriminate].
    destruct (Hclaim b eq_refl) as [Hpast _].
    vm_compute in E. injection E as <-.
    destruct (Hpast "2020-01-02"
                {| PyDate.year := 2020; PyDate.month := 1; PyDate.day := 2 |})
      as [Hs _]; [reflexivity | by vm_compute | by vm_compute |].
    discriminate Hs.
  - destruct (@Generic.parse_generic_email Samples.runtime
                Samples.past_due_email) as [b|] eqn:E;
      [|vm_compute in E; discriminate].
    destruct (Hclaim b eq_refl) as [_ Hnone].
    vm_compute in E. injection E as <-.
    specialize (Hnone eq_refl). discriminate Hnone.
Qed.

(** C2 (amended): for every bill of [parse_duke_energy],
    [parse_psnc_energy] or [parse_raleigh_water], a due date strictly before
    the current UTC date gives the status "overdue", never "due", and a null
    due date gives "due".  For a bill of [parse_generic_email], when the
    lower-cased subject and body contain a phrase of [STATUS_HINTS] the
    status is that of the first such phrase of the table, whatever the due
    date; when they contain none, a null due date gives "due". *)
Theorem status_follows_due_date_by_extractor `{Runtime}
  (email : Email.t) (b : Bill.t) :
  (DukeEnergy.parse_duke_energy email = Some b
   ∨ PsncEnergy.parse_psnc_energy email = Some b
   ∨ RaleighWater.parse_raleigh_water email = Some b →
   status_follows_due_date utcnow_date b)
  ∧ (Generic.parse_generic_email email = Some b →
     match Generic.first_hint (generic_combined_text email)
             Generic.STATUS_HINTS with
     | Some s => Bill.status b = s
     | None => Bill.due_date_iso b = None → Bill.status b = "due"
     end).
Proof.
  split.
  - intros [Hd|[Hp|Hr]]; apply status_of_due_follows.
    + by apply duke_bill in Hd as (_ & _ & ?).
    + by apply psnc_bill in Hp as (_ & _ & ?).
    + by apply raleigh_bill in Hr as (_ & _ & ?).
  - intros Hg. apply generic_bill in Hg.
    destruct (Generic.first_hint _ _); [done|].
    intros Hnone. by rewrite Hg, Hnone.
Qed.

(** The amended C2 at the sample emails: the Duke Energy bill due on
    2025-03-03 is overdue on 2025-04-01, the generic bill with neither hint
    nor date is due, the paid one is "paid". *)
Lemma status_follows_due_date_by_extractor_witness :
  (∃ b, @DukeEnergy.parse_duke_energy Samples.runtime Samples.duke_email
        = Some b
        ∧ @status_follows_due_date Samples.runtime Samples.today b
        ∧ Bill.status b = "overdue")
  ∧ (∃ b, @Generic.parse_generic_email Samples.runtime Samples.keyword_email
          = Some b
          ∧ Bill.due_date_iso b = None ∧ Bill.status b = "due")
  ∧ (∃ b, @Generic.parse_generic_email Samples.runtime Samples.paid_email
          = Some b ∧ Bill.status b = "paid").
Proof.
  split; [|split].
  - destruct (@DukeEnergy.parse_duke_energy Samples.runtime
                Samples.duke_email) as [b|] eqn:E;
      [|vm_compute in E; discriminate].
    exists b. split; [done|]. split.
    + apply (proj1 (@status_follows_due_date_by_extractor Samples.runtime
                      Samples.duke_email b)).
      by left.
    + vm_compute in E. by injection E as <-.
  - destruct (@Generic.parse_generic_email Samples.runtime
                Samples.keyword_email) as [b|] eqn:E;
      [|vm_compute in E; discriminate].
    assert (Hnone : Bill.due_date_iso b = None).
    { vm_compute in E. by injection E as <-. }
    exists b. split; [done|]. split; [exact Hnone|].
    exact (proj2 (@status_follows_due_date_by_extractor Samples.runtime
                    Samples.keyword_email b) E Hnone).
  - destruct (@Generic.parse_generic_email Samples.runtime
                Samples.paid_email) as [b|] eqn:E;
      [|vm_compute in E; discriminate].
    exists b. split; [done|].
    exact (proj2 (@status_follows_due_date_by_extractor Samples.runtime
                    Samples.paid_email b) E).
Defined.

(** Without a hint in its text, the status of a generic bill follows its
    due date as compared with the local current date. *)
Lemma generic_status_without_hint `{Runtime} (email : Email.t) (b : Bill.t) :
  Generic.parse_generic_email email = Some b →
  Generic.first_hint (generic_combined_text email) Generic.STATUS_HINTS = None →
  status_follows_due_date now_date b.
Proof.
  intros Hg Hhint. apply generic_bill in Hg. rewrite Hhint in Hg.
  by apply status_of_due_follows.
Qed.

(** * Properties of the dispatcher *)

Lemma run_parser_yield bills entry email :
  Parsers.run_parser bills entry email = Parsers.Ok (bills ++ yield entry email).
Proof.
  unfold Parsers.run_parser, yield. destruct entry as [name parser]; simpl.
  destruct (parser email) as [[|bill|[|b l]|[]]|err]; simpl;
    by rewrite ?app_nil_r.
Qed.

Lemma for_parsers_yield bills parsers email :
  Parsers.for_parsers bills parsers email
  = Parsers.Ok (bills ++ flat_map (fun entry => yield entry email) parsers).
Proof.
  revert bills. induction parsers as [|entry parsers IH]; intros bills; simpl.
  - by rewrite app_nil_r.
  - rewrite run_parser_yield. simpl. rewrite IH. by rewrite <- app_assoc.
Qed.

Lemma for_emails_yield bills parsers emails :
  Parsers.for_emails bills parsers emails
  = Parsers.Ok
      (bills ++ flat_map (fun email =>
                            flat_map (fun entry => yield entry email) parsers)
                  emails).
Proof.
  revert bills. induction emails as [|email emails IH]; intros bills; simpl.
  - by rewrite app_nil_r.
  - rewrite for_parsers_yield. simpl. rewrite IH. by rewrite <- app_assoc.
Qed.

(** The dispatcher returns, for each email in turn, what each parser in
    turn contributes. *)
Lemma extract_bills_with_yield parsers emails :
  Parsers.extract_bills_with parsers emails
  = Parsers.Ok
      (flat_map (fun email => flat_map (fun entry => yield entry email) parsers)
         emails).
Proof. apply for_emails_yield. Qed.

Lemma yield_call_quietly (e1 e2 : string * Parsers.parser) email :
  call_quietly (snd e1 email) = call_quietly (snd e2 email) →
  yield e1 email = yield e2 email.
Proof.
  unfold yield, call_quietly, Parsers.try_except. intros Heq.
  destruct (snd e1 email) as [p1|err1], (snd e2 email) as [p2|err2];
    by simplify_eq.
Qed.

Lemma flat_map_yield_same parsers parsers' email :
  Forall2 same_up_to_failures parsers parsers' →
  flat_map (fun entry => yield entry email) parsers
  = flat_map (fun entry => yield entry email) parsers'.
Proof.
  induction 1 as [|e1 e2 l1 l2 He _ IH]; simpl; [done|].
  by rewrite IH, (yield_call_quietly e1 e2 email (He email)).
Qed.

Lemma same_up_to_failures_quiet entry : same_up_to_failures entry (quiet entry).
Proof.
  intros email. unfold quiet, call_quietly, Parsers.try_except; simpl.
  by destruct (snd entry email).
Qed.

(** ** C6: failures are isolated *)

(** C6: for every registry and every batch of emails, [extract_bills]
    returns (it never raises); an exception of one parser on one email
    contributes no record, and the result is the same as for a registry
    in which failing calls return null instead: be it all of them
    ([quiet]) or any of them ([same_up_to_failures]). *)
Theorem extract_bills_isolates_failures
  (parsers parsers' : list (string * Parsers.parser)) (emails : list Email.t) :
  (∃ bills, Parsers.extract_bills_with parsers emails = Parsers.Ok bills)
  ∧ (∀ `{Runtime}, ∃ bills, Parsers.extract_bills emails = Parsers.Ok bills)
  ∧ (∀ (entry : string * Parsers.parser) email err,
       snd entry email = Parsers.Raise err → yield entry email = [])
  ∧ Parsers.extract_bills_with parsers emails
    = Parsers.extract_bills_with (map quiet parsers) emails
  ∧ (Forall2 same_up_to_failures parsers parsers' →
     Parsers.extract_bills_with parsers emails
     = Parsers.extract_bills_with parsers' emails).
Proof.
  assert (Hsame : ∀ ps ps', Forall2 same_up_to_failures ps ps' →
            Parsers.extract_bills_with ps emails
            = Parsers.extract_bills_with ps' emails).
  { intros ps ps' Hps. rewrite !extract_bills_with_yield. f_equal.
    induction emails as [|email emails' IH]; simpl; [done|].
    by rewrite IH, (flat_map_yield_same ps ps' email Hps). }
  split; [rewrite extract_bills_with_yield; eauto|].
  split; [intros rt; unfold Parsers.extract_bills;
          rewrite extract_bills_with_yield; eauto|].
  split; [intros entry email err Herr; unfold yield; by rewrite Herr|].
  split; [|apply Hsame].
  apply Hsame. induction parsers as [|entry ps IH]; simpl; constructor;
    [apply same_up_to_failures_quiet | done].
Qed.

(** C6 at a sample: a registry whose first parser raises on every email
    gives the bills of the registry whose first parser returns null, and
    the raising parser contributes nothing. *)
Lemma extract_bills_isolates_failures_witness :
  Forall2 same_up_to_failures DispatchSamples.with_failure
    DispatchSamples.without_failure
  ∧ Parsers.extract_bills_with DispatchSamples.with_failure
      [Samples.duke_email; Samples.keyword_email]
    = Parsers.extract_bills_with DispatchSamples.without_failure
        [Samples.duke_email; Samples.keyword_email]
  ∧ DispatchSamples.failing Samples.duke_email = Parsers.Raise "boom"
  ∧ yield ("broken", DispatchSamples.failing) Samples.duke_email = [].
Proof.
  assert (Hrel : Forall2 same_up_to_failures DispatchSamples.with_failure
                   DispatchSamples.without_failure).
  { repeat constructor; intros email; reflexivity. }
  split; [exact Hrel|]. split; [|split; [reflexivity|]].
  - exact (proj2 (proj2 (proj2 (proj2
      (extract_bills_isolates_failures DispatchSamples.with_failure
         DispatchSamples.without_failure
         [Samples.duke_email; Samples.keyword_email])))) Hrel).
  - exact (proj1 (proj2 (proj2
      (extract_bills_isolates_failures DispatchSamples.with_failure
         DispatchSamples.without_failure
         [Samples.duke_email; Samples.keyword_email])))
      ("broken", DispatchSamples.failing) Samples.duke_email "boom" eq_refl).
Defined.

(** ** C10: the registry *)

Lemma yield_returning name f email :
  yield (name, Parsers.returning f) email
  = match f email with Some b => [b] | None => [] end.
Proof. unfold yield, Parsers.returning; simpl. by destruct (f email). Qed.

(** C10: every bill [extract_bills] returns has the provider "Duke Energy"
    or "PSNC Energy"; the registry holds those two parsers only, so no
    bill of [parse_generic_email] or [parse_raleigh_water] is among
    them. *)
Theorem extract_bills_providers `{Runtime} (emails : list Email.t)
  (bills : list Bill.t) (b : Bill.t) :
  Parsers.extract_bills emails = Parsers.Ok bills →
  b ∈ bills →
  (Bill.provider b = Some "Duke Energy" ∨ Bill.provider b = Some "PSNC Energy")
  ∧ map fst Parsers.PARSERS = ["duke_energy"; "psnc_energy"]
  ∧ ∃ email, email ∈ emails
             ∧ (DukeEnergy.parse_duke_energy email = Some b
                ∨ PsncEnergy.parse_psnc_energy email = Some b).
Proof.
  unfold Parsers.extract_bills. rewrite extract_bills_with_yield.
  intros [= <-] Hb.
  apply list_elem_of_In, in_flat_map in Hb as (email & Hemail & Hb).
  unfold Parsers.PARSERS in Hb. simpl in Hb.
  rewrite !yield_returning, app_nil_r in Hb.
  assert (Hfrom : DukeEnergy.parse_duke_energy email = Some b
                  ∨ PsncEnergy.parse_psnc_energy email = Some b).
  { apply in_app_or in Hb as [Hb|Hb].
    - left. destruct (DukeEnergy.parse_duke_energy email); simpl in Hb;
        [destruct Hb as [->|[]]; done | done].
    - right. destruct (PsncEnergy.parse_psnc_energy email); simpl in Hb;
        [destruct Hb as [->|[]]; done | done]. }
  split; [|split; [done|]].
  - destruct Hfrom as [Hd|Hp].
    + left. by apply duke_bill in Hd as (_ & ? & _).
    + right. by apply psnc_bill in Hp as (_ & ? & _).
  - exists email. split; [by apply list_elem_of_In | done].
Qed.

(** C10 at a sample batch: the Raleigh Water email and the keyword email
    give no bill, the other two give one each. *)
Lemma extract_bills_providers_witness :
  ∃ bills b,
    @Parsers.extract_bills Samples.runtime
      [Samples.raleigh_email; Samples.psnc_email; Samples.keyword_email;
       Samples.duke_email] = Parsers.Ok bills
    ∧ length bills = 2 ∧ b ∈ bills
    ∧ Bill.provider b = Some "PSNC Energy".
Proof.
  destruct (@Parsers.extract_bills Samples.runtime
      [Samples.raleigh_email; Samples.psnc_email; Samples.keyword_email;
       Samples.duke_email]) as [bills|err] eqn:E;
    [|vm_compute in E; discriminate].
  destruct bills as [|b bills]; [vm_compute in E; discriminate|].
  exists (b :: bills), b.
  assert (Hin : b ∈ b :: bills) by left.
  pose proof (@extract_bills_providers Samples.runtime _ _ b E Hin)
    as ([Hduke|Hpsnc] & _ & _).
  - exfalso. vm_compute in E. injection E as <- _. discriminate Hduke.
  - split; [done|]. split; [|by split].
    vm_compute in E. by injection E as _ <-.
Defined.

(** * Properties of the aggregation *)

(** ** The deduplication loop *)

Lemma fold_dedup_step bills seen unique :
  snd (fold_left Coordinator.dedup_step bills (seen, unique))
  = unique ++ dedup_from seen bills.
Proof.
  revert seen unique. induction bills as [|bill bills IH]; intros seen unique.
  - simpl. by rewrite app_nil_r.
  - simpl. destruct (ident_truthy (Bill.id bill) && _); [apply IH|].
    rewrite IH. by rewrite <- app_assoc.
Qed.

Lemma deduplicate_dedup_from bills :
  Coordinator.deduplicate bills = dedup_from ∅ bills.
Proof. unfold Coordinator.deduplicate. by rewrite fold_dedup_step. Qed.

Lemma filter_dedup_from (i : ident) seen bills :
  filter (fun b => Bill.id b = i) (dedup_from seen bills)
  = if ident_truthy i
    then (if decide (i ∈ seen) then []
          else take 1 (filter (fun b => Bill.id b = i) bills))
    else filter (fun b => Bill.id b = i) bills.
Proof.
  revert seen. induction bills as [|bill bills IH]; intros seen.
  - simpl. by repeat case_match.
  - simpl. destruct (decide (Bill.id bill = i)) as [Hi|Hi].
    + rewrite filter_cons_True by done. subst i.
      destruct (ident_truthy (Bill.id bill)) eqn:Ht; simpl.
      * destruct (decide (Bill.id bill ∈ seen)) as [Hin|Hin].
        -- rewrite (bool_decide_eq_true_2 _ Hin). rewrite IH.
           by rewrite (decide_True _ _ Hin).
        -- rewrite (bool_decide_eq_false_2 _ Hin).
           rewrite filter_cons_True by done. rewrite IH.
           rewrite decide_True by set_solver. done.
      * rewrite filter_cons_True by done. by rewrite IH.
    + rewrite filter_cons_False by done.
      destruct (ident_truthy (Bill.id bill) && _) eqn:Hskip; [apply IH|].
      rewrite filter_cons_False by done. rewrite IH.
      destruct (ident_truthy i); [|done].
      destruct (ident_truthy (Bill.id bill)); [|done].
      destruct (decide (i ∈ seen)) as [Hin|Hin].
      * rewrite decide_True; [done|]. apply elem_of_union. by right.
      * rewrite decide_False; [done|].
        rewrite elem_of_union, elem_of_singleton. by intros [->|?].
Qed.

Lemma dedup_from_sublist seen bills : dedup_from seen bills `sublist_of` bills.
Proof.
  revert seen. induction bills as [|bill bills IH]; intros seen; simpl.
  - constructor.
  - destruct (ident_truthy (Bill.id bill) && _).
    + by apply sublist_cons.
    + by apply sublist_skip.
Qed.

(** ** C3: deduplication *)

(** C3 as stated fails for an identifier that is not null but false as a
    truth value: two bills whose identifier is the empty string, or the number
    [0], are both kept. *)
Lemma deduplicate_keeps_falsy_identifiers :
  ¬ (∀ i, i ≠ IdNone →
       filter (fun b => Bill.id b = i)
         (Coordinator.deduplicate
            [BillSamples.empty_id_1; BillSamples.empty_id_2])
       = take 1 (filter (fun b => Bill.id b = i)
                   [BillSamples.empty_id_1; BillSamples.empty_id_2]))
  ∧ Coordinator.deduplicate [BillSamples.empty_id_1; BillSamples.empty_id_2]
    = [BillSamples.empty_id_1; BillSamples.empty_id_2]
  ∧ Coordinator.deduplicate [BillSamples.zero_id_1; BillSamples.zero_id_2]
    = [BillSamples.zero_id_1; BillSamples.zero_id_2].
Proof.
  split; [|split; by vm_compute].
  intros Hclaim. specialize (Hclaim (IdStr "") ltac:(done)).
  vm_compute in Hclaim. discriminate Hclaim.
Qed.

(** C3 (amended): for every list of bills, the deduplication step of
    [_limit_bills] keeps, of the bills with a given identifier that is true
    as a truth value (not null, not the empty string, not zero), exactly
    the first one in input order; it keeps every bill whose identifier is
    null, absent, empty or zero; and it keeps the bills in their order. *)
Theorem deduplicate_keeps_first (bills : list Bill.t) (i : ident) :
  filter (fun b => Bill.id b = i) (Coordinator.deduplicate bills)
  = (if ident_truthy i
     then take 1 (filter (fun b => Bill.id b = i) bills)
     else filter (fun b => Bill.id b = i) bills)
  ∧ Coordinator.deduplicate bills `sublist_of` bills.
Proof.
  rewrite deduplicate_dedup_from. split; [|apply dedup_from_sublist].
  rewrite filter_dedup_from. destruct (ident_truthy i); [|done].
  by rewrite decide_False by set_solver.
Qed.

(** ** Sorting by decreasing key *)

Lemma ltb_false_leb (x y : string) :
  String.ltb x y = false → String.leb y x = true.
Proof.
  unfold String.ltb, String.leb. rewrite (String.compare_antisym y x).
  by destruct (String.compare x y).
Qed.

Lemma ltb_true_leb (x y : string) :
  String.ltb x y = true → String.leb x y = true.
Proof. unfold String.ltb, String.leb. by destruct (String.compare x y). Qed.

Lemma leb_ltb_false (x y : string) :
  String.leb y x = true → String.ltb x y = false.
Proof.
  unfold String.ltb, String.leb. rewrite (String.compare_antisym y x).
  by destruct (String.compare x y).
Qed.

Section SortReverse.
Context {A : Type} (key : A → string).

Lemma insert_desc_perm x l : PyList.insert_desc key x l ≡ₚ x :: l.
Proof.
  induction l as [|y l IH]; simpl; [done|].
  destruct (String.ltb (key x) (key y)); [|done].
  rewrite IH. apply Permutation_swap.
Qed.

Lemma sort_reverse_perm l : PyList.sort_reverse key l ≡ₚ l.
Proof.
  induction l as [|x l IH]; simpl; [done|].
  by rewrite insert_desc_perm, IH.
Qed.

Lemma sort_reverse_length l : length (PyList.sort_reverse key l) = length l.
Proof. by rewrite sort_reverse_perm. Qed.

Lemma insert_desc_hdrel y x l :
  key_ge key y x → HdRel (key_ge key) y l →
  HdRel (key_ge key) y (PyList.insert_desc key x l).
Proof.
  intros Hyx Hhd. destruct l as [|z l]; simpl; [by constructor|].
  destruct (String.ltb (key x) (key z)); [|by constructor].
  constructor. by inversion Hhd.
Qed.

Lemma insert_desc_sorted x l :
  Sorted (key_ge key) l → Sorted (key_ge key) (PyList.insert_desc key x l).
Proof.
  induction 1 as [|y l Hsorted IH Hhd]; simpl.
  - by repeat constructor.
  - destruct (String.ltb (key x) (key y)) eqn:Hlt.
    + constructor; [done|].
      apply insert_desc_hdrel; [|done]. by apply ltb_true_leb.
    + constructor; [by constructor|].
      constructor. by apply ltb_false_leb.
Qed.

Lemma sort_reverse_sorted l :
  Sorted (key_ge key) (PyList.sort_reverse key l).
Proof.
  induction l as [|x l IH]; simpl; [constructor|].
  by apply insert_desc_sorted.
Qed.

(** A list already in decreasing order is left as it is. *)
Lemma sort_reverse_sorted_id l :
  Sorted (key_ge key) l → PyList.sort_reverse key l = l.
Proof.
  induction 1 as [|x l Hsorted IH Hhd]; simpl; [done|].
  rewrite IH. destruct Hhd as [|y l Hxy]; simpl; [done|].
  by rewrite (leb_ltb_false _ _ Hxy).
Qed.

End SortReverse.

Lemma Sorted_take {A} (R : A → A → Prop) n l :
  Sorted R l → Sorted R (take n l).
Proof.
  intros Hsorted. revert n.
  induction Hsorted as [|x l Hsorted IH Hhd]; intros [|n]; simpl;
    try constructor; [done|].
  destruct Hhd as [|y l Hxy]; destruct n; simpl; by constructor.
Qed.

Lemma Sorted_adjacent {A} (R : A → A → Prop) l i a b :
  Sorted R l → l !! i = Some a → l !! S i = Some b → R a b.
Proof.
  intros Hsorted. revert i.
  induction Hsorted as [|x l Hsorted IH Hhd]; intros i; [done|].
  destruct i as [|i]; simpl.
  - intros [= ->] Hb. destruct Hhd as [|y l Hxy]; [done|].
    simpl in Hb. by injection Hb as <-.
  - apply IH.
Qed.

Lemma slice_to_take {A} (n : Z) (l : list A) :
  ∃ k, PyList.slice_to n l = take k l.
Proof. unfold PyList.slice_to. destruct (0 <=? n)%Z; eauto. Qed.

Lemma limit_bills_take opts bills :
  ∃ k, Coordinator._limit_bills opts bills
       = take k (PyList.sort_reverse Coordinator.received_key
                   (Coordinator.deduplicate bills)).
Proof.
  unfold Coordinator._limit_bills. destruct bills as [|bill bills].
  - by exists 0.
  - destruct (_ <=? _)%Z.
    + eexists (length _). by rewrite firstn_all.
    + apply slice_to_take.
Qed.

Lemma limit_bills_in_order opts bills :
  Sorted received_ge (Coordinator._limit_bills opts bills).
Proof.
  destruct (limit_bills_take opts bills) as [k ->].
  apply Sorted_take, (sort_reverse_sorted Coordinator.received_key).
Qed.

(** ** C4: order of the output *)

(** C4: for every list of bills and every configuration, the output of
    [_limit_bills] is in decreasing order of the [received] field, compared
    as strings character by character, a missing or null [received] being
    read as the empty string: every adjacent pair [a], [b] of the output has
    [received a >= received b]. *)
Theorem limit_bills_sorted (opts : Coordinator.options) (bills : list Bill.t) :
  Sorted received_ge (Coordinator._limit_bills opts bills)
  ∧ (∀ i a b,
       Coordinator._limit_bills opts bills !! i = Some a →
       Coordinator._limit_bills opts bills !! S i = Some b →
       String.leb (Py.or_empty (Bill.received b))
         (Py.or_empty (Bill.received a)) = true).
Proof.
  split; [apply limit_bills_in_order|]. intros i a b Ha Hb.
  exact (Sorted_adjacent _ _ _ _ _ (limit_bills_in_order opts bills) Ha Hb).
Qed.

(** C4 at a sample: of three bills, one without a date, the undated one
    comes last. *)
Lemma limit_bills_sorted_witness :
  Coordinator._limit_bills (BillSamples.opts 10)
    [BillSamples.march; BillSamples.undated; BillSamples.april]
  = [BillSamples.april; BillSamples.march; BillSamples.undated]
  ∧ String.leb (Py.or_empty (Bill.received BillSamples.march))
      (Py.or_empty (Bill.received BillSamples.april)) = true
  ∧ String.leb (Py.or_empty (Bill.received BillSamples.undated))
      (Py.or_empty (Bill.received BillSamples.march)) = true.
Proof.
  split; [by vm_compute|].
  split.
  - apply (proj2 (limit_bills_sorted (BillSamples.opts 10)
                    [BillSamples.march; BillSamples.undated;
                     BillSamples.april]) 0); by vm_compute.
  - apply (proj2 (limit_bills_sorted (BillSamples.opts 10)
                    [BillSamples.march; BillSamples.undated;
                     BillSamples.april]) 1); by vm_compute.
Defined.

Lemma limit_bills_bounded (opts : Coordinator.options) (bills : list Bill.t) :
  (0 ≤ max_of opts)%Z →
  (Z.of_nat (length (Coordinator._limit_bills opts bills)) ≤ max_of opts)%Z
  ∧ length (Coordinator._limit_bills opts bills)
    = Nat.min (length (Coordinator.deduplicate bills))
        (Z.to_nat (max_of opts))
  ∧ ((Z.of_nat (length (Coordinator.deduplicate bills)) ≤ max_of opts)%Z →
     Coordinator._limit_bills opts bills ≡ₚ Coordinator.deduplicate bills).
Proof.
  intros Hmax. unfold Coordinator._limit_bills, max_of in *.
  destruct bills as [|bill bills].
  { simpl. split; [done|]. split; [done|]. by intros _. }
  set (unique := Coordinator.deduplicate (bill :: bills)).
  set (m := default Const.DEFAULT_MAX_MESSAGES (Coordinator.max_messages opts))
    in *.
  pose proof (sort_reverse_length Coordinator.received_key unique) as Hlen.
  destruct (_ <=? m)%Z eqn:Hle.
  - apply Z.leb_le in Hle. rewrite Hlen in *.
    split; [done|]. split; [lia|]. intros _. apply sort_reverse_perm.
  - apply Z.leb_gt in Hle. rewrite Hlen in *. unfold PyList.slice_to.
    rewrite (proj2 (Z.leb_le 0 m) Hmax). rewrite length_take, Hlen.
    split; [lia|]. split; [lia|]. lia.
Qed.

(** ** C5: length of the output *)

(** C5: for every list of bills and every configured maximum (a count: not
    negative), the output of [_limit_bills] has at most that many bills,
    and exactly the minimum of the maximum and of the number of bills left
    by the deduplication; when these are no more than the maximum, the
    output is all of them. *)
Theorem limit_bills_length (opts : Coordinator.options) (bills : list Bill.t) :
  (0 ≤ max_of opts)%Z →
  (Z.of_nat (length (Coordinator._limit_bills opts bills)) ≤ max_of opts)%Z
  ∧ length (Coordinator._limit_bills opts bills)
    = Nat.min (length (Coordinator.deduplicate bills))
        (Z.to_nat (max_of opts))
  ∧ ((Z.of_nat (length (Coordinator.deduplicate bills)) ≤ max_of opts)%Z →
     Coordinator._limit_bills opts bills ≡ₚ Coordinator.deduplicate bills).
Proof. apply limit_bills_bounded. Qed.

(** C5 at a sample: four bills, one a duplicate, and a maximum of two. *)
Lemma limit_bills_length_witness :
  (0 ≤ max_of (BillSamples.opts 2))%Z
  ∧ length (Coordinator.deduplicate
              [BillSamples.march; BillSamples.undated; BillSamples.march_again;
               BillSamples.april]) = 3
  ∧ length (Coordinator._limit_bills (BillSamples.opts 2)
              [BillSamples.march; BillSamples.undated; BillSamples.march_again;
               BillSamples.april]) = 2.
Proof.
  assert (Hmax : (0 ≤ max_of (BillSamples.opts 2))%Z) by (by vm_compute).
  split; [exact Hmax|]. split; [by vm_compute|].
  rewrite (proj1 (proj2 (limit_bills_length (BillSamples.opts 2)
    [BillSamples.march; BillSamples.undated; BillSamples.march_again;
     BillSamples.april] Hmax))).
  by vm_compute.
Defined.

(** ** C9: idempotence *)

Lemma filter_sublist {A} (P : A → Prop) `{!∀ x, Decision (P x)} (l1 l2 : list A) :
  l1 `sublist_of` l2 → filter P l1 `sublist_of` filter P l2.
Proof.
  induction 1 as [|x l1 l2 Hsub IH|x l1 l2 Hsub IH]; [constructor| |].
  - rewrite !filter_cons. destruct (decide (P x)); [by constructor|done].
  - rewrite filter_cons. destruct (decide (P x)); [by constructor|done].
Qed.

Lemma dedup_from_ids seen bills :
  NoDup (filter (fun i => ident_truthy i = true)
           (Bill.id <$> dedup_from seen bills))
  ∧ ∀ i, i ∈ filter (fun i => ident_truthy i = true)
               (Bill.id <$> dedup_from seen bills) → i ∉ seen.
Proof.
  revert seen. induction bills as [|bill bills IH]; intros seen; simpl.
  - split; [constructor|]. by intros i Hi%elem_of_nil.
  - destruct (ident_truthy (Bill.id bill)) eqn:Ht; simpl.
    + destruct (decide (Bill.id bill ∈ seen)) as [Hin|Hin].
      * rewrite (bool_decide_eq_true_2 _ Hin). apply IH.
      * rewrite (bool_decide_eq_false_2 _ Hin).
        rewrite ?fmap_cons. rewrite filter_cons_True by done.
        destruct (IH ({[Bill.id bill]} ∪ seen)) as [Hnd Hout]. split.
        -- constructor; [|done]. intros Hi%Hout. apply Hi.
           apply elem_of_union. left. by apply elem_of_singleton.
        -- intros i [->|Hi]%elem_of_cons; [done|].
           intros Hseen. apply (Hout i Hi). apply elem_of_union. by right.
    + rewrite ?fmap_cons. rewrite filter_cons_False by (by rewrite Ht).
      apply IH.
Qed.

Lemma deduplicate_deduplicated bills :
  deduplicated (Coordinator.deduplicate bills).
Proof. rewrite deduplicate_dedup_from. apply dedup_from_ids. Qed.

Lemma dedup_from_id seen bills :
  deduplicated bills →
  (∀ i, i ∈ filter (fun i => ident_truthy i = true) (Bill.id <$> bills) →
        i ∉ seen) →
  dedup_from seen bills = bills.
Proof.
  unfold deduplicated. revert seen.
  induction bills as [|bill bills IH]; intros seen Hnd Hout; simpl; [done|].
  rewrite fmap_cons in Hnd, Hout.
  destruct (ident_truthy (Bill.id bill)) eqn:Ht; simpl.
  - rewrite filter_cons_True in Hnd, Hout by done.
    apply NoDup_cons in Hnd as [Hfresh Hnd].
    rewrite bool_decide_eq_false_2 by (apply Hout; left).
    f_equal. apply IH; [done|]. intros i Hi.
    rewrite elem_of_union, elem_of_singleton. intros [->|Hseen]; [done|].
    apply (Hout i); [by right | done].
  - rewrite filter_cons_False in Hnd, Hout by (by rewrite Ht).
    f_equal. by apply IH.
Qed.

Lemma limit_bills_fixed (opts : Coordinator.options) (bills : list Bill.t) :
  deduplicated bills → Sorted received_ge bills →
  (Z.of_nat (length bills) ≤ max_of opts)%Z →
  Coordinator._limit_bills opts bills = bills.
Proof.
  intros Hnd Hsorted Hlen. unfold Coordinator._limit_bills.
  destruct bills as [|bill bills]; [done|].
  rewrite deduplicate_dedup_from, dedup_from_id; [|done|].
  - rewrite (sort_reverse_sorted_id _ _ Hsorted).
    unfold max_of in Hlen. by rewrite (proj2 (Z.leb_le _ _) Hlen).
  - intros i _. apply not_elem_of_empty.
Qed.

Lemma limit_bills_deduplicated opts bills :
  deduplicated (Coordinator._limit_bills opts bills).
Proof.
  destruct (limit_bills_take opts bills) as [k ->]. unfold deduplicated.
  eapply sublist_NoDup;
    [|apply filter_sublist, fmap_sublist, sublist_take].
  rewrite sort_reverse_perm. apply deduplicate_deduplicated.
Qed.

(** C9: [_limit_bills] leaves a list unchanged that is deduplicated, in
    decreasing order of [received] and no longer than the maximum; its
    output is such a list, so applying it twice is applying it once, and
    the summary of the result is the same; the summary is a function of the
    list alone: it reads neither the clock nor the configuration. *)
Theorem aggregator_idempotent (opts : Coordinator.options)
  (bills : list Bill.t) :
  (deduplicated bills → Sorted received_ge bills →
   (Z.of_nat (length bills) ≤ max_of opts)%Z →
   Coordinator._limit_bills opts bills = bills)
  ∧ ((0 ≤ max_of opts)%Z →
     Coordinator._limit_bills opts (Coordinator._limit_bills opts bills)
     = Coordinator._limit_bills opts bills
     ∧ ∀ `{Runtime},
         Coordinator._build_summary
           (Coordinator._limit_bills opts (Coordinator._limit_bills opts bills))
         = Coordinator._build_summary (Coordinator._limit_bills opts bills))
  ∧ (∀ rt1 rt2 : Runtime,
       (∀ s, @fromisoformat rt1 s = @fromisoformat rt2 s) →
       @Coordinator._build_summary rt1 bills
       = @Coordinator._build_summary rt2 bills).
Proof.
  split; [apply limit_bills_fixed|]. split.
  - intros Hmax.
    assert (Hidem : Coordinator._limit_bills opts
                      (Coordinator._limit_bills opts bills)
                    = Coordinator._limit_bills opts bills).
    { apply limit_bills_fixed.
      - apply limit_bills_deduplicated.
      - apply limit_bills_in_order.
      - by apply limit_bills_bounded. }
    split; [done|]. intros rt. by rewrite Hidem.
  - intros rt1 rt2 Hrt. unfold Coordinator._build_summary.
    assert (Hstep : ∀ a b, @Coordinator.summary_step rt1 a b
                           = @Coordinator.summary_step rt2 a b).
    { intros a b. unfold Coordinator.summary_step, Coordinator._min_iso_date.
      destruct (Bill.due_date_iso b) as [iso|]; [|done].
      destruct (Coordinator.a_next_due a) as [existing|]; [|done].
      by rewrite !Hrt. }
    assert (Hfold : ∀ a, fold_left (@Coordinator.summary_step rt1) bills a
                         = fold_left (@Coordinator.summary_step rt2) bills a).
    { induction bills as [|b l IH]; intros a; simpl; [done|].
      by rewrite Hstep, IH. }
    by rewrite Hfold.
Qed.

(** C9 at a sample: a deduplicated, sorted list within the maximum. *)
Lemma aggregator_idempotent_witness :
  deduplicated [BillSamples.april; BillSamples.march; BillSamples.undated]
  ∧ Sorted received_ge
      [BillSamples.april; BillSamples.march; BillSamples.undated]
  ∧ Coordinator._limit_bills (BillSamples.opts 10)
      [BillSamples.april; BillSamples.march; BillSamples.undated]
    = [BillSamples.april; BillSamples.march; BillSamples.undated]
  ∧ Coordinator._limit_bills (BillSamples.opts 2)
      (Coordinator._limit_bills (BillSamples.opts 2)
         [BillSamples.march; BillSamples.march_again; BillSamples.april;
          BillSamples.undated])
    = [BillSamples.april; BillSamples.march]
  ∧ @Coordinator._build_summary Samples.runtime [BillSamples.march]
    = @Coordinator._build_summary
        (Reference.runtime Samples.today
           {| PyDate.year := 1999; PyDate.month := 1; PyDate.day := 1 |})
        [BillSamples.march].
Proof.
  assert (Hnd : deduplicated
                  [BillSamples.april; BillSamples.march; BillSamples.undated]).
  { unfold deduplicated. vm_compute. repeat constructor.
    - rewrite list_elem_of_singleton. discriminate.
    - apply not_elem_of_nil. }
  assert (Hsorted : Sorted received_ge
                      [BillSamples.april; BillSamples.march;
                       BillSamples.undated]).
  { repeat constructor; by vm_compute. }
  split; [exact Hnd|]. split; [exact Hsorted|]. split; [|split].
  - apply (proj1 (aggregator_idempotent (BillSamples.opts 10) _) Hnd Hsorted).
    by vm_compute.
  - rewrite (proj1 (proj1 (proj2 (aggregator_idempotent (BillSamples.opts 2)
      [BillSamples.march; BillSamples.march_again; BillSamples.april;
       BillSamples.undated])) ltac:(by vm_compute))).
    by vm_compute.
  - apply (proj2 (proj2 (aggregator_idempotent (BillSamples.opts 2)
                           [BillSamples.march]))).
    reflexivity.
Defined.

(** * Properties of the summary *)

Lemma date_ltb_spec d1 d2 :
  PyDate.ltb d1 d2 = true ↔
  (PyDate.year d1 < PyDate.year d2
   ∨ (PyDate.year d1 = PyDate.year d2
      ∧ (PyDate.month d1 < PyDate.month d2
         ∨ (PyDate.month d1 = PyDate.month d2
            ∧ PyDate.day d1 < PyDate.day d2))))%Z.
Proof.
  unfold PyDate.ltb.
  rewrite !orb_true_iff, !andb_true_iff, !orb_true_iff, !andb_true_iff.
  rewrite !Z.ltb_lt, !Z.eqb_eq. tauto.
Qed.

Lemma date_ltb_false d1 d2 :
  PyDate.ltb d1 d2 = false ↔ ¬ (PyDate.ltb d1 d2 = true).
Proof. by destruct (PyDate.ltb d1 d2). Qed.

(** A later-or-equal date stays so against a strictly earlier one. *)
Lemma date_ltb_chain d' d d1 :
  PyDate.ltb d' d = false → PyDate.ltb d1 d = true →
  PyDate.ltb d' d1 = false ∧ PyDate.ltb d1 d' = true.
Proof.
  rewrite !date_ltb_false, !date_ltb_spec. lia.
Qed.

Lemma date_ltb_irrefl d : PyDate.ltb d d = false.
Proof. rewrite date_ltb_false, date_ltb_spec. lia. Qed.

Section SummaryFacts.
Context `{Runtime}.

Lemma fold_summary_by_provider bills a p :
  Coordinator.a_by_provider (fold_left Coordinator.summary_step bills a) !! p
  = (if Nat.eqb (count_provider p bills) 0
     then Coordinator.a_by_provider a !! p
     else Some (default 0 (Coordinator.a_by_provider a !! p)
                + count_provider p bills)).
Proof.
  revert a. unfold count_provider.
  induction bills as [|b bills IH]; intros a; [done|].
  cbn [fold_left]. rewrite IH. cbn [Coordinator.summary_step
    Coordinator.a_by_provider]. fold (provider_of b).
  rewrite filter_cons. destruct (decide (provider_of b = p)) as [->|Hne].
  - rewrite lookup_insert_eq. cbn [length default].
    destruct (Nat.eqb (length _) 0) eqn:Hz.
    + cbn [Nat.eqb]. apply Nat.eqb_eq in Hz. rewrite Hz.
      apply (f_equal Some). lia.
    + cbn [Nat.eqb]. apply (f_equal Some). unfold id. lia.
  - by rewrite lookup_insert_ne.
Qed.

Lemma fold_summary_total bills a :
  Coordinator.a_total_amount (fold_left Coordinator.summary_step bills a)
  = fold_left PyFloat.add (amounts bills) (Coordinator.a_total_amount a).
Proof.
  revert a. induction bills as [|b bills IH]; intros a; [done|].
  cbn [fold_left]. rewrite IH. unfold amounts. cbn [omap list_omap].
  cbn [Coordinator.summary_step Coordinator.a_total_amount].
  by destruct (Bill.amount_due_value b).
Qed.

Lemma fold_summary_overdue bills a :
  Coordinator.a_overdue (fold_left Coordinator.summary_step bills a)
  = Coordinator.a_overdue a
    + length (filter (fun b => Bill.status b = "overdue") bills).
Proof.
  revert a. induction bills as [|b bills IH]; intros a; [simpl; lia|].
  cbn [fold_left]. rewrite IH. rewrite filter_cons.
  cbn [Coordinator.summary_step Coordinator.a_overdue].
  destruct (String.eqb_spec (Bill.status b) "overdue") as [Heq|Hne].
  - rewrite decide_True by done. simpl. lia.
  - by rewrite decide_False by done.
Qed.

Lemma fold_summary_next_due bills a :
  Coordinator.a_next_due (fold_left Coordinator.summary_step bills a)
  = fold_min (Coordinator.a_next_due a) (due_dates bills).
Proof.
  revert a. unfold fold_min, due_dates.
  induction bills as [|b bills IH]; intros a; [done|].
  cbn [fold_left]. rewrite IH. cbn [omap list_omap].
  cbn [Coordinator.summary_step Coordinator.a_next_due]. unfold if_truthy.
  destruct (Bill.due_date_iso b) as [iso|]; [|done]. simpl.
  by destruct (Py.truthy iso).
Qed.

Lemma due_dates_truthy bills c : c ∈ due_dates bills → Py.truthy c = true.
Proof.
  unfold due_dates. rewrite list_elem_of_omap. intros (b & _ & Hc).
  unfold if_truthy in Hc. destruct (Bill.due_date_iso b) as [iso|]; [|done].
  simpl in Hc. destruct (Py.truthy iso) eqn:Ht; [|done]. by injection Hc as <-.
Qed.

(** The loop keeps the earliest date seen so far, and of equal dates the
    first. *)
Lemma fold_min_earliest pre rest i c d :
  pre !! i = Some c → fromisoformat c = Some d → Py.truthy c = true →
  Forall (fun c' => Py.truthy c' = true) rest →
  (∀ j c' d', pre !! j = Some c' → fromisoformat c' = Some d' →
              PyDate.ltb d' d = false ∧ (j < i → PyDate.ltb d d' = true)) →
  earliest_first (pre ++ rest) (fold_min (Some c) rest).
Proof.
  revert pre i c d.
  induction rest as [|c1 rest IH]; intros pre i c d Hi Hd Ht Hrest Hmin.
  - rewrite app_nil_r. by exists i, c, d.
  - unfold fold_min. cbn [fold_left]. fold (fold_min (Some
      (Coordinator._min_iso_date (Some c) c1)) rest).
    replace (pre ++ c1 :: rest) with ((pre ++ [c1]) ++ rest)
      by (by rewrite <- app_assoc).
    pose proof (lookup_lt_Some _ _ _ Hi) as Hlt.
    apply Forall_cons in Hrest as [Ht1 Hrest].
    unfold Coordinator._min_iso_date. rewrite Ht, Hd. cbn [negb].
    destruct (fromisoformat c1) as [d1|] eqn:Hd1.
    + destruct (PyDate.ltb d1 d) eqn:Hlt1.
      * apply (IH (pre ++ [c1]) (length pre) c1 d1).
        -- by rewrite lookup_app_r, Nat.sub_diag by lia.
        -- done.
        -- done.
        -- done.
        -- intros j c' d' Hj Hd'.
           destruct (decide (j < length pre)) as [Hjl|Hjl].
           ++ rewrite lookup_app_l in Hj by done.
              destruct (Hmin j c' d' Hj Hd') as [Hge _].
              destruct (date_ltb_chain d' d d1 Hge Hlt1) as [? ?]. by split.
           ++ pose proof (lookup_lt_Some _ _ _ Hj) as Hjlt.
              rewrite length_app in Hjlt. simpl in Hjlt.
              assert (j = length pre) as -> by lia.
              rewrite lookup_app_r, Nat.sub_diag in Hj by lia.
              injection Hj as <-. rewrite Hd1 in Hd'. injection Hd' as <-.
              split; [apply date_ltb_irrefl | lia].
      * apply (IH (pre ++ [c1]) i c d);
          [by apply lookup_app_l_Some|done|done|done|].
        intros j c' d' Hj Hd'.
        destruct (decide (j < length pre)) as [Hjl|Hjl].
        -- rewrite lookup_app_l in Hj by done. by apply (Hmin j c' d').
        -- pose proof (lookup_lt_Some _ _ _ Hj) as Hjlt.
           rewrite length_app in Hjlt. simpl in Hjlt.
           assert (j = length pre) as -> by lia.
           rewrite lookup_app_r, Nat.sub_diag in Hj by lia.
           injection Hj as <-. rewrite Hd1 in Hd'. injection Hd' as <-.
           split; [done | lia].
    + apply (IH (pre ++ [c1]) i c d);
        [by apply lookup_app_l_Some|done|done|done|].
      intros j c' d' Hj Hd'.
      destruct (decide (j < length pre)) as [Hjl|Hjl].
      * rewrite lookup_app_l in Hj by done. by apply (Hmin j c' d').
      * pose proof (lookup_lt_Some _ _ _ Hj) as Hjlt.
        rewrite length_app in Hjlt. simpl in Hjlt.
        assert (j = length pre) as -> by lia.
        rewrite lookup_app_r, Nat.sub_diag in Hj by lia.
        injection Hj as <-. by rewrite Hd1 in Hd'.
Qed.

(** A date held that does not parse is never given up. *)
Lemma fold_min_unparsable c dues :
  Py.truthy c = true → fromisoformat c = None →
  fold_min (Some c) dues = Some c.
Proof.
  intros Ht Hd. unfold fold_min.
  induction dues as [|c' dues IH]; [done|]. cbn [fold_left].
  unfold Coordinator._min_iso_date at 2. by rewrite Ht, Hd.
Qed.

End SummaryFacts.

(** ** C7: the summary *)

(** C7 as stated fails when the first due date of the list does not parse:
    of two bills due "TBD" and 2025-03-20, in that order, the summary's
    next due date is "TBD", which is not the earliest due date of the
    bills; the earliest is 2025-03-20. *)
Lemma build_summary_keeps_unparsable_first_due_date :
  ¬ (∀ bills,
       due_dates bills ≠ [] →
       @earliest_first Samples.runtime (due_dates bills)
         (Coordinator.next_due_date
            (@Coordinator._build_summary Samples.runtime bills)))
  ∧ due_dates [BillSamples.unparsable; BillSamples.march]
    = ["TBD"; "2025-03-20"]
  ∧ Coordinator.next_due_date
      (@Coordinator._build_summary Samples.runtime
         [BillSamples.unparsable; BillSamples.march]) = Some "TBD"
  ∧ @earliest_first Samples.runtime ["TBD"; "2025-03-20"] (Some "2025-03-20").
Proof.
  split; [|split; [by vm_compute|split; [by vm_compute|]]].
  - intros Hclaim.
    destruct (Hclaim [BillSamples.unparsable; BillSamples.march]
                ltac:(by vm_compute)) as (i & c & d & _ & Hres & Hd & _).
    vm_compute in Hres. injection Hres as <-. vm_compute in Hd.
    discriminate Hd.
  - exists 1, "2025-03-20",
      {| PyDate.year := 2025; PyDate.month := 3; PyDate.day := 20 |}.
    split; [done|]. split; [done|]. split; [by vm_compute|].
    intros [|[|j]] c' d' Hj Hd'; [| |done].
    + injection Hj as <-. vm_compute in Hd'. discriminate Hd'.
    + injection Hj as <-. vm_compute in Hd'. injection Hd' as <-.
      split; [by vm_compute|lia].
Qed.

(** C7 (amended): for every list of bills, the summary of [_build_summary]
    maps each provider to the number of bills of that provider (a bill
    without the key counts for "Unknown"; a provider without bills is not in
    the map); its total is the sum of the numeric amounts, added as floats
    in list order, rounded to two decimals, and 0.0 when that sum is zero,
    in particular when no bill has an amount; its next due date is null
    when no bill has a due date; when the first due date in list order
    parses, it is the earliest of the due dates that parse, the first in
    list order among equal dates (a tie or an unparsable candidate keeps
    the one held); when the first due date in list order does not parse,
    it is that first due date, whatever the later ones are; its overdue
    count is the number of bills whose status is "overdue". *)
Theorem build_summary_spec `{Runtime} (bills : list Bill.t) :
  (∀ p, Coordinator.by_provider (Coordinator._build_summary bills) !! p
        = (if Nat.eqb (count_provider p bills) 0 then None
           else Some (count_provider p bills)))
  ∧ Coordinator.total_amount_due (Coordinator._build_summary bills)
    = (if PyFloat.truthy (float_sum (amounts bills))
       then PyFloat.round (float_sum (amounts bills)) 2
       else PyFloat.zero)
  ∧ (amounts bills = [] →
     Coordinator.total_amount_due (Coordinator._build_summary bills)
     = PyFloat.zero)
  ∧ (due_dates bills = [] →
     Coordinator.next_due_date (Coordinator._build_summary bills) = None)
  ∧ (∀ c0 d0, head (due_dates bills) = Some c0 → fromisoformat c0 = Some d0 →
              earliest_first (due_dates bills)
                (Coordinator.next_due_date (Coordinator._build_summary bills)))
  ∧ (∀ c0, head (due_dates bills) = Some c0 → fromisoformat c0 = None →
           Coordinator.next_due_date (Coordinator._build_summary bills)
           = Some c0)
  ∧ (∀ existing candidate,
       Py.truthy existing = true → fromisoformat candidate = None →
       Coordinator._min_iso_date (Some existing) candidate = existing)
  ∧ (∀ existing candidate d,
       Py.truthy existing = true → fromisoformat existing = Some d →
       fromisoformat candidate = Some d →
       Coordinator._min_iso_date (Some existing) candidate = existing)
  ∧ Coordinator.overdue_count (Coordinator._build_summary bills)
    = length (filter (fun b => Bill.status b = "overdue") bills).
Proof.
  assert (Hunparsable : ∀ existing candidate,
            Py.truthy existing = true → fromisoformat candidate = None →
            Coordinator._min_iso_date (Some existing) candidate = existing).
  { intros existing candidate Ht Hc. unfold Coordinator._min_iso_date.
    rewrite Ht, Hc. cbn [negb]. by destruct (fromisoformat existing). }
  assert (Htie : ∀ existing candidate d,
            Py.truthy existing = true → fromisoformat existing = Some d →
            fromisoformat candidate = Some d →
            Coordinator._min_iso_date (Some existing) candidate = existing).
  { intros existing candidate d Ht He Hc. unfold Coordinator._min_iso_date.
    rewrite Ht, He, Hc. cbn [negb]. by rewrite date_ltb_irrefl. }
  unfold Coordinator._build_summary.
  cbn [Coordinator.by_provider Coordinator.total_amount_due
         Coordinator.next_due_date Coordinator.overdue_count].
  rewrite fold_summary_total, fold_summary_next_due, fold_summary_overdue.
  cbn [Coordinator.a_total_amount Coordinator.a_next_due Coordinator.a_overdue].
  fold (float_sum (amounts bills)).
  split; [|split; [done|split; [|split; [|split; [|split;
    [|by repeat split]]]]]].
  - intros p. rewrite fold_summary_by_provider.
    cbn [Coordinator.a_by_provider]. rewrite lookup_empty.
    by destruct (Nat.eqb _ 0).
  - by intros ->.
  - by intros ->.
  - intros c0 d0 Hhead Hd0.
    pose proof (due_dates_truthy bills) as Htruthy.
    destruct (due_dates bills) as [|c rest]; [done|].
    injection Hhead as ->. unfold fold_min. cbn [fold_left].
    fold (fold_min (Some (Coordinator._min_iso_date None c0)) rest).
    apply (fold_min_earliest [c0] rest 0 c0 d0); [done|done| | |].
    + apply Htruthy. by left.
    + apply Forall_forall. intros c' Hc'. apply Htruthy. by right.
    + intros [|j] c' d' Hj Hd'; [|done].
      injection Hj as <-. rewrite Hd0 in Hd'. injection Hd' as <-.
      split; [apply date_ltb_irrefl | lia].
  - intros c0 Hhead Hd0.
    pose proof (due_dates_truthy bills) as Htruthy.
    destruct (due_dates bills) as [|c rest]; [done|].
    injection Hhead as ->. unfold fold_min. cbn [fold_left].
    cbn [Coordinator._min_iso_date].
    apply fold_min_unparsable; [|done]. apply Htruthy. by left.
Qed.

(** C7 at a sample: four bills, two due on the same earliest day and one
    whose due date does not parse; a bill with neither amount nor due
    date; two bills of which the first has a due date that does not
    parse. *)
Lemma build_summary_spec_witness :
  @Coordinator.next_due_date
    (@Coordinator._build_summary Samples.runtime
       [BillSamples.april; BillSamples.march; BillSamples.unparsable;
        BillSamples.tie]) = Some "2025-03-20"
  ∧ @earliest_first Samples.runtime
      ["2025-04-15"; "2025-03-20"; "TBD"; "2025-03-20"] (Some "2025-03-20")
  ∧ @Coordinator.total_amount_due
      (@Coordinator._build_summary Samples.runtime [BillSamples.undated])
    = PyFloat.zero
  ∧ @Coordinator.next_due_date
      (@Coordinator._build_summary Samples.runtime [BillSamples.undated])
    = None
  ∧ @Coordinator._min_iso_date Samples.runtime (Some "2025-03-20") "TBD"
    = "2025-03-20"
  ∧ @Coordinator._min_iso_date Samples.runtime (Some "2025-03-20")
      "2025-03-20" = "2025-03-20"
  ∧ @Coordinator.next_due_date
      (@Coordinator._build_summary Samples.runtime
         [BillSamples.unparsable; BillSamples.march]) = Some "TBD".
Proof.
  pose proof (@build_summary_spec Samples.runtime
                [BillSamples.unparsable; BillSamples.march])
    as (_ & _ & _ & _ & _ & Hfirst & _).
  pose proof (@build_summary_spec Samples.runtime
                [BillSamples.april; BillSamples.march; BillSamples.unparsable;
                 BillSamples.tie])
    as (_ & _ & _ & _ & Hearliest & _ & Hbad & Htie & _).
  pose proof (@build_summary_spec Samples.runtime [BillSamples.undated])
    as (_ & _ & Hzero & Hnone & _).
  split; [by vm_compute|]. split; [|split; [|split; [|split; [|split]]]].
  - exact (Hearliest "2025-04-15"
             {| PyDate.year := 2025; PyDate.month := 4; PyDate.day := 15 |}
             eq_refl eq_refl).
  - exact (Hzero eq_refl).
  - exact (Hnone eq_refl).
  - exact (Hbad "2025-03-20" "TBD" eq_refl eq_refl).
  - exact (Htie "2025-03-20" "2025-03-20"
             {| PyDate.year := 2025; PyDate.month := 3; PyDate.day := 20 |}
             eq_refl eq_refl eq_refl).
  - exact (Hfirst "TBD" eq_refl eq_refl).
Defined.

(** ** C8: amounts *)

Lemma search_group_truthy pattern text v :
  DukeEnergy._search_group pattern text = Some v → Py.truthy v = true.
Proof.
  unfold DukeEnergy._search_group, Py.or_none.
  destruct (Re.search pattern text) as [m|]; [|done].
  destruct (Py.truthy _) eqn:Ht; [|done]. by intros [= <-].
Qed.

Lemma parse_amount_truthy v :
  Py.truthy v = true →
  DukeEnergy._parse_amount (Some v)
  = (Some (with_dollar v), PyFloat.of_str (Py.replace "," "" v)).
Proof.
  intros Ht. unfold DukeEnergy._parse_amount, with_dollar. rewrite Ht.
  cbn [negb]. by destruct (Py.startswith v "$").
Qed.

(** C8: [_parse_amount] on "1,234.56" gives the float 1234.56 and the
    display "$1,234.56"; on every captured string (never empty), and on
    every non-empty string, the numeric field is what [float] makes of the
    string without its commas, null when [float] refuses it, and the
    display is the string with a "$" in front unless it has one.  The
    copies of the function in the other extractors are the same
    function. *)
Theorem parse_amount_spec :
  DukeEnergy._parse_amount (Some "1,234.56")
  = (Some "$1,234.56", Some BillSamples.f1234_56)
  ∧ float_of_fraction BillSamples.f1234_56 123456 100
  ∧ (∀ pattern text v,
       DukeEnergy._search_group pattern text = Some v →
       DukeEnergy._parse_amount (Some v)
       = (Some (with_dollar v), PyFloat.of_str (Py.replace "," "" v)))
  ∧ (∀ v, v ≠ "" →
          DukeEnergy._parse_amount (Some v)
          = (Some (with_dollar v), PyFloat.of_str (Py.replace "," "" v)))
  ∧ PsncEnergy._parse_amount = DukeEnergy._parse_amount
  ∧ RaleighWater._parse_amount = DukeEnergy._parse_amount.
Proof.
  split; [by vm_compute|]. split; [by vm_compute|].
  split; [|split; [|by split]].
  - intros pattern text v Hv. apply parse_amount_truthy.
    by apply search_group_truthy in Hv.
  - intros v Hv. apply parse_amount_truthy. by destruct v.
Qed.

(** C8 at samples: the amount captured from "Amount Due: $1,234.56", and a
    captured string [float] refuses. *)
Lemma parse_amount_spec_witness :
  DukeEnergy._search_group DukeEnergy.AMOUNT_DUE_RE "Amount Due: $1,234.56"
  = Some "1,234.56"
  ∧ DukeEnergy._parse_amount (Some "1,234.56")
    = (Some "$1,234.56", Some BillSamples.f1234_56)
  ∧ DukeEnergy._search_group DukeEnergy.AMOUNT_DUE_RE "Amount Due: $,"
    = Some ","
  ∧ DukeEnergy._parse_amount (Some ",") = (Some "$,", None).
Proof.
  assert (H1 : DukeEnergy._search_group DukeEnergy.AMOUNT_DUE_RE
                 "Amount Due: $1,234.56" = Some "1,234.56") by (by vm_compute).
  assert (H2 : DukeEnergy._search_group DukeEnergy.AMOUNT_DUE_RE
                 "Amount Due: $," = Some ",") by (by vm_compute).
  split; [exact H1|]. split; [|split; [exact H2|]].
  - rewrite (proj1 (proj2 (proj2 parse_amount_spec)) _ _ _ H1).
    by vm_compute.
  - rewrite (proj1 (proj2 (proj2 (proj2 parse_amount_spec))) ","
               ltac:(discriminate)).
    by vm_compute.
Defined.
(** * Further properties: strings *)

Lemma chars_str l : Py.chars (Py.str l) = l.
Proof. apply String.list_ascii_of_string_of_list_ascii. Qed.

Lemma str_chars s : Py.str (Py.chars s) = s.
Proof. apply String.string_of_list_ascii_of_string. Qed.

Lemma lstrip_idem l : Py.lstrip_chars (Py.lstrip_chars l) = Py.lstrip_chars l.
Proof.
  induction l as [|c l IH]; simpl; [done|].
  destruct (Py.isspace c) eqn:Hc; [done|]. simpl. by rewrite Hc.
Qed.

Lemma lstrip_head l c l' :
  Py.lstrip_chars l = c :: l' → Py.isspace c = false.
Proof.
  induction l as [|x l IH]; simpl; [done|].
  destruct (Py.isspace x) eqn:Hx; [done|]. by intros [= <- _].
Qed.

Lemma lstrip_nonspace c l :
  Py.isspace c = false → Py.lstrip_chars (c :: l) = c :: l.
Proof. intros Hc. simpl. by rewrite Hc. Qed.

Lemma lstrip_snoc l c :
  Py.isspace c = false →
  Py.lstrip_chars (l ++ [c]) = Py.lstrip_chars l ++ [c].
Proof.
  intros Hc. induction l as [|x l IH]; simpl; [by rewrite Hc|].
  by destruct (Py.isspace x).
Qed.

(** The characters [strip] leaves: nothing, or a first and a last
    character that are no whitespace. *)
Lemma strip_chars_shape l :
  Py.strip_chars l = []
  ∨ ∃ c mid, Py.isspace c = false
             ∧ Py.strip_chars l = c :: mid
             ∧ Py.lstrip_chars (rev (c :: mid)) = rev (c :: mid).
Proof.
  unfold Py.strip_chars.
  destruct (Py.lstrip_chars l) as [|c a'] eqn:Ha; [by left|].
  right. pose proof (lstrip_head _ _ _ Ha) as Hc.
  exists c, (rev (Py.lstrip_chars (rev a'))). split; [done|].
  assert (Hrev : ∀ x, rev (c :: x) = rev x ++ [c]) by done.
  split.
  - by rewrite Hrev, (lstrip_snoc _ _ Hc), rev_app_distr.
  - by rewrite Hrev, rev_involutive, (lstrip_snoc _ _ Hc), lstrip_idem.
Qed.

Lemma strip_chars_idem l :
  Py.strip_chars (Py.strip_chars l) = Py.strip_chars l.
Proof.
  destruct (strip_chars_shape l) as [->|(c & mid & Hc & -> & Hrev)]; [done|].
  unfold Py.strip_chars. rewrite (lstrip_nonspace _ _ Hc), Hrev.
  apply rev_involutive.
Qed.

Lemma strip_idem s : Py.strip (Py.strip s) = Py.strip s.
Proof. unfold Py.strip. by rewrite chars_str, strip_chars_idem. Qed.

Lemma strip_is_stripped s : is_stripped (Py.strip s).
Proof. apply strip_idem. Qed.

(** ** X1: captured values *)

(** X1: whatever [_search_group] returns, for any pattern and any text, is
    a non-empty string without whitespace at either end; the copies of the
    function in the three structured extractors agree. *)
Theorem search_group_stripped (pattern : Re.pattern) (text v : string) :
  DukeEnergy._search_group pattern text = Some v →
  v ≠ "" ∧ Py.strip v = v
  ∧ PsncEnergy._search_group pattern text = Some v
  ∧ RaleighWater._search_group pattern text = Some v.
Proof.
  intros Hv. split; [|split; [|by split]].
  - apply search_group_truthy in Hv. by destruct v.
  - revert Hv. unfold DukeEnergy._search_group, Py.or_none.
    destruct (Re.search pattern text) as [m|]; [|done].
    destruct (Py.truthy _); [|done]. intros [= <-]. apply strip_idem.
Qed.

Lemma search_group_stripped_witness :
  DukeEnergy._search_group DukeEnergy.ACCOUNT_RE
    "Account Number:   123-456   and more" = Some "123-456"
  ∧ Py.strip "123-456" = "123-456".
Proof.
  assert (Hv : DukeEnergy._search_group DukeEnergy.ACCOUNT_RE
                 "Account Number:   123-456   and more" = Some "123-456")
    by (by vm_compute).
  split; [exact Hv|].
  exact (proj1 (proj2 (search_group_stripped _ _ _ Hv))).
Defined.
(** * Further properties: the matcher on single characters and their
    repetitions *)

Lemma rmatch_rep ic a lo hi st k :
  Re.rmatch ic (Re.Rep a lo hi) st k
  = rep_loop ic a lo hi k (S (length (Re.ms_rest st))) 0 st.
Proof. reflexivity. Qed.

Lemma rmatch_cset ic neg items st k :
  Re.rmatch ic (Re.CSet neg items) st k
  = Re.step st (class_test ic neg items) k.
Proof. reflexivity. Qed.

Section StepPatterns.
Context (ic : bool) (a : Re.regex) (ok : ascii → bool).
Context (Ha : ∀ st k, Re.rmatch ic a st k = Re.step st ok k).

(** The greedy loop over an expression that takes one character of a class
    takes the whole leading run. *)
Lemma rep_loop_step fuel count st :
  length (Re.ms_rest st) < fuel →
  (1 ≤ count + run_length ok (Re.ms_rest st) →
   ∃ st', rep_loop ic a 1 None Some fuel count st = Some st'
          ∧ Re.ms_pos st' = Re.ms_pos st + run_length ok (Re.ms_rest st))
  ∧ (count + run_length ok (Re.ms_rest st) = 0 →
     rep_loop ic a 1 None Some fuel count st = None).
Proof using Ha.
  revert count st. induction fuel as [|fuel IH]; intros count st Hfuel; [lia|].
  cbn [rep_loop Re.at_max]. rewrite Ha. unfold Re.step.
  destruct st as [prev rest pos caps]. cbn [Re.ms_rest Re.ms_pos] in *.
  destruct rest as [|c rest].
  { cbn [run_length]. split.
    - intros Hc. destruct count; [lia|]. cbn. eexists. split; [done|].
      cbn. lia.
    - intros Hc. by assert (count = 0) as -> by lia. }
  cbn [run_length]. destruct (ok c) eqn:Hc.
  - cbn [Re.advance Re.ms_pos].
    rewrite (proj2 (Nat.ltb_lt pos (S pos))) by lia.
    destruct (IH (S count) (Re.advance
                {| Re.ms_prev := prev; Re.ms_rest := c :: rest;
                   Re.ms_pos := pos; Re.ms_caps := caps |} c rest))
      as [Hsome _]; [cbn in *; lia|].
    destruct Hsome as (st' & Hst' & Hpos); [lia|].
    cbn [Re.advance Re.ms_pos Re.ms_rest] in *. rewrite Hst'. split.
    + intros _. exists st'. split; [done|]. lia.
    + lia.
  - split.
    + intros Hcount. destruct count; [lia|]. cbn. eexists. split; [done|].
      cbn. lia.
    + intros Hcount. by assert (count = 0) as -> by lia.
Qed.

End StepPatterns.


Section CollapseFacts.
Context (ok : ascii → bool).

Lemma collapse_in_run repl l :
  collapse_runs ok repl true l
  = collapse_runs ok repl false (drop (run_length ok l) l).
Proof.
  induction l as [|c l IH]; [done|]. cbn [collapse_runs run_length].
  destruct (ok c) eqn:Hc; [done|]. cbn [drop collapse_runs]. by rewrite Hc.
Qed.

Lemma collapse_no_class repl l :
  run_length (outside ok) l = length l → collapse_runs ok repl false l = l.
Proof.
  induction l as [|c l IH]; [done|]. cbn [collapse_runs run_length length].
  change (outside ok c) with (negb (ok c)).
  destruct (ok c); cbn [negb]; [done|].
  intros [= Hl]. by rewrite (IH Hl).
Qed.

Lemma collapse_first_run repl l :
  run_length (outside ok) l < length l →
  collapse_runs ok repl false l
  = take (run_length (outside ok) l) l ++ repl
    ++ collapse_runs ok repl false
         (drop (run_length (outside ok) l
                + run_length ok (drop (run_length (outside ok) l) l)) l).
Proof.
  induction l as [|c l IH]; cbn [length]; [lia|].
  cbn [collapse_runs run_length].
  change (outside ok c) with (negb (ok c)).
  destruct (ok c) eqn:Hc; cbn [negb].
  - intros _. cbn [take drop app run_length Nat.add]. rewrite Hc.
    cbn [drop]. by rewrite collapse_in_run.
  - intros Hlt. cbn [take drop Nat.add]. rewrite IH by lia. done.
Qed.

Lemma run_length_le l : run_length ok l ≤ length l.
Proof.
  induction l as [|c l IH]; cbn [run_length length]; [lia|].
  destruct (ok c); lia.
Qed.

Lemma run_length_class_pos l :
  run_length (outside ok) l < length l →
  1 ≤ run_length ok (drop (run_length (outside ok) l) l).
Proof.
  induction l as [|c l IH]; cbn [length run_length]; [lia|].
  change (outside ok c) with (negb (ok c)).
  destruct (ok c) eqn:Hc; cbn [negb].
  - intros _. cbn [drop run_length]. rewrite Hc. lia.
  - intros Hlt. cbn [drop]. apply IH. lia.
Qed.

End CollapseFacts.

Section ClassRunSub.
Context (p : Re.pattern) (a : Re.regex) (ok : ascii → bool).
Context (Hast : Re.re_ast p = Re.Rep a 1 None).
Context (Ha : ∀ st k, Re.rmatch (Re.re_ignorecase p) a st k = Re.step st ok k).

(** The search stops at the first character of the class and the match
    runs to the end of its run. *)
Lemma search_class_run subject prev rest pos :
  (run_length (outside ok) rest = length rest →
   Re.search_from p subject prev rest pos = None)
  ∧ (run_length (outside ok) rest < length rest →
     ∃ m, Re.search_from p subject prev rest pos = Some m
          ∧ Re.m_start m = pos + run_length (outside ok) rest
          ∧ Re.m_end m
            = pos + run_length (outside ok) rest
              + run_length ok (drop (run_length (outside ok) rest) rest)).
Proof using Hast Ha.
  revert prev pos. induction rest as [|c rest IH]; intros prev pos.
  - split; [|cbn; lia]. intros _. cbn [Re.search_from]. rewrite Hast.
    rewrite rmatch_rep. cbn [Re.ms_rest].
    pose proof (rep_loop_step (Re.re_ignorecase p) a ok Ha
      (S (length (@nil ascii))) 0
      {| Re.ms_prev := prev; Re.ms_rest := []; Re.ms_pos := pos;
         Re.ms_caps := [] |} ltac:(cbn; lia)) as [_ Hnone].
    by rewrite (Hnone eq_refl).
  - cbn [Re.search_from]. rewrite Hast, rmatch_rep. cbn [Re.ms_rest].
    pose proof (rep_loop_step (Re.re_ignorecase p) a ok Ha
      (S (length (c :: rest))) 0
      {| Re.ms_prev := prev; Re.ms_rest := c :: rest; Re.ms_pos := pos;
         Re.ms_caps := [] |} ltac:(cbn; lia)) as [Hsome Hnone].
    cbn [Re.ms_rest Re.ms_pos run_length length] in Hsome, Hnone |- *.
    change (outside ok c) with (negb (ok c)).
    destruct (ok c) eqn:Hc; cbn [negb].
    + destruct Hsome as (st' & -> & Hpos); [lia|]. split; [lia|].
      intros _. eexists. split; [done|]. cbn [Re.m_start Re.m_end drop].
      cbn [run_length]. rewrite Hc. lia.
    + rewrite (Hnone eq_refl). destruct (IH (Some c) (S pos)) as [IHn IHs].
      split.
      * intros [= Hl]. by apply IHn.
      * intros Hlt. destruct IHs as (m & -> & Hs & He); [lia|].
        exists m. split; [done|]. cbn [drop]. lia.
Qed.

(** [re.sub] with a pattern [[...]+]: every run of the class becomes the
    replacement. *)
Lemma sub_from_class_run fuel repl subject prev rest pos :
  length rest < fuel →
  Re.sub_from fuel p repl subject prev rest pos
  = collapse_runs ok repl false rest.
Proof using Hast Ha.
  revert prev rest pos. induction fuel as [|fuel IH]; intros prev rest pos Hlt;
    [lia|].
  cbn [Re.sub_from].
  destruct (search_class_run subject prev rest pos) as [Hnone Hsome].
  destruct (decide (run_length (outside ok) rest = length rest)) as [Hall|Hnot].
  - rewrite (Hnone Hall). by rewrite collapse_no_class.
  - pose proof (run_length_le (outside ok) rest) as Hle.
    destruct Hsome as (m & -> & Hs & He); [lia|].
    pose proof (run_length_class_pos ok rest ltac:(lia)) as Hpos.
    rewrite (proj2 (Nat.ltb_lt (Re.m_start m) (Re.m_end m))) by lia.
    rewrite (collapse_first_run ok) by lia.
    replace (Re.m_start m - pos) with (run_length (outside ok) rest) by lia.
    replace (Re.m_end m - pos)
      with (run_length (outside ok) rest
            + run_length ok (drop (run_length (outside ok) rest) rest)) by lia.
    f_equal. f_equal. apply IH. rewrite length_drop. lia.
Qed.

Lemma sub_class_run repl text :
  Re.sub p repl text
  = Py.str (collapse_runs ok (Py.chars repl) false (Py.chars text)).
Proof using Hast Ha. unfold Re.sub. rewrite sub_from_class_run; [done|lia]. Qed.

End ClassRunSub.

Section ClassSub.
Context (p : Re.pattern) (ok : ascii → bool).
Context (Ha : ∀ st k,
           Re.rmatch (Re.re_ignorecase p) (Re.re_ast p) st k
           = Re.step st ok k).

Lemma search_class subject prev rest pos :
  (run_length (outside ok) rest = length rest →
   Re.search_from p subject prev rest pos = None)
  ∧ (run_length (outside ok) rest < length rest →
     ∃ m, Re.search_from p subject prev rest pos = Some m
          ∧ Re.m_start m = pos + run_length (outside ok) rest
          ∧ Re.m_end m = S (pos + run_length (outside ok) rest)).
Proof using Ha.
  revert prev pos. induction rest as [|c rest IH]; intros prev pos.
  - split; [|cbn; lia]. intros _. cbn [Re.search_from]. by rewrite Ha.
  - cbn [Re.search_from]. rewrite Ha. unfold Re.step.
    cbn [Re.ms_rest Re.ms_pos run_length length].
    change (outside ok c) with (negb (ok c)).
    destruct (ok c) eqn:Hc; cbn [negb].
    + split; [lia|]. intros _. eexists. split; [done|].
      cbn [Re.m_start Re.m_end Re.advance Re.ms_pos]. lia.
    + destruct (IH (Some c) (S pos)) as [IHn IHs]. split.
      * intros [= Hl]. by apply IHn.
      * intros Hlt. destruct IHs as (m & -> & Hs & He); [lia|].
        exists m. split; [done|]. lia.
Qed.

Lemma replace_class_none repl l :
  run_length (outside ok) l = length l → replace_class ok repl l = l.
Proof.
  induction l as [|c l IH]; [done|].
  cbn [replace_class flat_map run_length length].
  change (outside ok c) with (negb (ok c)).
  destruct (ok c); cbn [negb]; [done|]. intros [= Hl].
  fold (replace_class ok repl l). by rewrite (IH Hl).
Qed.

Lemma replace_class_first repl l :
  run_length (outside ok) l < length l →
  replace_class ok repl l
  = take (run_length (outside ok) l) l ++ repl
    ++ replace_class ok repl (drop (S (run_length (outside ok) l)) l).
Proof.
  induction l as [|c l IH]; cbn [length]; [lia|].
  cbn [replace_class flat_map run_length].
  change (outside ok c) with (negb (ok c)).
  fold (replace_class ok repl l).
  destruct (ok c) eqn:Hc; cbn [negb].
  - intros _. by cbn [take drop app].
  - intros Hlt. cbn [take drop app]. rewrite IH by lia. done.
Qed.

(** [re.sub] with a pattern [[...]]: every character of the class becomes
    the replacement. *)
Lemma sub_from_class fuel repl subject prev rest pos :
  length rest < fuel →
  Re.sub_from fuel p repl subject prev rest pos = replace_class ok repl rest.
Proof using Ha.
  revert prev rest pos. induction fuel as [|fuel IH]; intros prev rest pos Hlt;
    [lia|].
  cbn [Re.sub_from].
  destruct (search_class subject prev rest pos) as [Hnone Hsome].
  destruct (decide (run_length (outside ok) rest = length rest)) as [Hall|Hnot].
  - rewrite (Hnone Hall). by rewrite replace_class_none.
  - pose proof (run_length_le (outside ok) rest) as Hle.
    destruct Hsome as (m & -> & Hs & He); [lia|].
    rewrite (proj2 (Nat.ltb_lt (Re.m_start m) (Re.m_end m))) by lia.
    rewrite replace_class_first by lia.
    replace (Re.m_start m - pos) with (run_length (outside ok) rest) by lia.
    replace (Re.m_end m - pos) with (S (run_length (outside ok) rest)) by lia.
    f_equal. f_equal. apply IH. rewrite length_drop. lia.
Qed.

Lemma sub_class repl text :
  Re.sub p repl text
  = Py.str (replace_class ok (Py.chars repl) (Py.chars text)).
Proof using Ha. unfold Re.sub. rewrite sub_from_class; [done|lia]. Qed.

End ClassSub.

(** * Further properties of the aggregation *)

(** ** The order of strings *)

Lemma string_compare_refl (s : string) : String.compare s s = Eq.
Proof.
  pose proof (String.compare_antisym s s) as Hs.
  by destruct (String.compare s s).
Qed.

Lemma string_ltb_irrefl (s : string) : String.ltb s s = false.
Proof. unfold String.ltb. by rewrite string_compare_refl. Qed.

Lemma ascii_compare_lt_trans (a b c : ascii) :
  Ascii.compare a b = Lt → Ascii.compare b c = Lt → Ascii.compare a c = Lt.
Proof.
  unfold Ascii.compare. rewrite !N.compare_lt_iff. apply N.lt_trans.
Qed.

Lemma string_compare_le_trans (s1 s2 s3 : string) :
  String.compare s1 s2 ≠ Gt → String.compare s2 s3 ≠ Gt →
  String.compare s1 s3 ≠ Gt.
Proof.
  revert s2 s3. induction s1 as [|a s1 IH]; intros [|b s2] [|c s3];
    cbn [String.compare]; try done.
  destruct (Ascii.compare a b) eqn:Hab; [| |done].
  - apply Ascii.compare_eq_iff in Hab as ->.
    destruct (Ascii.compare b c); [apply IH|done|done].
  - destruct (Ascii.compare b c) eqn:Hbc; [| |done].
    + apply Ascii.compare_eq_iff in Hbc as <-. by rewrite Hab.
    + by rewrite (ascii_compare_lt_trans _ _ _ Hab Hbc).
Qed.

Lemma string_leb_trans (s1 s2 s3 : string) :
  String.leb s1 s2 = true → String.leb s2 s3 = true →
  String.leb s1 s3 = true.
Proof.
  unfold String.leb. intros H12 H23.
  pose proof (string_compare_le_trans s1 s2 s3) as Ht.
  destruct (String.compare s1 s2), (String.compare s2 s3),
    (String.compare s1 s3); try done; by exfalso; apply Ht.
Qed.

Lemma received_ge_trans : Transitive received_ge.
Proof. intros a b c Hab Hbc. exact (string_leb_trans _ _ _ Hbc Hab). Qed.

(** ** What [_limit_bills] keeps *)

Lemma limit_bills_submseteq opts bills :
  Coordinator._limit_bills opts bills ⊆+ bills.
Proof.
  destruct (limit_bills_take opts bills) as [k ->].
  etrans; [apply sublist_submseteq, sublist_take|].
  rewrite sort_reverse_perm, deduplicate_dedup_from.
  apply sublist_submseteq, dedup_from_sublist.
Qed.

(** X2: [_limit_bills] invents nothing: for every configuration, negative
    maximum included, its output is made of bills of the input, each at
    most as often as the input has it, so it is never longer than the
    input, and an empty input gives an empty output. *)
Theorem limit_bills_from_input (opts : Coordinator.options)
  (bills : list Bill.t) :
  Coordinator._limit_bills opts bills ⊆+ bills
  ∧ Coordinator._limit_bills opts bills ⊆ bills
  ∧ length (Coordinator._limit_bills opts bills) ≤ length bills
  ∧ Coordinator._limit_bills opts [] = [].
Proof.
  pose proof (limit_bills_submseteq opts bills) as Hsub.
  split; [done|]. split; [|split; [by apply submseteq_length|done]].
  intros b Hb. by apply (elem_of_submseteq _ _ _ Hb Hsub).
Qed.

Lemma Sorted_take_drop {A} (R : A → A → Prop) `{!Transitive R} k l a b :
  Sorted R l → a ∈ take k l → b ∈ drop k l → R a b.
Proof.
  intros Hs%Sorted_StronglySorted; [|done]. revert k.
  induction Hs as [|x l Hs IH Hx]; intros k Ha Hb.
  - rewrite take_nil in Ha. by apply elem_of_nil in Ha.
  - destruct k as [|k]; [by apply elem_of_nil in Ha|].
    cbn [take drop] in Ha, Hb. apply elem_of_cons in Ha as [->|Ha].
    + rewrite list.Forall_forall in Hx. apply Hx.
      apply (elem_of_sublist _ _ _ Hb), sublist_drop.
    + by apply (IH k).
Qed.

Lemma limit_bills_split opts bills :
  ∃ k, Coordinator._limit_bills opts bills
       = take k (PyList.sort_reverse Coordinator.received_key
                   (Coordinator.deduplicate bills))
       ∧ Coordinator.deduplicate bills
         ≡ₚ Coordinator._limit_bills opts bills
            ++ drop k (PyList.sort_reverse Coordinator.received_key
                         (Coordinator.deduplicate bills)).
Proof.
  destruct (limit_bills_take opts bills) as [k Hk]. exists k.
  split; [done|]. rewrite Hk, take_drop. symmetry. apply sort_reverse_perm.
Qed.

(** X3: what [_limit_bills] cuts off is never more recent than what it
    keeps: the deduplicated bills are the output together with dropped
    ones, and every kept bill has a [received] string at least as large as
    that of every dropped bill.  This holds for every configured maximum. *)
Theorem limit_bills_keeps_most_recent (opts : Coordinator.options)
  (bills : list Bill.t) :
  ∃ dropped,
    Coordinator.deduplicate bills
    ≡ₚ Coordinator._limit_bills opts bills ++ dropped
    ∧ Forall (fun kept => Forall (received_ge kept) dropped)
        (Coordinator._limit_bills opts bills).
Proof.
  destruct (limit_bills_split opts bills) as (k & Hk & Hperm).
  eexists. split; [exact Hperm|].
  rewrite list.Forall_forall. intros kept Hkept.
  rewrite list.Forall_forall. intros late Hlate. rewrite Hk in Hkept.
  eapply (Sorted_take_drop received_ge (Transitive0 := received_ge_trans));
    [|exact Hkept|exact Hlate].
  apply (sort_reverse_sorted Coordinator.received_key).
Qed.

(** ** Bills received at the same time *)

Section SortStable.
Context {A : Type} (key : A → string) (k : string).

Lemma filter_insert_desc x l :
  filter (fun y => key y = k) (PyList.insert_desc key x l)
  = filter (fun y => key y = k) (x :: l).
Proof.
  induction l as [|y l IH]; [done|]. cbn [PyList.insert_desc].
  destruct (String.ltb (key x) (key y)) eqn:Hlt; [|done].
  rewrite filter_cons, IH. rewrite !filter_cons.
  destruct (decide (key y = k)) as [Hy|Hy]; [|done].
  destruct (decide (key x = k)) as [Hx|Hx]; [|done].
  rewrite Hx, Hy, string_ltb_irrefl in Hlt. done.
Qed.

Lemma filter_sort_reverse l :
  filter (fun y => key y = k) (PyList.sort_reverse key l)
  = filter (fun y => key y = k) l.
Proof.
  induction l as [|x l IH]; [done|]. cbn [PyList.sort_reverse].
  rewrite filter_insert_desc, !filter_cons, IH. done.
Qed.

End SortStable.

Lemma filter_take_prefix {A} (P : A → Prop) `{!∀ x, Decision (P x)} n
  (l : list A) :
  filter P (take n l) `prefix_of` filter P l.
Proof.
  exists (filter P (drop n l)). by rewrite <- filter_app, take_drop.
Qed.

(** X4: the sort is stable: the bills of the output that carry one and the
    same [received] string stand in the order the deduplicated input has
    them, and they are the first of these (all of them when nothing is cut
    off). *)
Theorem limit_bills_stable (opts : Coordinator.options) (bills : list Bill.t)
  (received : string) :
  filter (fun b => Coordinator.received_key b = received)
    (Coordinator._limit_bills opts bills)
  `prefix_of`
  filter (fun b => Coordinator.received_key b = received)
    (Coordinator.deduplicate bills).
Proof.
  destruct (limit_bills_take opts bills) as [k ->].
  rewrite <- (filter_sort_reverse Coordinator.received_key received
                (Coordinator.deduplicate bills)).
  apply filter_take_prefix.
Qed.

(** X5: a negative maximum does not empty the list: the slice
    [unique_bills[:max_messages]] then drops that many bills from the end,
    the oldest ones, so the output has [max(0, n + max_messages)] bills
    where [n] bills are left by the deduplication. *)
Theorem limit_bills_negative_maximum (opts : Coordinator.options)
  (bills : list Bill.t) :
  (max_of opts < 0)%Z → bills ≠ [] →
  Coordinator._limit_bills opts bills
  = take (length (Coordinator.deduplicate bills) - Z.to_nat (- max_of opts))
      (PyList.sort_reverse Coordinator.received_key
         (Coordinator.deduplicate bills))
  ∧ Z.of_nat (length (Coordinator._limit_bills opts bills))
    = Z.max 0 (Z.of_nat (length (Coordinator.deduplicate bills))
               + max_of opts).
Proof.
  intros Hneg Hne. unfold Coordinator._limit_bills, max_of in *.
  destruct bills as [|bill bills]; [done|].
  set (unique := Coordinator.deduplicate (bill :: bills)).
  set (m := default Const.DEFAULT_MAX_MESSAGES (Coordinator.max_messages opts))
    in *.
  pose proof (sort_reverse_length Coordinator.received_key unique) as Hlen.
  rewrite (proj2 (Z.leb_gt _ _)) by lia.
  unfold PyList.slice_to. rewrite (proj2 (Z.leb_gt 0 m)) by lia.
  rewrite Hlen.
  replace (Z.to_nat (Z.of_nat (length unique) + m))
    with (length unique - Z.to_nat (- m)) by lia.
  split; [done|]. rewrite length_take, Hlen. lia.
Qed.

Lemma limit_bills_negative_maximum_witness :
  Coordinator._limit_bills (BillSamples.opts (-1))
    [BillSamples.march; BillSamples.april; BillSamples.undated]
  = [BillSamples.april; BillSamples.march].
Proof.
  etrans;
    [exact (proj1 (limit_bills_negative_maximum (BillSamples.opts (-1))
              [BillSamples.march; BillSamples.april; BillSamples.undated]
              ltac:(vm_compute; reflexivity) ltac:(discriminate)))|].
  vm_compute. reflexivity.
Defined.

(** * Further properties of the summary *)

Section SummaryCounts.
Context `{Runtime}.

Lemma total_count_empty : total_count ∅ = 0.
Proof. unfold total_count. by rewrite map_fold_empty. Qed.

Lemma total_count_insert (m : gmap string nat) p n :
  total_count (<[p := n]> m) + default 0 (m !! p) = n + total_count m.
Proof.
  unfold total_count. destruct (m !! p) as [x|] eqn:Hp; cbn [default].
  - rewrite <- insert_delete_eq.
    rewrite (map_fold_insert_L _ _ p n (delete p m));
      [|intros; lia|apply lookup_delete_eq].
    rewrite (map_fold_delete_L _ _ p x m); [unfold id; lia|intros; lia|done].
  - rewrite (map_fold_insert_L _ _ p n m); [unfold id; lia|intros; lia|done].
Qed.

Lemma fold_summary_total_count bills a :
  total_count
    (Coordinator.a_by_provider (fold_left Coordinator.summary_step bills a))
  = total_count (Coordinator.a_by_provider a) + length bills.
Proof.
  revert a. induction bills as [|b bills IH]; intros a; cbn [fold_left length];
    [lia|].
  rewrite IH. cbn [Coordinator.summary_step Coordinator.a_by_provider].
  pose proof (total_count_insert (Coordinator.a_by_provider a)
    (default "Unknown" (Bill.provider b))
    (default 0 (Coordinator.a_by_provider a
                  !! default "Unknown" (Bill.provider b)) + 1)) as Hins.
  lia.
Qed.

Lemma fold_summary_dom bills a :
  dom (Coordinator.a_by_provider (fold_left Coordinator.summary_step bills a))
  = dom (Coordinator.a_by_provider a)
    ∪ (list_to_set (provider_of <$> bills) : gset string).
Proof.
  revert a. induction bills as [|b bills IH]; intros a; cbn [fold_left].
  - cbn. by rewrite (right_id_L ∅ (∪)).
  - rewrite IH. cbn [Coordinator.summary_step Coordinator.a_by_provider].
    rewrite dom_insert_L, fmap_cons. cbn [list_to_set].
    fold (provider_of b).
    by rewrite (comm_L (∪) {[provider_of b]}), (assoc_L (∪)).
Qed.

End SummaryCounts.

(** X6: the per-provider counts of the summary account for every bill: the
    providers listed are exactly those of the bills (["Unknown"] for a bill
    without the key), their counts add up to the number of bills, no count
    is zero, and the overdue count is at most the number of bills. *)
Theorem build_summary_counts_add_up `{Runtime} (bills : list Bill.t) :
  dom (Coordinator.by_provider (Coordinator._build_summary bills))
  = list_to_set (provider_of <$> bills)
  ∧ total_count (Coordinator.by_provider (Coordinator._build_summary bills))
    = length bills
  ∧ map_Forall (fun _ n => 0 < n)
      (Coordinator.by_provider (Coordinator._build_summary bills))
  ∧ Coordinator.overdue_count (Coordinator._build_summary bills)
    ≤ length bills.
Proof.
  unfold Coordinator._build_summary.
  cbn [Coordinator.by_provider Coordinator.overdue_count].
  split; [|split; [|split]].
  - rewrite fold_summary_dom. cbn [Coordinator.a_by_provider].
    rewrite dom_empty_L. by rewrite (left_id_L ∅ (∪)).
  - rewrite fold_summary_total_count. cbn [Coordinator.a_by_provider].
    by rewrite total_count_empty.
  - intros p n. rewrite fold_summary_by_provider.
    cbn [Coordinator.a_by_provider]. rewrite lookup_empty.
    destruct (Nat.eqb (count_provider p bills) 0) eqn:Hz; [done|].
    apply Nat.eqb_neq in Hz. intros [= <-]. cbn [default]. lia.
  - rewrite fold_summary_overdue. cbn [Coordinator.a_overdue].
    apply length_filter.
Qed.

Section NextDue.
Context `{Runtime}.

Lemma min_iso_date_cases existing candidate :
  Coordinator._min_iso_date existing candidate = candidate
  ∨ existing = Some (Coordinator._min_iso_date existing candidate).
Proof.
  unfold Coordinator._min_iso_date. destruct existing as [e|]; [|by left].
  destruct (negb (Py.truthy e)); [by left|].
  destruct (fromisoformat e) as [d|]; [|by right].
  destruct (fromisoformat candidate) as [d'|]; [|by right].
  destruct (PyDate.ltb d' d); [by left|by right].
Qed.

Lemma fold_min_cases existing dues :
  fold_min existing dues = existing
  ∨ ∃ c, fold_min existing dues = Some c ∧ c ∈ dues.
Proof.
  revert existing. unfold fold_min.
  induction dues as [|c dues IH]; intros existing; [by left|].
  cbn [fold_left].
  destruct (IH (Some (Coordinator._min_iso_date existing c)))
    as [->|(c' & -> & Hc')].
  - destruct (min_iso_date_cases existing c) as [->|<-]; [|by left].
    right. exists c. split; [done|]. by left.
  - right. exists c'. split; [done|]. by right.
Qed.

Lemma fold_min_cons existing c dues :
  ∃ c', fold_min existing (c :: dues) = Some c'.
Proof.
  unfold fold_min. cbn [fold_left].
  generalize (Coordinator._min_iso_date existing c). clear c.
  induction dues as [|c dues IH]; intros e; [by exists e|]. apply IH.
Qed.

End NextDue.

(** X7: the next due date of the summary is null exactly when no bill has a
    due date (a non-empty [due_date_iso]), and otherwise it is the
    [due_date_iso] of one of the bills: never a string made up. *)
Theorem build_summary_next_due_date `{Runtime} (bills : list Bill.t) :
  match Coordinator.next_due_date (Coordinator._build_summary bills) with
  | None => due_dates bills = []
  | Some c =>
    Py.truthy c = true
    ∧ ∃ b, b ∈ bills ∧ Bill.due_date_iso b = Some c
  end.
Proof.
  unfold Coordinator._build_summary. cbn [Coordinator.next_due_date].
  rewrite fold_summary_next_due. cbn [Coordinator.a_next_due].
  destruct (due_dates bills) as [|c0 dues] eqn:Hdues; [done|].
  destruct (fold_min_cons None c0 dues) as [c Hc]. rewrite Hc.
  destruct (fold_min_cases None (c0 :: dues)) as [Hn|(c' & Hc' & Hin)];
    [by rewrite Hc in Hn|].
  rewrite Hc in Hc'. injection Hc' as <-. rewrite <- Hdues in Hin.
  split; [by apply (due_dates_truthy bills)|].
  unfold due_dates in Hin. apply list_elem_of_omap in Hin as (b & Hb & Hiso).
  exists b. split; [done|]. unfold if_truthy in Hiso.
  by destruct (Py.otruthy (Bill.due_date_iso b)).
Qed.

(** X8: a first due date that [fromisoformat] rejects is never replaced:
    when the first bill with a due date carries a string that is no ISO
    date, that string is the next due date of the summary, whatever dates
    the later bills have. *)
Theorem build_summary_unparsable_first_due_date `{Runtime}
  (bills : list Bill.t) (c : string) (rest : list string) :
  due_dates bills = c :: rest → fromisoformat c = None →
  Coordinator.next_due_date (Coordinator._build_summary bills) = Some c.
Proof.
  intros Hdues Hd. unfold Coordinator._build_summary.
  cbn [Coordinator.next_due_date]. rewrite fold_summary_next_due, Hdues.
  cbn [Coordinator.a_next_due]. unfold fold_min. cbn [fold_left].
  cbn [Coordinator._min_iso_date]. apply fold_min_unparsable; [|done].
  apply (due_dates_truthy bills). rewrite Hdues. by left.
Qed.

Lemma build_summary_unparsable_first_due_date_witness :
  Coordinator.next_due_date
    (@Coordinator._build_summary Samples.runtime
       [BillSamples.undated; BillSamples.unparsable; BillSamples.march])
  = Some "TBD".
Proof.
  apply (@build_summary_unparsable_first_due_date Samples.runtime
           [BillSamples.undated; BillSamples.unparsable; BillSamples.march]
           "TBD" ["2025-03-20"]);
    vm_compute; reflexivity.
Defined.

(** * Further properties of the extractors *)

Lemma len_str l : Py.len (Py.str l) = length l.
Proof.
  unfold Py.len, Py.str. induction l as [|c l IH]; [done|].
  cbn. by rewrite IH.
Qed.

Lemma len_slice_to n s : Py.len (Py.slice_to n s) ≤ n.
Proof. unfold Py.slice_to. rewrite len_str, length_take. lia. Qed.

Lemma digit_isdecimal n : Py.isdecimal (PyDate.digit n) = true.
Proof.
  unfold PyDate.digit.
  pose proof (Z.mod_pos_bound n 10 ltac:(lia)) as Hb.
  set (k := (n mod 10)%Z) in *.
  assert (Hk : (k = 0 ∨ k = 1 ∨ k = 2 ∨ k = 3 ∨ k = 4 ∨ k = 5 ∨ k = 6
                ∨ k = 7 ∨ k = 8 ∨ k = 9)%Z) by lia.
  by destruct Hk as [->|[->|[->|[->|[->|[->|[->|[->|[->| ->]]]]]]]]].
Qed.

Lemma isoformat_shaped d : iso_shaped (PyDate.isoformat d).
Proof.
  unfold iso_shaped, PyDate.isoformat, PyDate.pad4, PyDate.pad2.
  do 8 eexists. split; [reflexivity|].
  repeat (constructor; [apply digit_isdecimal|]). constructor.
Qed.

Section ShapeFacts.
Context `{Runtime}.

Lemma first_format_shaped cleaned fmts iso :
  DukeEnergy.first_format cleaned fmts = Some iso → iso_shaped iso.
Proof.
  induction fmts as [|fmt fmts IH]; simpl; [done|].
  destruct (strptime cleaned fmt); [|done].
  intros [= <-]. apply isoformat_shaped.
Qed.

Lemma parse_date_iso_of_display display :
  iso_of_display display (DukeEnergy._parse_date_iso display).
Proof.
  unfold iso_of_display, DukeEnergy._parse_date_iso.
  destruct display as [value|]; [|done].
  destruct (negb (Py.truthy value)); [done|].
  destruct (DukeEnergy.first_format _ _) as [iso|] eqn:Hiso; [|done].
  split; [by apply first_format_shaped in Hiso|done].
Qed.

Lemma parse_amount_of_display value :
  amount_of_display (fst (DukeEnergy._parse_amount value))
    (snd (DukeEnergy._parse_amount value)).
Proof.
  unfold amount_of_display, DukeEnergy._parse_amount.
  destruct value as [value|]; [|done].
  destruct (negb (Py.truthy value)); [done|]. cbn [fst snd].
  destruct (Py.startswith value "$") eqn:Hs; [done|]. done.
Qed.

Lemma message_id_or_uid_nonempty email :
  Email.message_id_or_uid email ≠ IdStr "".
Proof.
  unfold Email.message_id_or_uid.
  destruct (Email.message_id email) as [[|c s]|], (Email.uid email); done.
Qed.

Lemma duke_bill_shape email b :
  DukeEnergy.parse_duke_energy email = Some b →
  carries_email email b ∧ well_formed_bill b
  ∧ Bill.from_address b = Email.from_address email.
Proof.
  unfold DukeEnergy.parse_duke_energy.
  destruct (negb (Py.contains _ _)); [done|].
  pose proof (parse_amount_of_display
    (DukeEnergy._search_group DukeEnergy.AMOUNT_DUE_RE
       (DukeEnergy._normalize (Py.or_empty (Email.body email))))) as Hamount.
  destruct (DukeEnergy._parse_amount _) as [amount_display amount_value].
  destruct (negb _); [done|]. intros [= <-].
  unfold carries_email, well_formed_bill.
  cbn [Bill.id Bill.received Bill.subject Bill.snippet Bill.amount_due
    Bill.amount_due_value Bill.due_date Bill.due_date_iso Bill.billing_date
    Bill.billing_date_iso Bill.provider Bill.from_address Bill.status
    Bill.account_number Bill.service_address Bill.customer_name Bill.from_].
  split; [done|]. split; [|done].
  split; [apply len_slice_to|]. split; [done|].
  split; [apply parse_date_iso_of_display|].
  split; [apply parse_date_iso_of_display|].
  split; [done|]. apply message_id_or_uid_nonempty.
Qed.

Lemma psnc_bill_shape email b :
  PsncEnergy.parse_psnc_energy email = Some b →
  carries_email email b ∧ well_formed_bill b
  ∧ Bill.from_address b = Email.from_address email.
Proof.
  unfold PsncEnergy.parse_psnc_energy.
  destruct (negb (existsb _ _)); [done|].
  pose proof (parse_amount_of_display
    (PsncEnergy._search_group PsncEnergy.AMOUNT_DRAFT_RE
       (PsncEnergy._normalize (Py.or_empty (Email.body email))))) as Hamount.
  change (@DukeEnergy._parse_amount) with (@PsncEnergy._parse_amount)
    in Hamount.
  destruct (PsncEnergy._parse_amount _) as [amount_display amount_value].
  destruct (negb _); [done|]. intros [= <-].
  unfold carries_email, well_formed_bill.
  cbn [Bill.id Bill.received Bill.subject Bill.snippet Bill.amount_due
    Bill.amount_due_value Bill.due_date Bill.due_date_iso Bill.billing_date
    Bill.billing_date_iso Bill.provider Bill.from_address Bill.status
    Bill.account_number Bill.service_address Bill.customer_name Bill.from_].
  split; [done|]. split; [|done].
  split; [apply len_slice_to|]. split; [done|].
  split; [apply parse_date_iso_of_display|].
  split; [done|].
  split; [done|]. apply message_id_or_uid_nonempty.
Qed.

Lemma raleigh_bill_shape email b :
  RaleighWater.parse_raleigh_water email = Some b →
  carries_email email b ∧ well_formed_bill b.
Proof.
  unfold RaleighWater.parse_raleigh_water.
  destruct (negb (Py.contains _ _) || _); [done|].
  pose proof (parse_amount_of_display
    (RaleighWater._search_group RaleighWater.AMOUNT_DUE_RE
       (RaleighWater._normalize (Py.or_empty (Email.body email)))))
    as Hamount.
  change (@DukeEnergy._parse_amount) with (@RaleighWater._parse_amount)
    in Hamount.
  destruct (RaleighWater._parse_amount _) as [amount_display amount_value].
  destruct (negb _); [done|]. intros [= <-].
  unfold carries_email, well_formed_bill.
  cbn [Bill.id Bill.received Bill.subject Bill.snippet Bill.amount_due
    Bill.amount_due_value Bill.due_date Bill.due_date_iso Bill.billing_date
    Bill.billing_date_iso Bill.provider Bill.from_address Bill.status
    Bill.account_number Bill.service_address Bill.customer_name Bill.from_].
  split; [done|].
  split; [apply len_slice_to|]. split; [done|].
  split; [apply parse_date_iso_of_display|].
  split; [done|].
  split; [done|]. apply message_id_or_uid_nonempty.
Qed.

End ShapeFacts.

(** X9: every record of the three structured extractors takes its
    identifier (the message id, else the uid; never the empty string), its
    [received] date and its stripped subject from the email; its snippet
    has at most 240 characters; a displayed amount starts with a dollar
    sign and a numeric amount comes only with a displayed one; an ISO date
    has the shape YYYY-MM-DD and comes only with a displayed date; the
    status is "due" or "overdue". *)
Theorem structured_bill_shape `{Runtime} (email : Email.t) (b : Bill.t) :
  DukeEnergy.parse_duke_energy email = Some b
  ∨ PsncEnergy.parse_psnc_energy email = Some b
  ∨ RaleighWater.parse_raleigh_water email = Some b →
  carries_email email b ∧ well_formed_bill b
  ∧ (Bill.status b = "due" ∨ Bill.status b = "overdue").
Proof.
  intros Hb.
  assert (Hstatus : Bill.status b
                    = status_of_due utcnow_date (Bill.due_date_iso b)).
  { destruct Hb as [Hd|[Hp|Hr]].
    - by apply duke_bill in Hd as (_ & _ & ?).
    - by apply psnc_bill in Hp as (_ & _ & ?).
    - by apply raleigh_bill in Hr as (_ & _ & ?). }
  assert (Hcases : Bill.status b = "due" ∨ Bill.status b = "overdue").
  { rewrite Hstatus. unfold status_of_due.
    destruct (Bill.due_date_iso b) as [iso|]; [|by left].
    destruct (fromisoformat iso) as [d|]; [|by left].
    destruct (PyDate.ltb d utcnow_date); [by right|by left]. }
  destruct Hb as [Hd|[Hp|Hr]].
  - apply duke_bill_shape in Hd as (? & ? & _). done.
  - apply psnc_bill_shape in Hp as (? & ? & _). done.
  - apply raleigh_bill_shape in Hr as (? & ?). done.
Qed.

Lemma structured_bill_shape_witness :
  ∃ b, @DukeEnergy.parse_duke_energy Samples.runtime Samples.duke_email
       = Some b
       ∧ carries_email Samples.duke_email b ∧ well_formed_bill b
       ∧ (Bill.status b = "due" ∨ Bill.status b = "overdue").
Proof.
  destruct (@DukeEnergy.parse_duke_energy Samples.runtime Samples.duke_email)
    as [b|] eqn:Hb; [|by vm_compute in Hb].
  exists b. split; [done|].
  apply (@structured_bill_shape Samples.runtime Samples.duke_email b).
  by left.
Defined.

(** X10: for the three structured extractors the status is "overdue"
    exactly when the record has an ISO due date that [fromisoformat] reads
    as a day strictly before the current UTC day; in every other case it is
    "due". *)
Theorem structured_status_overdue_iff `{Runtime} (email : Email.t)
  (b : Bill.t) :
  DukeEnergy.parse_duke_energy email = Some b
  ∨ PsncEnergy.parse_psnc_energy email = Some b
  ∨ RaleighWater.parse_raleigh_water email = Some b →
  (Bill.status b = "overdue" ↔
   ∃ iso d, Bill.due_date_iso b = Some iso ∧ fromisoformat iso = Some d
            ∧ PyDate.ltb d utcnow_date = true)
  ∧ (Bill.status b ≠ "overdue" → Bill.status b = "due").
Proof.
  intros Hb.
  assert (Hstatus : Bill.status b
                    = status_of_due utcnow_date (Bill.due_date_iso b)).
  { destruct Hb as [Hd|[Hp|Hr]].
    - by apply duke_bill in Hd as (_ & _ & ?).
    - by apply psnc_bill in Hp as (_ & _ & ?).
    - by apply raleigh_bill in Hr as (_ & _ & ?). }
  rewrite Hstatus. unfold status_of_due.
  destruct (Bill.due_date_iso b) as [iso|].
  - destruct (fromisoformat iso) as [d|] eqn:Hd.
    + destruct (PyDate.ltb d utcnow_date) eqn:Hlt.
      * split; [|done]. split; [|done]. intros _. by exists iso, d.
      * split; [|done]. split; [done|].
        intros (iso' & d' & [= <-] & Hd' & Hlt').
        rewrite Hd in Hd'. injection Hd' as <-. by rewrite Hlt in Hlt'.
    + split; [|done]. split; [done|].
      intros (iso' & d' & [= <-] & Hd' & _). by rewrite Hd in Hd'.
  - split; [|done]. split; [done|]. by intros (iso' & d' & ? & _).
Qed.

Lemma structured_status_overdue_iff_witness :
  ∃ b, @DukeEnergy.parse_duke_energy Samples.runtime Samples.duke_email
       = Some b
       ∧ Bill.status b = "overdue".
Proof.
  destruct (@DukeEnergy.parse_duke_energy Samples.runtime Samples.duke_email)
    as [b|] eqn:Hb; [|by vm_compute in Hb].
  exists b. split; [done|].
  apply (proj1 (@structured_status_overdue_iff Samples.runtime
                  Samples.duke_email b (or_introl Hb))).
  exists "2025-03-03",
    {| PyDate.year := 2025; PyDate.month := 3; PyDate.day := 3 |}.
  vm_compute in Hb. injection Hb as <-. by vm_compute.
Defined.

(** ** Replacement of a single character *)

Lemma replace_aux_single o new l :
  Py.replace_aux [o] new 0 l = replace_class (Ascii.eqb o) new l.
Proof.
  induction l as [|c l IH]; [done|].
  cbn [Py.replace_aux Py.is_prefix length Nat.sub replace_class flat_map].
  rewrite andb_true_r, IH. by destruct (Ascii.eqb o c).
Qed.

Lemma replace_single_chars o new s :
  Py.chars (Py.replace (String o EmptyString) new s)
  = replace_class (Ascii.eqb o) (Py.chars new) (Py.chars s).
Proof.
  unfold Py.replace. cbn [Py.chars String.list_ascii_of_string].
  by rewrite chars_str, replace_aux_single.
Qed.

Lemma replace_class_single_length ok r l :
  length (replace_class ok [r] l) = length l.
Proof.
  induction l as [|c l IH]; [done|]. cbn [replace_class flat_map].
  rewrite length_app. fold (replace_class ok [r] l). rewrite IH.
  by destruct (ok c).
Qed.

Lemma replace_class_elem ok repl l c :
  c ∈ replace_class ok repl l → c ∈ repl ∨ (c ∈ l ∧ ok c = false).
Proof.
  induction l as [|x l IH]; cbn [replace_class flat_map].
  - by intros ?%elem_of_nil.
  - fold (replace_class ok repl l). rewrite elem_of_app.
    intros [Hx|Hl].
    + destruct (ok x) eqn:Hok; [by left|].
      apply list_elem_of_singleton in Hx as ->. right. split; [by left|done].
    + destruct (IH Hl) as [?|[? ?]]; [by left|]. right. split; [by right|done].
Qed.

Section GenericShape.
Context `{Runtime}.

Lemma first_hint_cases text :
  match Generic.first_hint text Generic.STATUS_HINTS with
  | Some s => s = "overdue" ∨ s = "paid"
  | None => True
  end.
Proof.
  unfold Generic.STATUS_HINTS. cbn [Generic.first_hint].
  repeat (destruct (Py.contains _ text); [by (left + right)|]). done.
Qed.

Lemma determine_status_cases text due_iso :
  Generic._determine_status text due_iso = "due"
  ∨ Generic._determine_status text due_iso = "overdue"
  ∨ Generic._determine_status text due_iso = "paid".
Proof.
  unfold Generic._determine_status.
  pose proof (first_hint_cases text) as Hhint.
  destruct (Generic.first_hint text Generic.STATUS_HINTS) as [s|].
  { destruct Hhint as [->| ->]; [right; by left|right; by right]. }
  destruct due_iso as [iso|]; [|by left].
  destruct (Py.truthy iso); [|by left].
  destruct (fromisoformat iso) as [d|]; [|by left].
  destruct (PyDate.ltb d now_date); [right; by left|by left].
Qed.

Lemma extract_amount_of_display body :
  amount_of_display (fst (Generic._extract_amount body))
    (snd (Generic._extract_amount body)).
Proof.
  unfold amount_of_display, Generic._extract_amount.
  destruct (match Re.search Generic.AMOUNT_HINT_REGEX body with
            | Some _ => _ | None => _ end) as [m|]; [|done].
  destruct (if Nat.leb 2 (Re.m_ngroups m) then _ else _) as [amount_str|];
    [|done].
  cbn [fst snd]. by destruct (Py.startswith (Py.strip amount_str) "$") eqn:Hs.
Qed.

Lemma extract_due_date_of_display text :
  iso_of_display (fst (Generic._extract_due_date text))
    (snd (Generic._extract_due_date text)).
Proof.
  unfold iso_of_display, Generic._extract_due_date.
  destruct (match Re.search Generic.DATE_WORD_REGEX text with
            | Some _ => _ | None => _ end) as [m|]; [|done].
  cbn [fst snd]. unfold Generic._parse_date_iso.
  destruct (Generic.first_format _ _) as [iso|] eqn:Hiso; [|done].
  split; [|done]. revert Hiso. apply (first_format_shaped (H := H)).
Qed.

Lemma generic_snippet body :
  Py.len (Py.replace Py.CR " " (Py.slice_to Const.DEFAULT_SNIPPET_LENGTH body))
  ≤ Const.DEFAULT_SNIPPET_LENGTH
  ∧ (Py.chr 13
     ∉ Py.chars (Py.replace Py.CR " "
                   (Py.slice_to Const.DEFAULT_SNIPPET_LENGTH body))).
Proof.
  unfold Py.len. rewrite <- (str_chars (Py.replace _ _ _)).
  fold (Py.len (Py.str (Py.chars (Py.replace Py.CR " "
    (Py.slice_to Const.DEFAULT_SNIPPET_LENGTH body))))).
  rewrite len_str, chars_str. unfold Py.CR. rewrite replace_single_chars.
  split.
  - cbn [Py.chars String.list_ascii_of_string].
    rewrite replace_class_single_length. unfold Py.slice_to.
    rewrite chars_str, length_take. lia.
  - intros [Hin|[_ Hne]]%replace_class_elem.
    + by apply list_elem_of_singleton in Hin.
    + by rewrite Ascii.eqb_refl in Hne.
Qed.

End GenericShape.

(** X11: every record of [parse_generic_email] takes identifier, received
    date, stripped subject and sender address from the email, has a
    provider, a snippet of at most 240 characters without a carriage
    return, a displayed amount that starts with a dollar sign, an ISO date
    of the shape YYYY-MM-DD only beside a displayed date, and one of the
    three statuses "due", "overdue", "paid"; the fields of the structured
    extractors (account number, billing date, service address, customer
    name, "from") are never set. *)
Theorem generic_bill_shape `{Runtime} (email : Email.t) (b : Bill.t) :
  Generic.parse_generic_email email = Some b →
  carries_email email b ∧ well_formed_bill b
  ∧ Bill.from_address b = Email.from_address email
  ∧ (Py.chr 13 ∉ Py.chars (Bill.snippet b))
  ∧ (Bill.status b = "due" ∨ Bill.status b = "overdue"
     ∨ Bill.status b = "paid")
  ∧ Bill.account_number b = None ∧ Bill.billing_date b = None
  ∧ Bill.service_address b = None ∧ Bill.customer_name b = None
  ∧ Bill.from_ b = None.
Proof.
  unfold Generic.parse_generic_email.
  destruct (negb (Py.truthy _) && _); [done|].
  destruct (negb (existsb _ _)); [done|].
  pose proof (extract_amount_of_display
    (Py.strip (Py.or_empty (Email.body email)))) as Hamount.
  destruct (Generic._extract_amount _) as [amount_display amount_value].
  pose proof (extract_due_date_of_display
    (Py.strip (Py.or_empty (Email.subject email)) +:+ Py.LF
     +:+ Py.strip (Py.or_empty (Email.body email)))) as Hdue.
  destruct (Generic._extract_due_date _) as [display due_iso].
  pose proof (generic_snippet (Py.strip (Py.or_empty (Email.body email))))
    as [Hlen Hcr].
  intros [= <-]. unfold carries_email, well_formed_bill.
  cbn [Bill.id Bill.received Bill.subject Bill.snippet Bill.amount_due
    Bill.amount_due_value Bill.due_date Bill.due_date_iso Bill.billing_date
    Bill.billing_date_iso Bill.provider Bill.from_address Bill.status
    Bill.account_number Bill.service_address Bill.customer_name Bill.from_].
  split; [done|]. split.
  { split; [done|]. split; [done|]. split; [done|]. split; [done|].
    split; [done|]. apply message_id_or_uid_nonempty. }
  split; [done|]. split; [done|].
  split; [apply determine_status_cases|done].
Qed.

Lemma generic_bill_shape_witness :
  ∃ b, @Generic.parse_generic_email Samples.runtime Samples.paid_email
       = Some b
       ∧ Bill.status b = "paid" ∧ well_formed_bill b.
Proof.
  destruct (@Generic.parse_generic_email Samples.runtime Samples.paid_email)
    as [b|] eqn:Hb; [|by vm_compute in Hb].
  exists b. split; [done|].
  pose proof (@generic_bill_shape Samples.runtime Samples.paid_email b Hb)
    as (_ & Hwf & _).
  split; [|done]. vm_compute in Hb. by injection Hb as <-.
Defined.

(** ** The dispatcher, email by email *)

Lemma extract_bills_flat_map `{Runtime} emails :
  Parsers.extract_bills emails = Parsers.Ok (flat_map bills_of_email emails).
Proof.
  unfold Parsers.extract_bills. rewrite extract_bills_with_yield.
  apply (f_equal Parsers.Ok). induction emails as [|email emails IH]; [done|].
  cbn [flat_map]. rewrite IH. apply (f_equal (fun l => l ++ _)).
  unfold Parsers.PARSERS. cbn [flat_map].
  rewrite !yield_returning, app_nil_r. unfold bills_of_email, option_list.
  done.
Qed.

Lemma length_bills_of_email `{Runtime} email :
  length (bills_of_email email) ≤ 2.
Proof.
  unfold bills_of_email, option_list. rewrite length_app.
  destruct (DukeEnergy.parse_duke_energy email),
    (PsncEnergy.parse_psnc_energy email); cbn [length option_rect]; lia.
Qed.

(** X12: an email without text gives no bill: when the subject is missing
    or blank and the body is missing or empty, each of the four extractors
    returns null, and the dispatcher returns an empty list for it. *)
Theorem blank_email_gives_no_bill `{Runtime} (email : Email.t) :
  blank_email email →
  DukeEnergy.parse_duke_energy email = None
  ∧ PsncEnergy.parse_psnc_energy email = None
  ∧ RaleighWater.parse_raleigh_water email = None
  ∧ Generic.parse_generic_email email = None
  ∧ Parsers.extract_bills [email] = Parsers.Ok [].
Proof.
  intros [Hsubject Hbody].
  assert (Hd : DukeEnergy.parse_duke_energy email = None).
  { unfold DukeEnergy.parse_duke_energy. rewrite Hsubject, Hbody.
    unfold DukeEnergy._normalize. cbn [Py.truthy negb]. reflexivity. }
  assert (Hp : PsncEnergy.parse_psnc_energy email = None).
  { unfold PsncEnergy.parse_psnc_energy. rewrite Hsubject, Hbody.
    unfold PsncEnergy._normalize. cbn [Py.truthy negb]. reflexivity. }
  split; [done|]. split; [done|]. split.
  { unfold RaleighWater.parse_raleigh_water. rewrite Hsubject, Hbody.
    unfold RaleighWater._normalize. cbn [Py.truthy negb]. reflexivity. }
  split.
  { unfold Generic.parse_generic_email. rewrite Hsubject, Hbody.
    reflexivity. }
  rewrite extract_bills_flat_map. cbn [flat_map]. unfold bills_of_email.
  by rewrite Hd, Hp.
Qed.

Lemma blank_email_gives_no_bill_witness :
  @Parsers.extract_bills Samples.runtime
    [Samples.email 30 None "  " "" (Some "2025-03-01")] = Parsers.Ok [].
Proof.
  apply (@blank_email_gives_no_bill Samples.runtime
           (Samples.email 30 None "  " "" (Some "2025-03-01"))).
  split; reflexivity.
Defined.

Lemma elem_of_option_list_1 {A} (x : A) (o : option A) :
  x ∈ option_list o → o = Some x.
Proof.
  destruct o as [y|]; cbn [option_list option_rect].
  - by intros ->%list_elem_of_singleton.
  - by intros ?%elem_of_nil.
Qed.

(** X13: [extract_bills] works email by email: its result is, for each
    email in the order of the batch, the bill of [parse_duke_energy] (if
    any) followed by the bill of [parse_psnc_energy] (if any); so there are
    at most two bills for each email, every bill carries the identifier,
    date and subject of an email of the batch, and an empty batch gives an
    empty list. *)
Theorem extract_bills_email_by_email `{Runtime} (emails : list Email.t) :
  Parsers.extract_bills emails = Parsers.Ok (flat_map bills_of_email emails)
  ∧ length (flat_map bills_of_email emails) ≤ 2 * length emails
  ∧ Forall (fun b => ∃ email, email ∈ emails ∧ carries_email email b)
      (flat_map bills_of_email emails)
  ∧ Parsers.extract_bills [] = Parsers.Ok [].
Proof.
  split; [apply extract_bills_flat_map|]. split; [|split; [|done]].
  - induction emails as [|email emails IH]; [done|].
    cbn [flat_map length]. rewrite length_app.
    pose proof (length_bills_of_email email). lia.
  - rewrite list.Forall_forall. intros b Hb.
    apply list_elem_of_In, in_flat_map in Hb as (email & Hemail & Hb).
    exists email. split; [by apply list_elem_of_In|].
    apply list_elem_of_In in Hb. unfold bills_of_email in Hb.
    apply elem_of_app in Hb as [Hb|Hb]; apply elem_of_option_list_1 in Hb.
    + by apply duke_bill_shape in Hb as (? & _).
    + by apply psnc_bill_shape in Hb as (? & _).
Qed.

(** X14: for any registry of parsers, failing ones included, the bills of
    a batch made of two batches are the bills of the first followed by the
    bills of the second: no email influences what another one yields. *)
Theorem extract_bills_with_append
  (parsers : list (string * Parsers.parser)) (es1 es2 : list Email.t) :
  ∃ l1 l2,
    Parsers.extract_bills_with parsers es1 = Parsers.Ok l1
    ∧ Parsers.extract_bills_with parsers es2 = Parsers.Ok l2
    ∧ Parsers.extract_bills_with parsers (es1 ++ es2) = Parsers.Ok (l1 ++ l2).
Proof.
  rewrite !extract_bills_with_yield. do 2 eexists.
  split; [done|]. split; [done|]. by rewrite flat_map_app.
Qed.

(** X15: an email that both registered extractors accept gives two bills
    with the same identifier; when that identifier counts as one (a
    non-empty message id, or a uid other than 0), [_limit_bills] keeps the
    Duke Energy bill alone and the PSNC Energy bill is dropped as a
    duplicate. *)
Theorem both_extractors_one_bill `{Runtime} (opts : Coordinator.options)
  (email : Email.t) (d p : Bill.t) :
  DukeEnergy.parse_duke_energy email = Some d →
  PsncEnergy.parse_psnc_energy email = Some p →
  ident_truthy (Email.message_id_or_uid email) = true →
  (1 ≤ max_of opts)%Z →
  Parsers.extract_bills [email] = Parsers.Ok [d; p]
  ∧ Bill.id d = Bill.id p
  ∧ Coordinator._limit_bills opts [d; p] = [d].
Proof.
  intros Hd Hp Hid Hmax.
  pose proof (duke_bill_shape email d Hd) as ((Hidd & _) & _).
  pose proof (psnc_bill_shape email p Hp) as ((Hidp & _) & _).
  split; [|split; [congruence|]].
  - rewrite extract_bills_flat_map. cbn [flat_map]. unfold bills_of_email.
    by rewrite Hd, Hp.
  - unfold Coordinator._limit_bills. rewrite deduplicate_dedup_from.
    cbn [dedup_from]. rewrite Hidd, Hidp, Hid. cbn [andb].
    rewrite bool_decide_eq_false_2 by apply not_elem_of_empty.
    rewrite bool_decide_eq_true_2
      by (apply elem_of_union; left; by apply elem_of_singleton).
    cbn [PyList.sort_reverse PyList.insert_desc length].
    unfold max_of in Hmax. by rewrite (proj2 (Z.leb_le _ _)) by lia.
Qed.

Lemma both_extractors_one_bill_witness :
  ∃ d p,
    @Parsers.extract_bills Samples.runtime [both_providers_email]
    = Parsers.Ok [d; p]
    ∧ Bill.provider d = Some "Duke Energy"
    ∧ Bill.provider p = Some "PSNC Energy"
    ∧ Coordinator._limit_bills (BillSamples.opts 10) [d; p] = [d].
Proof.
  destruct (@DukeEnergy.parse_duke_energy Samples.runtime
              both_providers_email) as [d|] eqn:Hd; [|by vm_compute in Hd].
  destruct (@PsncEnergy.parse_psnc_energy Samples.runtime
              both_providers_email) as [p|] eqn:Hp; [|by vm_compute in Hp].
  exists d, p.
  destruct (@both_extractors_one_bill Samples.runtime (BillSamples.opts 10)
              both_providers_email d p Hd Hp eq_refl
              ltac:(vm_compute; discriminate)) as (He & _ & Hl).
  split; [exact He|]. split; [|split; [|exact Hl]].
  - vm_compute in Hd. by injection Hd as <-.
  - vm_compute in Hp. by injection Hp as <-.
Defined.

(** * Properties of the refresh *)

Section RefreshFacts.
Context `{Runtime}.

Lemma stripped_or_none_clean x : clean (CoordinatorUpdate.stripped_or_none x).
Proof.
  unfold clean, CoordinatorUpdate.stripped_or_none, Py.or_none.
  destruct (Py.truthy (Py.strip (Py.or_empty x))) eqn:Ht; [|done].
  split; [done|apply strip_is_stripped].
Qed.

End RefreshFacts.

(** X16: [_parse_from] gives for each of display name and address either
    null or a non-empty string without whitespace at either end, never an
    empty or blank string; it reads the first item of the list only, and
    an empty list gives two nulls. *)
Theorem parse_from_clean `{Runtime}
  (from_list : list CoordinatorUpdate.from_item) :
  clean (fst (CoordinatorUpdate._parse_from from_list))
  ∧ clean (snd (CoordinatorUpdate._parse_from from_list))
  ∧ CoordinatorUpdate._parse_from from_list
    = CoordinatorUpdate._parse_from (take 1 from_list)
  ∧ CoordinatorUpdate._parse_from [] = (None, None).
Proof.
  split; [|split; [|split; [|done]]].
  - destruct from_list as [|[display address|text] rest]; [done| |];
      apply stripped_or_none_clean.
  - destruct from_list as [|[display address|text] rest]; [done| |];
      apply stripped_or_none_clean.
  - by destruct from_list as [|item rest].
Qed.

Lemma async_update_data_cases `{Runtime} (opts : Coordinator.options)
  (fetched : Parsers.result (list Email.t)) (utcnow_iso : string) :
  match fetched with
  | Parsers.Raise err =>
    CoordinatorUpdate._async_update_data opts fetched utcnow_iso
    = Parsers.Raise ("Unable to refresh utility bills: " +:+ err)
  | Parsers.Ok emails =>
    ∃ data,
      CoordinatorUpdate._async_update_data opts fetched utcnow_iso
      = Parsers.Ok data
      ∧ CoordinatorUpdate.bills data
        = Coordinator._limit_bills opts (flat_map bills_of_email emails)
      ∧ CoordinatorUpdate.summary data
        = Coordinator._build_summary (CoordinatorUpdate.bills data)
      ∧ CoordinatorUpdate.count data = length (CoordinatorUpdate.bills data)
      ∧ CoordinatorUpdate.last_update data = utcnow_iso
      ∧ total_count
          (Coordinator.by_provider (CoordinatorUpdate.summary data))
        = CoordinatorUpdate.count data
  end.
Proof.
  destruct fetched as [emails|err]; [|done].
  unfold CoordinatorUpdate._async_update_data.
  cbn [Parsers.bind]. rewrite extract_bills_flat_map.
  cbn [Parsers.bind Parsers.try_except]. eexists. split; [done|].
  cbn [CoordinatorUpdate.bills CoordinatorUpdate.summary
    CoordinatorUpdate.count CoordinatorUpdate.last_update].
  do 4 (split; [done|]).
  unfold Coordinator._build_summary. cbn [Coordinator.by_provider].
  rewrite fold_summary_total_count. cbn [Coordinator.a_by_provider].
  by rewrite total_count_empty.
Qed.

(** X17: a refresh fails exactly when fetching the emails fails, and then
    with the message of that failure behind the prefix "Unable to refresh
    utility bills: "; otherwise it returns the output of [_limit_bills] on
    the extracted bills, the summary of that very list, its length as the
    count and the time stamp; the per-provider counts of the summary add
    up to the count. *)
Theorem async_update_data_outcome `{Runtime} (opts : Coordinator.options)
  (fetched : Parsers.result (list Email.t)) (utcnow_iso : string) :
  match fetched with
  | Parsers.Raise err =>
    CoordinatorUpdate._async_update_data opts fetched utcnow_iso
    = Parsers.Raise ("Unable to refresh utility bills: " +:+ err)
  | Parsers.Ok emails =>
    ∃ data,
      CoordinatorUpdate._async_update_data opts fetched utcnow_iso
      = Parsers.Ok data
      ∧ CoordinatorUpdate.bills data
        = Coordinator._limit_bills opts (flat_map bills_of_email emails)
      ∧ CoordinatorUpdate.summary data
        = Coordinator._build_summary (CoordinatorUpdate.bills data)
      ∧ CoordinatorUpdate.count data = length (CoordinatorUpdate.bills data)
      ∧ CoordinatorUpdate.last_update data = utcnow_iso
      ∧ total_count
          (Coordinator.by_provider (CoordinatorUpdate.summary data))
        = CoordinatorUpdate.count data
  end.
Proof. apply async_update_data_cases. Qed.

(** X18: what the sensor shows after a refresh: its state is the number of
    bills in its attributes, at most twice the number of emails fetched
    and, for a maximum that is a count, at most the configured maximum;
    before the first refresh the state is 0 and the attributes hold an
    empty list. *)
Theorem sensor_state_counts_bills `{Runtime} (opts : Coordinator.options)
  (emails : list Email.t) (utcnow_iso : string)
  (data : CoordinatorUpdate.data) :
  CoordinatorUpdate._async_update_data opts (Parsers.Ok emails) utcnow_iso
  = Parsers.Ok data →
  (0 ≤ max_of opts)%Z →
  Sensor.native_value (Some data)
  = Z.of_nat (length (Sensor.attr_bills
                        (Sensor.extra_state_attributes (Some data))))
  ∧ (Sensor.native_value (Some data) ≤ max_of opts)%Z
  ∧ (Sensor.native_value (Some data) ≤ 2 * Z.of_nat (length emails))%Z
  ∧ Sensor.native_value None = 0%Z
  ∧ Sensor.attr_bills (Sensor.extra_state_attributes None) = [].
Proof.
  intros Hdata Hmax.
  pose proof (async_update_data_cases opts (Parsers.Ok emails) utcnow_iso)
    as (data' & Hdata' & Hbills & _ & Hcount & _).
  rewrite Hdata in Hdata'. injection Hdata' as <-.
  cbn [Sensor.native_value Sensor.extra_state_attributes Sensor.attr_bills].
  rewrite Hcount. split; [done|]. split; [|split; [|done]].
  - rewrite Hbills. by apply limit_bills_bounded.
  - rewrite Hbills.
    pose proof (submseteq_length _ _
      (limit_bills_submseteq opts (flat_map bills_of_email emails))).
    assert (length (flat_map bills_of_email emails) ≤ 2 * length emails);
      [|lia].
    clear. induction emails as [|email emails IH]; [done|].
    cbn [flat_map length]. rewrite length_app.
    pose proof (length_bills_of_email email). lia.
Qed.

Lemma sensor_state_counts_bills_witness :
  ∃ data,
    @CoordinatorUpdate._async_update_data Samples.runtime (BillSamples.opts 1)
      (Parsers.Ok [Samples.duke_email; Samples.psnc_email])
      "2025-04-01T00:00:00" = Parsers.Ok data
    ∧ (Sensor.native_value (Some data) ≤ 1)%Z.
Proof.
  destruct (@CoordinatorUpdate._async_update_data Samples.runtime
              (BillSamples.opts 1)
              (Parsers.Ok [Samples.duke_email; Samples.psnc_email])
              "2025-04-01T00:00:00") as [data|err] eqn:Hdata;
    [|by vm_compute in Hdata].
  exists data. split; [done|].
  exact (proj1 (proj2 (@sensor_state_counts_bills Samples.runtime
                         (BillSamples.opts 1)
                         [Samples.duke_email; Samples.psnc_email]
                         "2025-04-01T00:00:00" data Hdata
                         ltac:(vm_compute; discriminate)))).
Defined.

(** * The normalised text *)

Section CollapseShape.
Context (ok : ascii → bool) (r : ascii) (Hr : ok r = true).

Lemma collapse_only_as in_run l : only_as ok r (collapse_runs ok [r] in_run l).
Proof.
  unfold only_as. revert in_run.
  induction l as [|c l IH]; intros in_run; cbn [collapse_runs]; [constructor|].
  destruct (ok c) eqn:Hc.
  - destruct in_run; [apply IH|]. cbn [app]. constructor; [done|apply IH].
  - constructor; [by rewrite Hc|apply IH].
Qed.

Lemma collapse_head_in_run l c :
  head (collapse_runs ok [r] true l) = Some c → ok c = false.
Proof.
  induction l as [|x l IH]; cbn [collapse_runs]; [done|].
  destruct (ok x) eqn:Hx; [done|]. cbn [head]. by intros [= <-].
Qed.

Lemma no_adjacent_nil : no_adjacent ok [].
Proof. intros [|? ?] c c' l2 Hl; discriminate. Qed.

Lemma no_adjacent_cons x l :
  (∀ c', head l = Some c' → ok x = true → ok c' = false) →
  no_adjacent ok l → no_adjacent ok (x :: l).
Proof.
  intros Hhead Hl [|y l1] c c' l2 Heq [Hc Hc'].
  - injection Heq as -> ->. by rewrite (Hhead c' eq_refl Hc) in Hc'.
  - injection Heq as -> ->. by apply (Hl l1 c c' l2 eq_refl).
Qed.

Lemma collapse_no_adjacent in_run l :
  no_adjacent ok (collapse_runs ok [r] in_run l).
Proof using Hr.
  revert in_run.
  induction l as [|c l IH]; intros in_run; cbn [collapse_runs];
    [apply no_adjacent_nil|].
  destruct (ok c) eqn:Hc.
  - destruct in_run; [apply IH|]. cbn [app].
    apply no_adjacent_cons; [|apply IH].
    intros c' Hhead _. by apply collapse_head_in_run in Hhead.
  - apply no_adjacent_cons; [|apply IH]. intros c' _ Hx. by rewrite Hc in Hx.
Qed.

Lemma no_adjacent_infix pre l post :
  no_adjacent ok (pre ++ l ++ post) → no_adjacent ok l.
Proof.
  intros Hl l1 c c' l2 ->. apply (Hl (pre ++ l1) c c' (l2 ++ post)).
  by rewrite <- !app_assoc.
Qed.

End CollapseShape.

Lemma lstrip_suffix l : ∃ pre, l = pre ++ Py.lstrip_chars l.
Proof.
  induction l as [|c l [pre IH]]; [by exists []|]. cbn [Py.lstrip_chars].
  destruct (Py.isspace c); [|by exists []].
  exists (c :: pre). cbn [app]. by rewrite <- IH.
Qed.

Lemma strip_chars_infix l : ∃ pre post, l = pre ++ Py.strip_chars l ++ post.
Proof.
  unfold Py.strip_chars. destruct (lstrip_suffix l) as [pre Hpre].
  destruct (lstrip_suffix (rev (Py.lstrip_chars l))) as [post Hpost].
  exists pre, (rev post). rewrite <- rev_app_distr, <- Hpost, rev_involutive.
  done.
Qed.

Lemma strip_only_as ok r s :
  only_as ok r (Py.chars s) → only_as ok r (Py.chars (Py.strip s)).
Proof.
  unfold only_as, Py.strip. rewrite chars_str.
  destruct (strip_chars_infix (Py.chars s)) as (pre & post & Heq).
  rewrite Heq at 1. rewrite !Forall_app. by intros (_ & ? & _).
Qed.

Lemma strip_no_adjacent ok s :
  no_adjacent ok (Py.chars s) → no_adjacent ok (Py.chars (Py.strip s)).
Proof.
  unfold Py.strip. rewrite chars_str.
  destruct (strip_chars_infix (Py.chars s)) as (pre & post & Heq).
  rewrite Heq at 1. apply no_adjacent_infix.
Qed.

(** The text after the last two steps of [_normalize]: runs of a class
    replaced by one blank, then stripped. *)
Lemma collapsed_stripped (p : Re.pattern) a ok text :
  Re.re_ast p = Re.Rep a 1 None →
  (∀ st k, Re.rmatch (Re.re_ignorecase p) a st k = Re.step st ok k) →
  ok " "%char = true →
  is_stripped (Py.strip (Re.sub p " " text))
  ∧ only_as ok " " (Py.chars (Py.strip (Re.sub p " " text)))
  ∧ no_adjacent ok (Py.chars (Py.strip (Re.sub p " " text))).
Proof.
  intros Hast Ha Hblank. split; [apply strip_is_stripped|].
  rewrite (sub_class_run p a ok Hast Ha).
  split.
  - apply strip_only_as. rewrite chars_str. apply collapse_only_as.
  - apply strip_no_adjacent. rewrite chars_str.
    by apply collapse_no_adjacent.
Qed.

Lemma normalize_shape `{Runtime} (value : string) :
  is_stripped (DukeEnergy._normalize value)
  ∧ only_as Py.isspace " " (Py.chars (DukeEnergy._normalize value))
  ∧ no_adjacent Py.isspace (Py.chars (DukeEnergy._normalize value)).
Proof.
  split; [|split];
    unfold DukeEnergy._normalize;
    (destruct (negb (Py.truthy value)); [first [done|constructor
       |apply no_adjacent_nil]|]);
    match goal with
    | |- context [Py.strip (Re.sub (Re.compile ?pat) " " ?t)] =>
      destruct (collapsed_stripped (Re.compile pat) (Re.CSet false [Re.CsSpace])
                  Py.isspace t eq_refl) as (Hs & Ho & Ha);
        [intros st k; rewrite rmatch_cset; unfold Re.step;
         destruct (Re.ms_rest st) as [|c rest]; [done|];
         unfold class_test; cbn [existsb Re.item_matches xorb];
         by rewrite orb_false_r
        |done|done]
    end.
Qed.

(** X19: the text [_normalize] of [duke_energy.py] and of
    [raleigh_water.py] hands to the patterns is single-spaced, whatever
    the body and whatever the decoders do: it has no whitespace at either
    end, its only whitespace character is the blank (no line break, tab or
    no-break space is left), and no two blanks are adjacent; an empty body
    gives the empty text. *)
Theorem normalize_single_spaced `{Runtime} (value : string) :
  is_stripped (DukeEnergy._normalize value)
  ∧ only_as Py.isspace " " (Py.chars (DukeEnergy._normalize value))
  ∧ no_adjacent Py.isspace (Py.chars (DukeEnergy._normalize value))
  ∧ RaleighWater._normalize value = DukeEnergy._normalize value
  ∧ DukeEnergy._normalize "" = "".
Proof.
  destruct (normalize_shape value) as (? & ? & ?). done.
Qed.

(** ** What a substitution cannot bring in *)

Lemma sub_from_elem fuel p repl subject prev rest pos c :
  c ∈ Re.sub_from fuel p repl subject prev rest pos → c ∈ rest ∨ c ∈ repl.
Proof.
  revert prev rest pos. induction fuel as [|fuel IH]; intros prev rest pos;
    cbn [Re.sub_from]; [by left|].
  destruct (Re.search_from p subject prev rest pos) as [m|]; [|by left].
  destruct (Nat.ltb (Re.m_start m) (Re.m_end m)); [|by left].
  rewrite !elem_of_app. intros [Hb|[Hr|Hs]].
  - left. apply (elem_of_sublist _ _ _ Hb), sublist_take.
  - by right.
  - destruct (IH _ _ _ Hs) as [Ha|Hr]; [|by right].
    left. apply (elem_of_sublist _ _ _ Ha), sublist_drop.
Qed.

Lemma sub_absent c p repl text :
  c ∉ Py.chars text → c ∉ Py.chars repl → c ∉ Py.chars (Re.sub p repl text).
Proof.
  intros Ht Hr. unfold Re.sub. rewrite chars_str.
  by intros [?|?]%sub_from_elem.
Qed.

Lemma replace_single_absent o new s :
  o ∉ Py.chars new → o ∉ Py.chars (Py.replace (String o EmptyString) new s).
Proof.
  intros Hn. rewrite replace_single_chars.
  intros [?|[_ Hne]]%replace_class_elem; [done|].
  by rewrite Ascii.eqb_refl in Hne.
Qed.

Lemma replace_single_absent_other c o new s :
  c ∉ Py.chars s → c ∉ Py.chars new →
  c ∉ Py.chars (Py.replace (String o EmptyString) new s).
Proof.
  intros Hs Hn. rewrite replace_single_chars.
  by intros [?|[? _]]%replace_class_elem.
Qed.

Lemma strip_absent c s : c ∉ Py.chars s → c ∉ Py.chars (Py.strip s).
Proof.
  unfold Py.strip. rewrite chars_str.
  destruct (strip_chars_infix (Py.chars s)) as (pre & post & Heq).
  rewrite Heq at 1. rewrite !elem_of_app. tauto.
Qed.

Lemma blank_class_step st k :
  Re.rmatch false (Re.CSet false [Re.CsChar " "; Re.CsChar (Py.chr 9)]) st k
  = Re.step st is_blank k.
Proof.
  rewrite rmatch_cset. unfold Re.step.
  destruct (Re.ms_rest st) as [|c rest]; [done|].
  unfold class_test, is_blank. cbn [existsb Re.item_matches xorb andb].
  by rewrite !orb_false_r.
Qed.

Lemma psnc_normalize_facts `{Runtime} (value : string) :
  is_stripped (PsncEnergy._normalize value)
  ∧ only_as is_blank " " (Py.chars (PsncEnergy._normalize value))
  ∧ no_adjacent is_blank (Py.chars (PsncEnergy._normalize value))
  ∧ (Py.chr 13 ∉ Py.chars (PsncEnergy._normalize value))
  ∧ (Py.chr 160 ∉ Py.chars (PsncEnergy._normalize value))
  ∧ (Py.chr 9 ∉ Py.chars (PsncEnergy._normalize value))
  ∧ PsncEnergy._normalize "" = "".
Proof.
  assert (Hshape : is_stripped (PsncEnergy._normalize value)
    ∧ only_as is_blank " " (Py.chars (PsncEnergy._normalize value))
    ∧ no_adjacent is_blank (Py.chars (PsncEnergy._normalize value))).
  { unfold PsncEnergy._normalize. destruct (negb (Py.truthy value)).
    { split; [done|]. split; [constructor|apply no_adjacent_nil]. }
    apply (collapsed_stripped (Re.compile "[ \t]+")
             (Re.CSet false [Re.CsChar " "; Re.CsChar (Py.chr 9)]) is_blank);
      [done|apply blank_class_step|done]. }
  destruct Hshape as (Hs & Ho & Ha).
  split; [done|]. split; [done|]. split; [done|].
  split; [|split; [|split; [|done]]].
  - unfold PsncEnergy._normalize. destruct (negb (Py.truthy value));
      [by intros ?%elem_of_nil|].
    apply strip_absent. do 2 (apply sub_absent;
      [|by intros [= ?]%list_elem_of_singleton]).
    apply replace_single_absent_other;
      [|by intros [= ?]%list_elem_of_singleton].
    do 3 (apply sub_absent; [|by intros [= ?]%list_elem_of_singleton]).
    apply replace_single_absent. by intros [= ?]%list_elem_of_singleton.
  - unfold PsncEnergy._normalize. destruct (negb (Py.truthy value));
      [by intros ?%elem_of_nil|].
    apply strip_absent. do 2 (apply sub_absent;
      [|by intros [= ?]%list_elem_of_singleton]).
    apply replace_single_absent. by intros [= ?]%list_elem_of_singleton.
  - intros Htab. unfold only_as in Ho. rewrite list.Forall_forall in Ho.
    by specialize (Ho _ Htab eq_refl).
Qed.

(** X20: the text [_normalize] of [psnc_energy.py] hands to the patterns
    keeps its line breaks but, whatever the body and whatever the decoders
    do, has no whitespace at either end, no carriage return, no no-break
    space and no tab, and no two adjacent blanks; an empty body gives the
    empty text. *)
Theorem psnc_normalize_shape `{Runtime} (value : string) :
  is_stripped (PsncEnergy._normalize value)
  ∧ only_as is_blank " " (Py.chars (PsncEnergy._normalize value))
  ∧ no_adjacent is_blank (Py.chars (PsncEnergy._normalize value))
  ∧ (Py.chr 13 ∉ Py.chars (PsncEnergy._normalize value))
  ∧ (Py.chr 160 ∉ Py.chars (PsncEnergy._normalize value))
  ∧ (Py.chr 9 ∉ Py.chars (PsncEnergy._normalize value))
  ∧ PsncEnergy._normalize "" = "".
Proof. apply psnc_normalize_facts. Qed.

(** ** The account number of a PSNC bill *)

Lemma account_class_step st k :
  Re.rmatch false (Re.CSet true [Re.CsRange "0" "9"; Re.CsChar "*"]) st k
  = Re.step st (outside account_char) k.
Proof.
  rewrite rmatch_cset. unfold Re.step.
  destruct (Re.ms_rest st) as [|c rest]; [done|].
  unfold class_test, outside, account_char.
  cbn [existsb Re.item_matches xorb andb]. by rewrite !orb_false_r.
Qed.

Lemma replace_class_delete ok l :
  Forall (fun c => ok c = false) (replace_class ok [] l).
Proof.
  induction l as [|c l IH]; cbn [replace_class flat_map]; [constructor|].
  fold (replace_class ok [] l). destruct (ok c) eqn:Hc; [done|].
  cbn [app]. by constructor.
Qed.

Lemma strip_chars_no_space l :
  Forall (fun c => Py.isspace c = false) l → Py.strip_chars l = l.
Proof.
  intros Hl. assert (Hls : ∀ k, Forall (fun c => Py.isspace c = false) k →
                               Py.lstrip_chars k = k).
  { intros [|c k] Hk; [done|]. apply Forall_cons in Hk as [Hc _].
    cbn [Py.lstrip_chars]. by rewrite Hc. }
  unfold Py.strip_chars. rewrite (Hls l Hl), Hls, rev_involutive; [done|].
  by apply Forall_rev.
Qed.

(** X21: [_normalize_account] returns null or a non-empty string made of
    digits and asterisks only, which therefore has no whitespace at either
    end; null comes back for a null or empty argument and when no digit or
    asterisk is in it. *)
Theorem normalize_account_digits `{Runtime} (value : option string) :
  match PsncEnergy._normalize_account value with
  | Some v =>
    Py.truthy v = true
    ∧ Forall (fun c => account_char c = true) (Py.chars v)
    ∧ is_stripped v
  | None => True
  end
  ∧ PsncEnergy._normalize_account None = None
  ∧ PsncEnergy._normalize_account (Some "") = None.
Proof.
  split; [|done]. unfold PsncEnergy._normalize_account.
  destruct value as [value|]; [|done].
  destruct (negb (Py.truthy value)); [done|].
  rewrite (sub_class (Re.compile "[^0-9*]") (outside account_char)
             account_class_step).
  unfold Py.or_none. destruct (Py.truthy _) eqn:Ht; [|done].
  split; [done|]. rewrite chars_str.
  assert (Hall : Forall (fun c => account_char c = true)
                   (replace_class (outside account_char) (Py.chars "")
                      (Py.chars (Py.replace " " "" value)))).
  { eapply Forall_impl; [apply replace_class_delete|].
    intros c Hc. unfold outside in Hc. by apply negb_false_iff in Hc. }
  split; [done|]. unfold is_stripped, Py.strip. rewrite chars_str.
  rewrite strip_chars_no_space; [done|].
  eapply Forall_impl; [exact Hall|]. intros c Hc.
  unfold account_char in Hc. apply orb_true_iff in Hc as [Hd|Hs].
  - unfold Py.isdecimal, Py.isspace, Py.between in *.
    apply andb_true_iff in Hd as [Hlo Hhi].
    apply Nat.leb_le in Hlo, Hhi.
    repeat (apply orb_false_iff; split);
      first [apply andb_false_iff; (left + right); apply Nat.leb_gt; lia
            |apply Nat.eqb_neq; lia].
  - by apply Ascii.eqb_eq in Hs as <-.
Qed.

(** ** The snippet of a structured bill *)

Lemma only_as_absent ok r l c :
  only_as ok r l → ok c = true → c ≠ r → c ∉ l.
Proof.
  unfold only_as. rewrite list.Forall_forall. intros Hl Hc Hne Hin.
  by apply Hne, Hl.
Qed.

Lemma no_adjacent_weaken (ok ok' : ascii → bool) l :
  (∀ c, ok' c = true → ok c = true) → no_adjacent ok l → no_adjacent ok' l.
Proof.
  intros Himp Hl l1 c c' l2 Heq [Hc Hc'].
  apply (Hl l1 c c' l2 Heq). split; by apply Himp.
Qed.

Lemma is_blank_isspace c : is_blank c = true → Py.isspace c = true.
Proof.
  unfold is_blank. intros [<-%Ascii.eqb_eq|<-%Ascii.eqb_eq]%orb_true_iff; done.
Qed.

Lemma slice_to_absent c n s : c ∉ Py.chars s → c ∉ Py.chars (Py.slice_to n s).
Proof.
  unfold Py.slice_to. rewrite chars_str. intros Hs Hin. apply Hs.
  apply (elem_of_sublist _ _ _ Hin), sublist_take.
Qed.

Lemma slice_to_no_adjacent ok n s :
  no_adjacent ok (Py.chars s) → no_adjacent ok (Py.chars (Py.slice_to n s)).
Proof.
  unfold Py.slice_to. rewrite chars_str. intros Hs.
  apply (no_adjacent_infix ok [] _ (drop n (Py.chars s))).
  by rewrite app_nil_l, take_drop.
Qed.

Section SnippetFacts.
Context `{Runtime}.

Lemma duke_normalize_clean value :
  (Py.chr 13 ∉ Py.chars (DukeEnergy._normalize value))
  ∧ (Py.chr 9 ∉ Py.chars (DukeEnergy._normalize value))
  ∧ (Py.chr 160 ∉ Py.chars (DukeEnergy._normalize value))
  ∧ (Py.chr 10 ∉ Py.chars (DukeEnergy._normalize value))
  ∧ no_adjacent is_blank (Py.chars (DukeEnergy._normalize value)).
Proof.
  destruct (normalize_shape value) as (_ & Ho & Ha).
  repeat split;
    first [by apply (only_as_absent Py.isspace " " _ _ Ho)
          |apply (no_adjacent_weaken Py.isspace); [apply is_blank_isspace|done]].
Qed.

Lemma duke_snippet email b :
  DukeEnergy.parse_duke_energy email = Some b →
  Bill.snippet b
  = Py.slice_to Const.DEFAULT_SNIPPET_LENGTH
      (DukeEnergy._normalize (Py.or_empty (Email.body email))).
Proof.
  unfold DukeEnergy.parse_duke_energy.
  destruct (negb (Py.contains _ _)); [done|].
  destruct (DukeEnergy._parse_amount _) as [amount_display amount_value].
  destruct (negb _); [done|]. by intros [= <-].
Qed.

Lemma psnc_snippet email b :
  PsncEnergy.parse_psnc_energy email = Some b →
  Bill.snippet b
  = Py.slice_to Const.DEFAULT_SNIPPET_LENGTH
      (PsncEnergy._normalize (Py.or_empty (Email.body email))).
Proof.
  unfold PsncEnergy.parse_psnc_energy.
  destruct (negb (existsb _ _)); [done|].
  destruct (PsncEnergy._parse_amount _) as [amount_display amount_value].
  destruct (negb _); [done|]. by intros [= <-].
Qed.

Lemma raleigh_snippet email b :
  RaleighWater.parse_raleigh_water email = Some b →
  Bill.snippet b
  = Py.slice_to Const.DEFAULT_SNIPPET_LENGTH
      (RaleighWater._normalize (Py.or_empty (Email.body email))).
Proof.
  unfold RaleighWater.parse_raleigh_water.
  destruct (negb (Py.contains _ _) || _); [done|].
  destruct (RaleighWater._parse_amount _) as [amount_display amount_value].
  destruct (negb _); [done|]. by intros [= <-].
Qed.

End SnippetFacts.

(** X22: the snippet of every record of the three structured extractors
    is the first 240 characters of the normalised body; whatever the email,
    it has no carriage return, no tab, no no-break space and no two
    adjacent blanks, and for [parse_duke_energy] and
    [parse_raleigh_water] no line break either. *)
Theorem structured_snippet_clean `{Runtime} (email : Email.t) (b : Bill.t) :
  DukeEnergy.parse_duke_energy email = Some b
  ∨ PsncEnergy.parse_psnc_energy email = Some b
  ∨ RaleighWater.parse_raleigh_water email = Some b →
  (Py.chr 13 ∉ Py.chars (Bill.snippet b))
  ∧ (Py.chr 9 ∉ Py.chars (Bill.snippet b))
  ∧ (Py.chr 160 ∉ Py.chars (Bill.snippet b))
  ∧ no_adjacent is_blank (Py.chars (Bill.snippet b))
  ∧ (DukeEnergy.parse_duke_energy email = Some b
     ∨ RaleighWater.parse_raleigh_water email = Some b →
     Py.chr 10 ∉ Py.chars (Bill.snippet b)).
Proof.
  intros Hb. split; [|split; [|split; [|split]]].
  5: { intros [Hd|Hr].
       - rewrite (duke_snippet _ _ Hd). apply slice_to_absent.
         apply duke_normalize_clean.
       - rewrite (raleigh_snippet _ _ Hr). apply slice_to_absent.
         apply (duke_normalize_clean (Py.or_empty (Email.body email))). }
  all: destruct Hb as [Hd|[Hp|Hr]];
    [rewrite (duke_snippet _ _ Hd);
     destruct (duke_normalize_clean (Py.or_empty (Email.body email)))
       as (? & ? & ? & ? & ?)
    |rewrite (psnc_snippet _ _ Hp);
     destruct (psnc_normalize_facts (Py.or_empty (Email.body email)))
       as (_ & _ & ? & ? & ? & ? & _)
    |rewrite (raleigh_snippet _ _ Hr);
     destruct (duke_normalize_clean (Py.or_empty (Email.body email)))
       as (? & ? & ? & ? & ?)];
    first [by apply slice_to_absent|by apply slice_to_no_adjacent].
Qed.

Lemma structured_snippet_clean_witness :
  ∃ b, @DukeEnergy.parse_duke_energy Samples.runtime Samples.duke_email
       = Some b
       ∧ (Py.chr 9 ∉ Py.chars (Bill.snippet b))
       ∧ no_adjacent is_blank (Py.chars (Bill.snippet b)).
Proof.
  destruct (@DukeEnergy.parse_duke_energy Samples.runtime Samples.duke_email)
    as [b|] eqn:Hb; [|by vm_compute in Hb].
  exists b. split; [done|].
  destruct (@structured_snippet_clean Samples.runtime Samples.duke_email b
              (or_introl Hb)) as (_ & Htab & _ & Hadj & _).
  by split.
Defined.

(** ** The counts of the summary and the order of the bills *)

Lemma count_provider_perm p bills bills' :
  bills ≡ₚ bills' → count_provider p bills = count_provider p bills'.
Proof. unfold count_provider. by intros ->. Qed.

Lemma build_summary_counts_perm `{Runtime} bills bills' :
  bills ≡ₚ bills' →
  Coordinator.by_provider (Coordinator._build_summary bills)
  = Coordinator.by_provider (Coordinator._build_summary bills')
  ∧ Coordinator.overdue_count (Coordinator._build_summary bills)
    = Coordinator.overdue_count (Coordinator._build_summary bills').
Proof.
  intros Hperm. unfold Coordinator._build_summary.
  cbn [Coordinator.by_provider Coordinator.overdue_count]. split.
  - apply map_eq. intros p. rewrite !fold_summary_by_provider.
    by rewrite (count_provider_perm p _ _ Hperm).
  - rewrite !fold_summary_overdue. by rewrite Hperm.
Qed.

(** X23: the per-provider counts and the overdue count of the summary do
    not depend on the order of the bills: two lists with the same bills
    give the same counts; so the sort of [_limit_bills] does not change
    them, and when nothing is cut off the counts of the output of
    [_limit_bills] are those of the deduplicated bills. *)
Theorem build_summary_counts_order_free `{Runtime}
  (opts : Coordinator.options) (bills bills' : list Bill.t) :
  bills ≡ₚ bills' →
  Coordinator.by_provider (Coordinator._build_summary bills)
  = Coordinator.by_provider (Coordinator._build_summary bills')
  ∧ Coordinator.overdue_count (Coordinator._build_summary bills)
    = Coordinator.overdue_count (Coordinator._build_summary bills')
  ∧ ((Z.of_nat (length (Coordinator.deduplicate bills)) ≤ max_of opts)%Z →
     Coordinator.by_provider
       (Coordinator._build_summary (Coordinator._limit_bills opts bills))
     = Coordinator.by_provider
         (Coordinator._build_summary (Coordinator.deduplicate bills))).
Proof.
  intros Hperm. destruct (build_summary_counts_perm _ _ Hperm) as [Hp Ho].
  split; [done|]. split; [done|]. intros Hlen.
  apply build_summary_counts_perm.
  destruct (Z_le_gt_dec 0 (max_of opts)) as [Hmax|Hmax].
  - by apply limit_bills_bounded.
  - assert (Hnil : Coordinator.deduplicate bills = [])
      by (destruct (Coordinator.deduplicate bills); [done|cbn in Hlen; lia]).
    rewrite Hnil.
    pose proof (limit_bills_take opts bills) as [k Hk].
    rewrite Hk, Hnil. cbn [PyList.sort_reverse]. by rewrite take_nil.
Qed.

Lemma build_summary_counts_order_free_witness :
  Coordinator.by_provider
    (@Coordinator._build_summary Samples.runtime
       [BillSamples.march; BillSamples.april; BillSamples.tie])
  = Coordinator.by_provider
      (@Coordinator._build_summary Samples.runtime
         [BillSamples.april; BillSamples.tie; BillSamples.march]).
Proof.
  assert (Hperm : [BillSamples.march; BillSamples.april; BillSamples.tie]
                  ≡ₚ [BillSamples.april; BillSamples.tie; BillSamples.march])
    by exact (Permutation_cons_append [BillSamples.april; BillSamples.tie]
                BillSamples.march).
  exact (proj1 (@build_summary_counts_order_free Samples.runtime
                  (BillSamples.opts 5) _ _ Hperm)).
Defined.

(** ** One bill for each email *)

Lemma filter_all {A} (P : A → Prop) `{!∀ x, Decision (P x)} (l : list A) :
  Forall P l → filter P l = l.
Proof.
  induction 1 as [|x l Hx Hl IH]; [done|].
  rewrite filter_cons_True by done. by rewrite IH.
Qed.

Lemma bills_of_email_id `{Runtime} emails b :
  b ∈ flat_map bills_of_email emails →
  Bill.id b ∈ Email.message_id_or_uid <$> emails.
Proof.
  intros Hb. apply list_elem_of_In, in_flat_map in Hb as (email & Hemail & Hb).
  apply list_elem_of_In in Hemail, Hb. apply list_elem_of_fmap.
  exists email. split; [|done]. unfold bills_of_email in Hb.
  apply elem_of_app in Hb as [Hb|Hb]; apply elem_of_option_list_1 in Hb.
  - by apply duke_bill_shape in Hb as ((? & _) & _).
  - by apply psnc_bill_shape in Hb as ((? & _) & _).
Qed.

(** X24: when every email of the batch has an identifier that counts as
    one (a non-empty message id, or a uid other than 0), the aggregation
    keeps at most one bill for each email: the bills [_limit_bills] returns
    for the extracted bills have pairwise distinct identifiers, each the
    identifier of an email of the batch, and there are no more of them
    than there are emails. *)
Theorem one_bill_per_email `{Runtime} (opts : Coordinator.options)
  (emails : list Email.t) :
  Forall (fun email => ident_truthy (Email.message_id_or_uid email) = true)
    emails →
  NoDup (Bill.id <$> Coordinator._limit_bills opts
                       (flat_map bills_of_email emails))
  ∧ Bill.id <$> Coordinator._limit_bills opts (flat_map bills_of_email emails)
    ⊆ Email.message_id_or_uid <$> emails
  ∧ length (Coordinator._limit_bills opts (flat_map bills_of_email emails))
    ≤ length emails.
Proof.
  intros Hids.
  set (out := Coordinator._limit_bills opts (flat_map bills_of_email emails)).
  assert (Hsub : Bill.id <$> out ⊆ Email.message_id_or_uid <$> emails).
  { intros i (b & -> & Hb)%list_elem_of_fmap. apply bills_of_email_id.
    apply (elem_of_submseteq _ _ _ Hb), limit_bills_submseteq. }
  assert (Hnd : NoDup (Bill.id <$> out)).
  { pose proof (limit_bills_deduplicated opts
                  (flat_map bills_of_email emails)) as Hd.
    unfold deduplicated in Hd. fold out in Hd.
    rewrite filter_all in Hd; [done|].
    rewrite list.Forall_forall. intros i Hi.
    apply Hsub, list_elem_of_fmap in Hi as (email & -> & Hemail).
    rewrite list.Forall_forall in Hids. by apply Hids. }
  split; [done|]. split; [done|].
  rewrite <- (length_fmap Bill.id out),
    <- (length_fmap Email.message_id_or_uid emails).
  apply submseteq_length, NoDup_submseteq; [done|]. apply Hsub.
Qed.

Lemma one_bill_per_email_witness :
  length (Coordinator._limit_bills (BillSamples.opts 10)
            (flat_map (@bills_of_email Samples.runtime)
               [both_providers_email; Samples.psnc_email]))
  ≤ 2.
Proof.
  apply (@one_bill_per_email Samples.runtime (BillSamples.opts 10)
           [both_providers_email; Samples.psnc_email]).
  repeat constructor.
Defined.
